(** * wrangle.py: cleaning and merging of the population, legislature,
      generation and emission tables

    A shallow embedding of [src/wrangle.py].

    - A pandas data frame is a list of rows in index order, one record
      field per column; the frames of successive stages have record types
      of their own.
    - What [pd.read_csv] returns is an input: a disk maps a path to the
      parsed content of the file.  A cell that pandas reads as NaN is
      [None].  Text columns that serve as keys (state, code, source) hold
      text in every row, and numeric cells are finite numbers or missing.
    - Float columns computed by the pipeline are values of [fnum], exact
      rationals extended with the two infinities and NaN.  Rounding is not
      modelled there: a statement about a quotient or a sum of [fnum]
      says which operation the code applies to which operands.  What the
      rounding does to the shares of a group is computed on binary64
      floats, in [sum_f64] and [gen_mwh_pct_f64].
    - The merges are those of pandas 2: suffixes that make two columns of
      a frame share a name are a MergeError.
    - Text is a [string] of bytes; [str.upper], [str.lower] and the white
      space [int] skips are modelled on the ASCII characters.
    - A function that raises returns [Err]; the geometry loader
      [load_states] takes no part in the pipeline and is left out. *)

From Stdlib Require Import List Bool Arith ZArith Lia.
From Stdlib Require Import Ascii String.
From Stdlib Require Import QArith.
From Stdlib Require Import PrimFloat.
From Stdlib Require Uint63.
From Stdlib Require Import Permutation Sorted.
Import ListNotations.

Local Open Scope string_scope.
Local Open Scope list_scope.

(** ** Text helpers: the [str] methods the module calls *)

Module Str.

Fixpoint smap (f : ascii -> ascii) (s : string) : string :=
  match s with
  | EmptyString => EmptyString
  | String c s' => String (f c) (smap f s')
  end.

Definition is_lower (c : ascii) : bool :=
  (97 <=? nat_of_ascii c)%nat && (nat_of_ascii c <=? 122)%nat.

Definition is_upper (c : ascii) : bool :=
  (65 <=? nat_of_ascii c)%nat && (nat_of_ascii c <=? 90)%nat.

Definition upper_char (c : ascii) : ascii :=
  if is_lower c then ascii_of_nat (nat_of_ascii c - 32) else c.

Definition lower_char (c : ascii) : ascii :=
  if is_upper c then ascii_of_nat (nat_of_ascii c + 32) else c.

(** [s.upper()] and [s.lower()] *)
Definition upper : string -> string := smap upper_char.
Definition lower : string -> string := smap lower_char.

(** [s.startswith(p)] *)
Definition startswith (p s : string) : bool := prefix p s.

(** [needle in hay] *)
Fixpoint contains (needle hay : string) : bool :=
  prefix needle hay ||
  match hay with
  | EmptyString => false
  | String _ hay' => contains needle hay'
  end.

Fixpoint mem_char (c : ascii) (chars : string) : bool :=
  match chars with
  | EmptyString => false
  | String d chars' => Ascii.eqb c d || mem_char c chars'
  end.

Fixpoint lstrip (chars s : string) : string :=
  match s with
  | EmptyString => EmptyString
  | String c s' => if mem_char c chars then lstrip chars s' else s
  end.

Fixpoint rstrip (chars s : string) : string :=
  match s with
  | EmptyString => EmptyString
  | String c s' =>
      match rstrip chars s' with
      | EmptyString =>
          if mem_char c chars then EmptyString else String c EmptyString
      | r => String c r
      end
  end.

(** [s.strip(chars)] *)
Definition strip (chars s : string) : string := rstrip chars (lstrip chars s).

(** [s.replace(old, new)] for a non-empty [old]: occurrences are replaced
    from the left and do not overlap.  [skip] counts the characters of a
    matched occurrence that are still to be passed over. *)
Fixpoint replace_from (old new : string) (skip : nat) (s : string) : string :=
  match s with
  | EmptyString => EmptyString
  | String c s' =>
      match skip with
      | S k => replace_from old new k s'
      | O =>
          if prefix old s
          then new ++ replace_from old new (String.length old - 1) s'
          else String c (replace_from old new 0 s')
      end
  end.

Definition replace (old new s : string) : string := replace_from old new 0 s.

Definition is_space (c : ascii) : bool :=
  let n := nat_of_ascii c in
  (n =? 32)%nat || ((9 <=? n)%nat && (n <=? 13)%nat).

Definition whitespace : string :=
  String (ascii_of_nat 32) (String (ascii_of_nat 9) (String (ascii_of_nat 10)
    (String (ascii_of_nat 11) (String (ascii_of_nat 12)
      (String (ascii_of_nat 13) EmptyString))))).

Fixpoint all_chars (p : ascii -> bool) (s : string) : bool :=
  match s with
  | EmptyString => true
  | String c s' => p c && all_chars p s'
  end.

(** blank or made of white space only *)
Definition is_blank (s : string) : bool := all_chars is_space s.

End Str.

(** ** Numbers: float columns in exact arithmetic *)

Module Num.

(** A float: a finite rational, an infinity, or NaN (which is also how
    pandas stores a missing number).  Two fractions of the same value
    are the same float: [feq] is the equality of floats, and every
    operation below respects it. *)
Inductive fnum : Type :=
| Fin (q : Q)
| PInf
| NInf
| NaN.

Definition feq (x y : fnum) : Prop :=
  match x, y with
  | Fin a, Fin b => a == b
  | PInf, PInf | NInf, NInf | NaN, NaN => True
  | _, _ => False
  end.

Definition Q_ltb (x y : Q) : bool := negb (Qle_bool y x).

Definition isna (x : fnum) : bool :=
  match x with NaN => true | _ => false end.

(** a cell read from a file: a number or missing *)
Definition of_cell (c : option Q) : fnum :=
  match c with Some q => Fin q | None => NaN end.

Definition fadd (x y : fnum) : fnum :=
  match x, y with
  | NaN, _ | _, NaN => NaN
  | Fin a, Fin b => Fin (a + b)
  | PInf, NInf | NInf, PInf => NaN
  | PInf, _ | _, PInf => PInf
  | NInf, _ | _, NInf => NInf
  end.

(** IEEE division, the sign of a zero taken as positive *)
Definition fdiv (x y : fnum) : fnum :=
  match x, y with
  | NaN, _ | _, NaN => NaN
  | Fin a, Fin b =>
      if Qeq_bool b 0
      then if Qeq_bool a 0 then NaN
           else if Q_ltb 0 a then PInf else NInf
      else Fin (a / b)
  | Fin _, _ => Fin 0
  | PInf, Fin b => if Q_ltb b 0 then NInf else PInf
  | NInf, Fin b => if Q_ltb b 0 then PInf else NInf
  | _, _ => NaN
  end.

(** [Series.sum()]: missing values are skipped, an empty sum is 0 *)
Definition fsum (l : list fnum) : fnum :=
  fold_left fadd (filter (fun x => negb (isna x)) l) (Fin 0).

(** the sum of a column that holds no missing value *)
Definition qsum (l : list Q) : Q := fold_left Qplus l 0.

(** the order of the floats that are not NaN *)
Definition fleb (x y : fnum) : bool :=
  match x, y with
  | NInf, _ => true
  | _, PInf => true
  | Fin a, Fin b => Qle_bool a b
  | _, _ => false
  end.

End Num.
Export Num.

(** ** Data-frame operations *)

Section Frame.

Context {L R K : Type}.

(** [left.merge(right, how="inner")]: the order of the left keys is kept;
    a left row is paired with each right row [on] relates it to. *)
Definition merge_inner (on : L -> R -> bool) (left : list L) (right : list R)
  : list (L * R) :=
  flat_map (fun l => map (pair l) (filter (on l) right)) left.

(** [how="left"]: a left row without partner is kept once, the right
    columns missing. *)
Definition merge_left (on : L -> R -> bool) (left : list L) (right : list R)
  : list (L * option R) :=
  flat_map (fun l =>
              match filter (on l) right with
              | [] => [(l, None)]
              | ms => map (fun r => (l, Some r)) ms
              end) left.

(** [how="right"]: the order of the right keys is kept; a right row
    without partner is kept once, the left columns missing. *)
Definition merge_right (on : L -> R -> bool) (left : list L) (right : list R)
  : list (option L * R) :=
  flat_map (fun r =>
              match filter (fun l => on l r) left with
              | [] => [(None, r)]
              | ms => map (fun l => (Some l, r)) ms
              end) right.

(** [Series.unique()]: the distinct values in order of first appearance *)
Fixpoint unique (eqb : K -> K -> bool) (l : list K) : list K :=
  match l with
  | [] => []
  | x :: l' => x :: filter (fun y => negb (eqb x y)) (unique eqb l')
  end.

(** a stable sort: [x] is put before the first element it is [leb] to *)
Fixpoint insert (leb : K -> K -> bool) (x : K) (l : list K) : list K :=
  match l with
  | [] => [x]
  | y :: l' => if leb x y then x :: l else y :: insert leb x l'
  end.

Fixpoint sort (leb : K -> K -> bool) (l : list K) : list K :=
  match l with
  | [] => []
  | x :: l' => insert leb x (sort leb l')
  end.

(** [df.groupby(key)]: the groups in the order of their sorted keys, each
    with its rows in frame order *)
Definition groupby (eqb leb : K -> K -> bool) (key : L -> K) (df : list L)
  : list (K * list L) :=
  map (fun k => (k, filter (fun r => eqb (key r) k) df))
      (sort leb (unique eqb (map key df))).

(** the value a left merge on a key column brings in: that of the first
    row of [tbl] with the key *)
Fixpoint lookup (eqb : K -> K -> bool) (k : K) (tbl : list (K * R)) : option R :=
  match tbl with
  | [] => None
  | (k', v) :: tbl' => if eqb k' k then Some v else lookup eqb k tbl'
  end.

End Frame.

(** ** Errors *)

(** the exceptions the module can end in; MergeError is the one pandas
    raises from a merge *)
Inductive error : Type :=
| FileNotFoundError
| KeyError
| IndexError
| AttributeError
| ValueError
| UnboundLocalError
| MergeError.

Inductive result (A : Type) : Type :=
| Ok (a : A)
| Err (e : error).
Arguments Ok {A} a.
Arguments Err {A} e.

Definition bind {A B : Type} (m : result A) (f : A -> result B) : result B :=
  match m with
  | Ok a => f a
  | Err e => Err e
  end.

Notation "x <- m ;; k" := (bind m (fun x => k))
  (at level 61, m at next level, right associativity).

Definition is_err {A : Type} (m : result A) : bool :=
  match m with Ok _ => false | Err _ => true end.

(** the rows of a returned table; no table, no rows *)
Definition rows_of {A : Type} (m : result (list A)) : list A :=
  match m with Ok t => t | Err _ => [] end.

(** ** The files

    [pd.read_csv] is modelled by what it returns for the five kinds of
    file the module reads.  A disk maps a path to the parsed content of
    the file there, if any. *)

(** state_codes.csv: the columns [state] and [code] *)
Record CodeRow : Type := { cd_state : string; cd_code : string }.

(** A census file, as parsed with [header=3, thousands=","]: the name of
    the first, text column, the names of the numeric columns, and per row
    the first cell and one numeric cell per numeric column.  A numeric
    column is not called [state], [geography], [unnamed: 0] or [code].
    The file has a row below the header: of a file without any, pandas
    reads every column as text and not as numbers. *)
Record PopFile : Type := {
  pf_first : string;
  pf_cols : list string;
  pf_rows : list (option string * list (option Q))
}.

(** The legislature file: a [state] column and the names of the other
    columns, which hold text; none of them is called [code]. *)
Record LegFile : Type := {
  lf_cols : list string;
  lf_rows : list (string * list (option string))
}.

(** generation_annual.csv: YEAR, STATE, TYPE OF PRODUCER, ENERGY SOURCE,
    GENERATION (Megawatthours) *)
Record GenRaw : Type := {
  gr_year : Z;
  gr_state : string;
  gr_type_of_producer : string;
  gr_energy_source : string;
  gr_generation : option Q
}.

(** emission_annual.csv: Year, State, Producer Type, Energy Source and the
    three emission columns *)
Record EmiRaw : Type := {
  er_year : Z;
  er_state : string;
  er_producer_type : string;
  er_energy_source : string;
  er_co2 : option Q;
  er_so2 : option Q;
  er_nox : option Q
}.

Inductive csv : Type :=
| CodesCsv (rows : list CodeRow)
| PopCsv (f : PopFile)
| LegCsv (f : LegFile)
| GenCsv (rows : list GenRaw)
| EmiCsv (rows : list EmiRaw).

Definition disk : Type := string -> option csv.

Definition read_csv (fs : disk) (filename : string) : result csv :=
  match fs filename with
  | Some c => Ok c
  | None => Err FileNotFoundError
  end.

Definition CODE : string := "data/state_codes.csv".
Definition POPS : list string :=
  ["data/pop_90-99.csv"; "data/pop_00-10.csv"; "data/pop_10-19.csv"].
Definition LEG : string := "data/leg_90-19.csv".
Definition ENG : list string :=
  ["data/generation_annual.csv"; "data/emission_annual.csv"].

Definition PUNCTUATION : string := "!@#$%^&*.".

(** ** load_codes *)

Definition load_codes (fs : disk) (filename : string) : result (list CodeRow) :=
  c <- read_csv fs filename ;;
  match c with
  | CodesCsv letters =>
      Ok (map (fun r => {| cd_state := cd_state r;
                           cd_code := Str.upper (cd_code r) |}) letters)
  | _ => Err KeyError
  end.

(** ** load_clean_pop *)

(** A wide table: the name of the key column, the names of the value
    columns, and per row the key and one cell per value column. *)
Record Wide : Type := {
  w_key : string;
  w_cols : list string;
  w_rows : list (string * list Q)
}.

Definition cell_at {A : Type} (cells : list (option A)) (j : nat) : option A :=
  match nth_error cells j with
  | Some c => c
  | None => None
  end.

(** the cells of the columns [js], when none of them is missing *)
Fixpoint cells_at (cells : list (option Q)) (js : list nat) : option (list Q) :=
  match js with
  | [] => Some []
  | j :: js' =>
      match cell_at cells j, cells_at cells js' with
      | Some q, Some qs => Some (q :: qs)
      | _, _ => None
      end
  end.

(** the positions of the columns whose name satisfies [p] *)
Definition positions (p : string -> bool) (cols : list string) : list nat :=
  map fst (filter (fun jc => p (snd jc)) (combine (seq 0 (List.length cols)) cols)).

Definition no_hyphen (col : string) : bool := negb (Str.contains "-" col).

Definition load_clean_pop (fs : disk) (filename : string) : result Wide :=
  c <- read_csv fs filename ;;
  match c with
  | PopCsv df =>
      let first := Str.lower (pf_first df) in
      let cols := map Str.lower (pf_cols df) in
      (* df.dropna(): a row with a missing cell in any column goes *)
      let all_js := seq 0 (List.length cols) in
      let full :=
        filter (fun r => match fst r, cells_at (snd r) all_js with
                         | Some _, Some _ => true
                         | _, _ => false
                         end) (pf_rows df) in
      (* keep_cols *)
      let js := positions no_hyphen cols in
      let keep := filter no_hyphen cols in
      if negb (no_hyphen first) then
        (* the first kept column is then a numeric one, or there is none *)
        match keep with [] => Err IndexError | _ => Err AttributeError end
      else if match pf_rows df with
              | [] => false
              | rows => forallb (fun r => match fst r with
                                          | None => true
                                          | Some _ => false
                                          end) rows
              end then
        (* a first column with no text in any row is read as numbers, and
           a column of numbers has no [.str] *)
        Err AttributeError
      else
        let df_states :=
          flat_map (fun r => match fst r, cells_at (snd r) js with
                             | Some st, Some qs =>
                                 if Str.startswith "." st then [(st, qs)] else []
                             | _, _ => []
                             end) full in
        let key :=
          if Str.contains "unnamed" first
          then (if String.eqb first "unnamed: 0" then "state" else first)
          else (if String.eqb first "geography" then "state" else first) in
        Ok {| w_key := key; w_cols := keep; w_rows := df_states |}
  | _ => Err KeyError
  end.

(** ** build_pop *)

Record PopRow : Type := {
  p_state : string;
  p_code : string;
  p_year : string;
  p_pop : Q
}.

Definition mem_str (c : string) (cols : list string) : bool :=
  existsb (String.eqb c) cols.

(** the suffixes a merge gives to the columns that both frames have *)
Definition suffixed (sfx : string) (others : list string) (c : string) : string :=
  if mem_str c others then c ++ sfx else c.

(** the value columns of [pop_df.merge(df, how="inner", on="state")] *)
Definition merge_cols (cols_x cols_y : list string) : list string :=
  map (suffixed "_x" cols_y) cols_x ++ map (suffixed "_y" cols_x) cols_y.

(** its rows: in the order of the left frame, a left row with each right
    row of the same state *)
Definition merge_rows (rows_x rows_y : list (string * list Q))
  : list (string * list Q) :=
  map (fun lr => (fst (fst lr), snd (fst lr) ++ snd (snd lr)))
      (merge_inner (fun l r => String.eqb (fst l) (fst r)) rows_x rows_y).

(** The check a merge makes on the names of one side after the suffixes
    (pandas 2): a column is reported when its new name is that of a
    column before it and its old name was not.  [seen_old] and [seen_new]
    are the old and the new names of the columns before [cols]. *)
Fixpoint suffix_dups (sfx : string) (others seen_old seen_new cols : list string)
  : bool :=
  match cols with
  | [] => false
  | c :: cols' =>
      let c' := suffixed sfx others c in
      (mem_str c' seen_new && negb (mem_str c seen_old))
      || suffix_dups sfx others (c :: seen_old) (c' :: seen_new) cols'
  end.

(** [pop_df.merge(df, how="inner", on="state")]: a frame without the key
    is a KeyError; suffixes that make two columns of one side share a name
    are a MergeError.  The key column takes no suffix and is no value
    column, so it is left out of the check. *)
Definition merge_on_state (pop_df df : Wide) : result Wide :=
  if String.eqb (w_key pop_df) "state" && String.eqb (w_key df) "state" then
    if suffix_dups "_x" (w_cols df) [] [] (w_cols pop_df)
       || suffix_dups "_y" (w_cols pop_df) [] [] (w_cols df)
    then Err MergeError
    else
      Ok {| w_key := "state";
            w_cols := merge_cols (w_cols pop_df) (w_cols df);
            w_rows := merge_rows (w_rows pop_df) (w_rows df) |}
  else Err KeyError.

(** the loop over [files[1:]] *)
Fixpoint merge_pops (fs : disk) (pop_df : Wide) (files : list string) : result Wide :=
  match files with
  | [] => Ok pop_df
  | filename :: files' =>
      df <- load_clean_pop fs filename ;;
      pop_df' <- merge_on_state pop_df df ;;
      merge_pops fs pop_df' files'
  end.

Definition is_year_col (col : string) : bool := (String.length col <=? 4)%nat.

(** [melt]: one row per value column and frame row, column by column *)
Definition melt_pop (cols : list string) (rows : list (CodeRow * (string * list Q)))
  : list PopRow :=
  flat_map (fun jc =>
              map (fun r => {| p_state := cd_state (fst r);
                               p_code := cd_code (fst r);
                               p_year := snd jc;
                               p_pop := nth (fst jc) (snd (snd r)) 0 |}) rows)
           (filter (fun jc => is_year_col (snd jc))
                   (combine (seq 0 (List.length cols)) cols)).

Definition build_pop (fs : disk) (files : list string) : result (list PopRow) :=
  letters <- load_codes fs CODE ;;
  match files with
  | [] => Err IndexError
  | file0 :: files' =>
      pop_df <- load_clean_pop fs file0 ;;
      pop_df <- merge_pops fs pop_df files' ;;
      if negb (String.eqb (w_key pop_df) "state") then Err KeyError else
      let stripped :=
        map (fun r => (Str.strip PUNCTUATION (fst r), snd r)) (w_rows pop_df) in
      let joined :=
        merge_inner (fun l r => String.eqb (cd_state l) (fst r)) letters stripped in
      Ok (melt_pop (w_cols pop_df) joined)
  end.

(** ** load_clean_pol *)

Record PolRow : Type := {
  l_state : string;
  l_code : string;
  l_year : string;
  l_pol : string
}.

Definition clean_pol_cell (c : option string) : option string :=
  option_map (fun s => Str.replace "Divided" "Split" (Str.strip PUNCTUATION s)) c.

Definition melt_pol (cols : list string)
  (rows : list (CodeRow * (string * list (option string)))) : list PolRow :=
  flat_map (fun jc =>
              map (fun r => {| l_state := cd_state (fst r);
                               l_code := cd_code (fst r);
                               l_year := snd jc;
                               (* fillna("Split") *)
                               l_pol := match cell_at (snd (snd r)) (fst jc) with
                                        | Some v => v
                                        | None => "Split"
                                        end |}) rows)
           (combine (seq 0 (List.length cols)) cols).

(** column [j] of a file that has rows holds text in none of them *)
Definition no_text (rows : list (string * list (option string))) (j : nat) : bool :=
  match rows with
  | [] => false
  | _ => forallb (fun r => match cell_at (snd r) j with
                           | None => true
                           | Some _ => false
                           end) rows
  end.

Definition load_clean_pol (fs : disk) (filename : string) : result (list PolRow) :=
  letters <- load_codes fs CODE ;;
  c <- read_csv fs filename ;;
  match c with
  | LegCsv df =>
      let cols := map Str.lower (lf_cols df) in
      (* line 132: a column with no text in any row is read as numbers, and
         a column of numbers has no [.str] *)
      if existsb (no_text (lf_rows df)) (seq 0 (List.length cols)) then
        Err AttributeError
      else
      let rows := map (fun r => (fst r, map clean_pol_cell (snd r))) (lf_rows df) in
      let pol_df :=
        merge_inner (fun l r => String.eqb (cd_state l) (fst r)) letters rows in
      Ok (melt_pol cols pol_df)
  | _ => Err KeyError
  end.

(** ** load_clean_eng *)

Record GenRow : Type := {
  g_state : string;
  g_year : Z;
  g_src : string;
  g_gen_mwh : option Q;
  g_renew : string
}.

Record EmiRow : Type := {
  m_state : string;
  m_year : Z;
  m_src : string;
  m_co2_tons : option Q;
  m_so2_tons : option Q;
  m_nox_tons : option Q
}.

Inductive EngClean : Type :=
| GenClean (rows : list GenRow)
| EmiClean (rows : list EmiRow).

Definition TOTAL_INDUSTRY : string := "Total Electric Power Industry".

(** the three renamings of the [src] column, in the order applied *)
Definition canonical_src (src : string) : string :=
  Str.replace "Solar Thermal and Photovoltaic" "Solar"
    (Str.replace "Wood and Wood Derived Fuels" "Wood Derived Fuels"
       (Str.replace "Hydroelectric Conventional" "Hydroelectric" src)).

Definition renew_of (src : string) : string :=
  if String.eqb src "Coal" || String.eqb src "Natural Gas"
     || String.eqb src "Petroleum"
  then "Nonrenewable" else "Renewable".

Definition clean_generation (df : list GenRaw) : list GenRow :=
  map (fun r => {| g_state := Str.upper (gr_state r);
                   g_year := gr_year r;
                   g_src := canonical_src (gr_energy_source r);
                   g_gen_mwh := gr_generation r;
                   g_renew := renew_of (gr_energy_source r) |})
      (filter (fun r => String.eqb (gr_type_of_producer r) TOTAL_INDUSTRY)
              (filter (fun r => negb (String.eqb (gr_energy_source r) "Total")) df)).

Definition clean_emission (df : list EmiRaw) : list EmiRow :=
  map (fun r => {| m_state := Str.upper (er_state r);
                   m_year := er_year r;
                   m_src := canonical_src (er_energy_source r);
                   m_co2_tons := er_co2 r;
                   m_so2_tons := er_so2 r;
                   m_nox_tons := er_nox r |})
      (filter (fun r => String.eqb (er_producer_type r) TOTAL_INDUSTRY) df).

(** lines 164 to 174 *)
Definition generation_branch (df : csv) : result EngClean :=
  match df with
  | GenCsv rows => Ok (GenClean (clean_generation rows))
  | _ => Err KeyError
  end.

(** lines 177 to 183 *)
Definition emission_branch (df : csv) : result EngClean :=
  match df with
  | EmiCsv rows => Ok (EmiClean (clean_emission rows))
  | _ => Err KeyError
  end.

(** The branch is chosen by the file name.  When the name has neither
    word, [totals_mask] and [keep_cols] are never assigned and line 185
    raises.  A file of another shape than the branch expects lacks the
    producer column the branch asks for. *)
Definition load_clean_eng (fs : disk) (filename : string) : result EngClean :=
  df <- read_csv fs filename ;;
  if Str.contains "generation" filename then generation_branch df
  else if Str.contains "emission" filename then emission_branch df
  else Err UnboundLocalError.

(** ** build_eng *)

(** A row of the merged energy table.  The column [state] is renamed
    [code] on return; the field serves for both. *)
Record EngRow : Type := {
  e_code : string;
  e_year : Z;
  e_src : string;
  e_gen_mwh : Q;
  e_renew : string;
  e_co2_tons : Q;
  e_so2_tons : Q;
  e_nox_tons : Q
}.

Definition fillna0 (c : option Q) : Q :=
  match c with Some q => q | None => 0 end.

Definition same_state_year_src (g : GenRow) (m : EmiRow) : bool :=
  String.eqb (g_state g) (m_state m) && (g_year g =? m_year m)%Z
  && String.eqb (g_src g) (m_src m).

(** lines 214 and 216: the left join on (state, year, src), then
    [fillna(0)] *)
Definition merge_eng (eng_df : list GenRow) (df : list EmiRow) : list EngRow :=
  map (fun gm =>
         let g := fst gm in
         {| e_code := g_state g;
            e_year := g_year g;
            e_src := g_src g;
            e_gen_mwh := fillna0 (g_gen_mwh g);
            e_renew := g_renew g;
            e_co2_tons := fillna0 (match snd gm with Some m => m_co2_tons m | None => None end);
            e_so2_tons := fillna0 (match snd gm with Some m => m_so2_tons m | None => None end);
            e_nox_tons := fillna0 (match snd gm with Some m => m_nox_tons m | None => None end) |})
      (merge_left same_state_year_src eng_df df).

(** lines 217 to 221 *)
Definition drop_totals (eng_df : list EngRow) : list EngRow :=
  filter (fun r => negb (String.eqb (e_code r) "DC"))
    (filter (fun r => negb (String.eqb (e_code r) "  "))
       (filter (fun r => negb (String.eqb (e_code r) "US-TOTAL"))
          (filter (fun r => negb (String.eqb (e_code r) "US-Total")) eng_df))).

(** [build_eng()] on its default file list [ENG], a generation file
    followed by an emission file *)
Definition build_eng (fs : disk) : result (list EngRow) :=
  eng_df <- load_clean_eng fs (nth 0 ENG "") ;;
  df <- load_clean_eng fs (nth 1 ENG "") ;;
  match eng_df, df with
  | GenClean g, EmiClean m => Ok (drop_totals (merge_eng g m))
  | _, _ => Err KeyError
  end.

(** ** build_full *)

(** A row of [data] before the energy table is merged in; [Y] is the type
    of the [year] column, text until line 244 and an integer after. *)
Record DataRow (Y : Type) : Type := {
  d_state : string;
  d_code : string;
  d_year : Y;
  d_pop : Q;
  d_pol : option string
}.
Arguments d_state {Y} _.
Arguments d_code {Y} _.
Arguments d_year {Y} _.
Arguments d_pop {Y} _.
Arguments d_pol {Y} _.

Definition same_state_code_year (p : PopRow) (l : PolRow) : bool :=
  String.eqb (p_state p) (l_state l) && String.eqb (p_code p) (l_code l)
  && String.eqb (p_year p) (l_year l).

(** line 243 *)
Definition merge_pop_pol (pop : list PopRow) (pol : list PolRow)
  : list (DataRow string) :=
  map (fun pl => {| d_state := p_state (fst pl);
                    d_code := p_code (fst pl);
                    d_year := p_year (fst pl);
                    d_pop := p_pop (fst pl);
                    d_pol := option_map l_pol (snd pl) |})
      (merge_left same_state_code_year pop pol).

(** *** [int(s)] on a text cell *)

Definition digit_of (c : ascii) : option Z :=
  let n := nat_of_ascii c in
  if (48 <=? n)%nat && (n <=? 57)%nat then Some (Z.of_nat (n - 48)) else None.

(** digits, single underscores allowed between two digits *)
Fixpoint parse_digits (acc : Z) (after_digit : bool) (s : string) : option Z :=
  match s with
  | EmptyString => if after_digit then Some acc else None
  | String c s' =>
      if Ascii.eqb c "_"%char then
        if after_digit then parse_digits acc false s' else None
      else
        match digit_of c with
        | Some d => parse_digits (10 * acc + d)%Z true s'
        | None => None
        end
  end.

(** the white space [int] skips around the digits of an ASCII string *)
Definition int_space : string := Str.whitespace.

Definition parse_int (s : string) : option Z :=
  match Str.strip int_space s with
  | String "+"%char s' => parse_digits 0 false s'
  | String "-"%char s' => option_map Z.opp (parse_digits 0 false s')
  | s' => parse_digits 0 false s'
  end.

(** line 244: [data["year"].astype(int)] *)
Fixpoint astype_int (data : list (DataRow string)) : result (list (DataRow Z)) :=
  match data with
  | [] => Ok []
  | r :: data' =>
      match parse_int (d_year r) with
      | Some y =>
          rest <- astype_int data' ;;
          Ok ({| d_state := d_state r; d_code := d_code r; d_year := y;
                 d_pop := d_pop r; d_pol := d_pol r |} :: rest)
      | None => Err ValueError
      end
  end.

(** *** The per-state forward fill, lines 246 to 248 *)

(** [Series.fillna(method="ffill")], [prev] the last value seen *)
Fixpoint ffill (prev : option string) (col : list (option string))
  : list (option string) :=
  match col with
  | [] => []
  | Some v :: col' => Some v :: ffill (Some v) col'
  | None :: col' => prev :: ffill prev col'
  end.

Definition set_pol (r : DataRow Z) (v : option string) : DataRow Z :=
  {| d_state := d_state r; d_code := d_code r; d_year := d_year r;
     d_pop := d_pop r; d_pol := v |}.

(** [data.loc[mask, "pol"]] *)
Fixpoint loc_get (mask : list bool) (data : list (DataRow Z)) : list (option string) :=
  match mask, data with
  | true :: mask', r :: data' => d_pol r :: loc_get mask' data'
  | false :: mask', _ :: data' => loc_get mask' data'
  | _, _ => []
  end.

(** [data.loc[mask, "pol"] = values] *)
Fixpoint loc_set (mask : list bool) (values : list (option string))
  (data : list (DataRow Z)) : list (DataRow Z) :=
  match mask, data with
  | true :: mask', r :: data' =>
      match values with
      | v :: values' => set_pol r v :: loc_set mask' values' data'
      | [] => r :: loc_set mask' [] data'
      end
  | false :: mask', r :: data' => r :: loc_set mask' values data'
  | _, _ => data
  end.

(** the body of the loop *)
Definition fill_state (data : list (DataRow Z)) (state : string) : list (DataRow Z) :=
  let state_filter := map (fun r => String.eqb (d_code r) state) data in
  loc_set state_filter (ffill None (loc_get state_filter data)) data.

Definition ffill_per_state (data : list (DataRow Z)) : list (DataRow Z) :=
  fold_left fill_state (unique String.eqb (map d_code data)) data.

(** *** The joins and the derived columns *)

(** [data] after line 250: the columns of the population and legislature
    side, missing where an energy row found no partner, and the energy row *)
Record Joined : Type := {
  j_state : option string;
  j_pop : option Q;
  j_pol : option string;
  j_eng : EngRow
}.

Definition on_year_code (d : DataRow Z) (e : EngRow) : bool :=
  (d_year d =? e_year e)%Z && String.eqb (d_code d) (e_code e).

Definition joined_of (de : option (DataRow Z) * EngRow) : Joined :=
  match fst de with
  | Some d => {| j_state := Some (d_state d); j_pop := Some (d_pop d);
                 j_pol := d_pol d; j_eng := snd de |}
  | None => {| j_state := None; j_pop := None; j_pol := None; j_eng := snd de |}
  end.

(** line 250 *)
Definition join_eng (data : list (DataRow Z)) (eng_df : list EngRow) : list Joined :=
  map joined_of (merge_right on_year_code data eng_df).

(** lines 253 and 254 *)
Record PerCapita : Type := {
  pc_row : Joined;
  pc_co2_pp : fnum;
  pc_mwh_pp : fnum
}.

Definition per_capita (j : Joined) : PerCapita :=
  {| pc_row := j;
     pc_co2_pp := fdiv (Fin (e_co2_tons (j_eng j))) (of_cell (j_pop j));
     pc_mwh_pp := fdiv (Fin (e_gen_mwh (j_eng j))) (of_cell (j_pop j)) |}.

Definition year_code (r : PerCapita) : Z * string :=
  (e_year (j_eng (pc_row r)), e_code (j_eng (pc_row r))).

Definition key_eqb (a b : Z * string) : bool :=
  (fst a =? fst b)%Z && String.eqb (snd a) (snd b).

Definition key_leb (a b : Z * string) : bool :=
  (fst a <? fst b)%Z || ((fst a =? fst b)%Z && String.leb (snd a) (snd b)).

(** line 257: per (year, code), the sums of [gen_mwh] and [mwh_pp] *)
Definition sum_by_year_code (data : list PerCapita)
  : list ((Z * string) * (fnum * fnum)) :=
  map (fun g => (fst g,
                 (fsum (map (fun r => Fin (e_gen_mwh (j_eng (pc_row r)))) (snd g)),
                  fsum (map pc_mwh_pp (snd g)))))
      (groupby key_eqb key_leb year_code data).

(** lines 261 to 263 *)
Record Shares : Type := {
  sh_row : PerCapita;
  sh_sum_gen_mwh : fnum;
  sh_sum_mwh_pp : fnum;
  sh_mwh_pp_pct : fnum;
  sh_gen_mwh_pct : fnum
}.

Definition with_shares (sum_mwh : list ((Z * string) * (fnum * fnum)))
  (r : PerCapita) : Shares :=
  let sums := match lookup key_eqb (year_code r) sum_mwh with
              | Some s => s
              | None => (NaN, NaN)
              end in
  {| sh_row := r;
     sh_sum_gen_mwh := fst sums;
     sh_sum_mwh_pp := snd sums;
     sh_mwh_pp_pct := fdiv (pc_mwh_pp r) (snd sums);
     sh_gen_mwh_pct := fdiv (Fin (e_gen_mwh (j_eng (pc_row r)))) (fst sums) |}.

Definition src_of (r : Shares) : string := e_src (j_eng (pc_row (sh_row r))).

(** lines 267 to 269: per source, [co2_mwh], the sum of [co2_tons] over
    the sum of [gen_mwh] *)
Definition co2_per_mwh (data : list Shares) : list (string * fnum) :=
  map (fun g =>
         (fst g,
          fdiv (fsum (map (fun r => Fin (e_co2_tons (j_eng (pc_row (sh_row r))))) (snd g)))
               (fsum (map (fun r => Fin (e_gen_mwh (j_eng (pc_row (sh_row r))))) (snd g)))))
      (groupby String.eqb String.leb src_of data).

(** line 270: [sort_values("co2_mwh", ascending=False)]: the rows with a
    ratio by falling ratio, then the rows whose ratio is NaN.  Equal
    ratios are kept in their former order here; the order pandas leaves
    them in depends on the sorting routine, and nothing below depends on
    it. *)
Definition sort_values_desc (tbl : list (string * fnum)) : list (string * fnum) :=
  sort (fun a b => fleb (snd b) (snd a))
       (filter (fun a => negb (isna (snd a))) tbl)
  ++ filter (fun a => isna (snd a)) tbl.

(** lines 271 and 272: [rank] is the position, counted from 1 *)
Definition rank_sources (data : list Shares) : list (string * Z) :=
  let sorted := sort_values_desc (co2_per_mwh data) in
  combine (map fst sorted) (map Z.of_nat (seq 1 (List.length sorted))).

(** the returned table *)
Record FullRow : Type := {
  shares : Shares;
  rank : option Z
}.

Definition with_rank (mwh_co2 : list (string * Z)) (r : Shares) : FullRow :=
  {| shares := r; rank := lookup String.eqb (src_of r) mwh_co2 |}.

(** the columns of the returned table *)
Definition joined (r : FullRow) : Joined := pc_row (sh_row (shares r)).
Definition state (r : FullRow) : option string := j_state (joined r).
Definition code (r : FullRow) : string := e_code (j_eng (joined r)).
Definition year (r : FullRow) : Z := e_year (j_eng (joined r)).
Definition pop (r : FullRow) : option Q := j_pop (joined r).
Definition pol (r : FullRow) : option string := j_pol (joined r).
Definition src (r : FullRow) : string := e_src (j_eng (joined r)).
Definition gen_mwh (r : FullRow) : Q := e_gen_mwh (j_eng (joined r)).
Definition co2_tons (r : FullRow) : Q := e_co2_tons (j_eng (joined r)).
Definition co2_pp (r : FullRow) : fnum := pc_co2_pp (sh_row (shares r)).
Definition mwh_pp (r : FullRow) : fnum := pc_mwh_pp (sh_row (shares r)).
Definition sum_gen_mwh (r : FullRow) : fnum := sh_sum_gen_mwh (shares r).
Definition sum_mwh_pp (r : FullRow) : fnum := sh_sum_mwh_pp (shares r).
Definition mwh_pp_pct (r : FullRow) : fnum := sh_mwh_pp_pct (shares r).
Definition gen_mwh_pct (r : FullRow) : fnum := sh_gen_mwh_pct (shares r).

(** lines 250 to 274, from the two tables they combine; the population
    column holds numbers, as it does when the census files have rows *)
Definition assemble (data : list (DataRow Z)) (eng_df : list EngRow) : list FullRow :=
  let data := join_eng data eng_df in
  let data := map per_capita data in
  let sum_mwh := sum_by_year_code data in
  let data := map (with_shares sum_mwh) data in
  let mwh_co2 := rank_sources data in
  map (with_rank mwh_co2) data.

Definition build_full (fs : disk) : result (list FullRow) :=
  eng_df <- build_eng fs ;;
  pop <- build_pop fs POPS ;;
  pol <- load_clean_pol fs LEG ;;
  data <- astype_int (merge_pop_pol pop pol) ;;
  let data := ffill_per_state data in
  Ok (assemble data eng_df).

(** ** Sample files *)

Definition gen_raw (y : Z) (st prod src : string) (g : option Q) : GenRaw :=
  {| gr_year := y; gr_state := st; gr_type_of_producer := prod;
     gr_energy_source := src; gr_generation := g |}.

Definition emi_raw (y : Z) (st prod src : string) (c s n : option Q) : EmiRaw :=
  {| er_year := y; er_state := st; er_producer_type := prod;
     er_energy_source := src; er_co2 := c; er_so2 := s; er_nox := n |}.

Definition sample_codes : list CodeRow :=
  [ {| cd_state := "Alabama"; cd_code := "al" |};
    {| cd_state := "California"; cd_code := "CA" |} ].

Definition sample_pop_90 : PopFile :=
  {| pf_first := "Unnamed: 0";
     pf_cols := ["1990"; "1995"; "1990-1995"];
     pf_rows := [ (Some "Northeast", [Some 100; Some 101; Some 1]);
                  (Some ".Alabama", [Some 40; Some 42; Some 2]);
                  (Some ".California", [Some 300; Some 310; Some 10]);
                  (Some ".Texas", [Some 170; None; Some 10]);
                  (None, [None; None; None]) ] |}.

Definition sample_pop_00 : PopFile :=
  {| pf_first := "Unnamed: 0";
     pf_cols := ["2000"; "census"];
     pf_rows := [ (Some ".Alabama", [Some 44; Some 2]);
                  (Some ".California", [Some 340; Some 10]) ] |}.

Definition sample_pop_10 : PopFile :=
  {| pf_first := "Geography";
     pf_cols := ["2010"];
     pf_rows := [ (Some ".California", [Some 370]);
                  (Some ".Alabama", [Some 47]) ] |}.

Definition sample_leg : LegFile :=
  {| lf_cols := ["1990"; "2000"; "2010"];
     lf_rows := [ ("Alabama", [Some "Dem*"; Some "Divided"; None]);
                  ("California", [Some "Rep"; Some "Dem"; Some "Dem"]) ] |}.

Definition sample_gen : list GenRaw :=
  [ gen_raw 1990 "al" TOTAL_INDUSTRY "Coal" (Some 50);
    gen_raw 1990 "AL" TOTAL_INDUSTRY "Hydroelectric Conventional" (Some 150);
    gen_raw 1990 "AL" TOTAL_INDUSTRY "Total" (Some 200);
    gen_raw 1995 "CA" TOTAL_INDUSTRY "Coal" (Some 10);
    gen_raw 1995 "PR" TOTAL_INDUSTRY "Petroleum" (Some 7);
    gen_raw 1995 "DC" TOTAL_INDUSTRY "Petroleum" (Some 7);
    gen_raw 1995 " " TOTAL_INDUSTRY "Petroleum" (Some 7);
    gen_raw 1995 "US-Total" TOTAL_INDUSTRY "Petroleum" (Some 24);
    gen_raw 1995 "CA" "Electric Utility" "Coal" (Some 10) ].

Definition sample_emi : list EmiRaw :=
  [ emi_raw 1990 "AL" TOTAL_INDUSTRY "Coal" (Some 100) (Some 1) None;
    emi_raw 1995 "CA" TOTAL_INDUSTRY "Coal" (Some 30) (Some 1) None;
    emi_raw 1995 "PR" TOTAL_INDUSTRY "Petroleum" (Some 14) (Some 1) None ].

(** a disk from a list of paths and contents *)
Fixpoint disk_of (files : list (string * csv)) : disk :=
  fun path =>
    match files with
    | [] => None
    | (p, c) :: files' => if String.eqb p path then Some c else disk_of files' path
    end.

Definition sample_disk : disk :=
  disk_of [ ("data/state_codes.csv", CodesCsv sample_codes);
            ("data/pop_90-99.csv", PopCsv sample_pop_90);
            ("data/pop_00-10.csv", PopCsv sample_pop_00);
            ("data/pop_10-19.csv", PopCsv sample_pop_10);
            ("data/leg_90-19.csv", LegCsv sample_leg);
            ("data/generation_annual.csv", GenCsv sample_gen);
            ("data/emission_annual.csv", EmiCsv sample_emi);
            ("data/generation_emission.csv", GenCsv sample_gen) ].


Definition data_row (st cd : string) (y : Z) (p : Q) (v : option string) : DataRow Z :=
  {| d_state := st; d_code := cd; d_year := y; d_pop := p; d_pol := v |}.

Definition eng_row (cd : string) (y : Z) (s : string) (g c : Q) : EngRow :=
  {| e_code := cd; e_year := y; e_src := s; e_gen_mwh := g;
     e_renew := renew_of s; e_co2_tons := c; e_so2_tons := 0; e_nox_tons := 0 |}.

Definition sample_data : list (DataRow Z) :=
  [ data_row "Alabama" "AL" 1990 40 (Some "Dem");
    data_row "Texas" "TX" 1990 170 (Some "Rep");
    data_row "Alabama" "AL" 1995 42 None ].

Definition sample_eng : list EngRow :=
  [ eng_row "AL" 1990 "Coal" 50 100;
    eng_row "AL" 1990 "Hydroelectric" 150 0;
    eng_row "PR" 1995 "Petroleum" 7 14 ].

(** the states that lines 217 to 221 name *)
Definition dropped_states : list string := ["US-Total"; "US-TOTAL"; "  "; "DC"].


(** ** The forward fill in the words of the specification *)

(** [seen] after a row with the value [v] for the state [st] *)
Definition remember (seen : string -> option string) (st : string)
  (v : option string) : string -> option string :=
  fun st' => if String.eqb st' st then v else seen st'.

(** One pass in row order; [seen] gives, per state, the most recent
    non-missing [pol] met so far.  A missing [pol] is replaced by it and
    stays missing when there is none. *)
Fixpoint fill_in_order (seen : string -> option string) (data : list (DataRow Z))
  : list (DataRow Z) :=
  match data with
  | [] => []
  | r :: data' =>
      match d_pol r with
      | Some v => r :: fill_in_order (remember seen (d_code r) (Some v)) data'
      | None => set_pol r (seen (d_code r)) :: fill_in_order seen data'
      end
  end.

(** the most recent non-missing [pol] among the rows of [before] with the
    code [st], and [init] when there is none *)
Definition last_pol (init : option string) (st : string)
  (before : list (DataRow Z)) : option string :=
  fold_left (fun acc r =>
               if String.eqb (d_code r) st
               then match d_pol r with Some v => Some v | None => acc end
               else acc)
            before init.

(** the loop body on one state, as one pass: [prev] is the last value the
    fill of that state's rows has seen *)
Fixpoint fill_one (st : string) (prev : option string) (data : list (DataRow Z))
  : list (DataRow Z) :=
  match data with
  | [] => []
  | r :: data' =>
      if String.eqb (d_code r) st then
        let v := match d_pol r with Some v => Some v | None => prev end in
        set_pol r v :: fill_one st v data'
      else r :: fill_one st prev data'
  end.

Definition legislature_scenario : list (DataRow Z) :=
  [ data_row "Alabama" "AL" 1992 40 (Some "Republican");
    data_row "Alabama" "AL" 1994 41 None;
    data_row "Alabama" "AL" 1996 42 (Some "Democrat") ].


(** ** The ratio the ranking is about *)

(** for a source, the sum of [co2_tons] over the sum of [gen_mwh], both
    over all the rows of the table with that source *)
Definition co2_mwh (table : list FullRow) (s : string) : fnum :=
  fdiv (fsum (map (fun r => Fin (co2_tons r))
                  (filter (fun r => String.eqb (src r) s) table)))
       (fsum (map (fun r => Fin (gen_mwh r))
                  (filter (fun r => String.eqb (src r) s) table))).

(** the keys [ks] numbered from [a], as line 272 numbers the sources *)
Definition numbered {K : Type} (a : nat) (ks : list K) : list (K * Z) :=
  combine ks (map Z.of_nat (seq a (List.length ks))).

(** the number of distinct sources of a table *)
Definition n_sources (table : list FullRow) : Z :=
  Z.of_nat (List.length (unique String.eqb (map src table))).


(** ** Population files for the scenarios *)

Definition pop_file (first : string) (cols : list string)
  (rows : list (option string * list (option Q))) : PopFile :=
  {| pf_first := first; pf_cols := cols; pf_rows := rows |}.

Definition west_codes : list CodeRow :=
  [ {| cd_state := "CA"; cd_code := "CA" |};
    {| cd_state := "NV"; cd_code := "NV" |};
    {| cd_state := "OR"; cd_code := "OR" |};
    {| cd_state := "WA"; cd_code := "WA" |} ].

(** three files on the years {1990, 1995}, {2000, 2005} and {2010, 2015}
    with ".CA" the only state row common to the three *)
Definition scenario_disk : disk :=
  disk_of
    [ ("data/state_codes.csv", CodesCsv west_codes);
      ("data/pop_90-99.csv",
       PopCsv (pop_file "Unnamed: 0" ["1990"; "1995"]
                 [ (Some ".CA", [Some 29; Some 31]);
                   (Some ".NV", [Some 1; Some 2]) ]));
      ("data/pop_00-10.csv",
       PopCsv (pop_file "Unnamed: 0" ["2000"; "2005"]
                 [ (Some ".OR", [Some 3; Some 4]);
                   (Some ".CA", [Some 33; Some 35]) ]));
      ("data/pop_10-19.csv",
       PopCsv (pop_file "Unnamed: 0" ["2010"; "2015"]
                 [ (Some ".CA", [Some 37; Some 39]);
                   (Some ".WA", [Some 6; Some 7]) ])) ].

Definition pop_row (st cd yr : string) (p : Q) : PopRow :=
  {| p_state := st; p_code := cd; p_year := yr; p_pop := p |}.

(** three files each with the row ".CA", the first and the third with the
    same single column, the second with a column that is no year *)
Definition collide_disk : disk :=
  disk_of
    [ ("data/state_codes.csv", CodesCsv west_codes);
      ("data/pop_90-99.csv",
       PopCsv (pop_file "Unnamed: 0" ["2010"] [ (Some ".CA", [Some 37]) ]));
      ("data/pop_00-10.csv",
       PopCsv (pop_file "Unnamed: 0" ["census"] [ (Some ".CA", [Some 33]) ]));
      ("data/pop_10-19.csv",
       PopCsv (pop_file "Unnamed: 0" ["2010"] [ (Some ".CA", [Some 38]) ])) ].


(** ** Vocabulary for the properties of the loaders *)

Definition first_char (s : string) : option ascii :=
  match s with
  | EmptyString => None
  | String c _ => Some c
  end.

Fixpoint last_char (s : string) : option ascii :=
  match s with
  | EmptyString => None
  | String c EmptyString => Some c
  | String _ s' => last_char s'
  end.

(** neither the first nor the last character of [s] is one of [chars] *)
Definition trimmed (chars s : string) : bool :=
  match first_char s with Some c => negb (Str.mem_char c chars) | None => true end
  && match last_char s with Some c => negb (Str.mem_char c chars) | None => true end.

(** the names under which the first column of a census file becomes, or
    is, the [state] column *)
Definition state_column_names : list string := ["unnamed: 0"; "geography"; "state"].


(** the key of a generation row and of an emission row in the join of
    line 214 *)
Definition gen_key (g : GenRow) : string * Z * string :=
  (g_state g, g_year g, g_src g).
Definition emi_key (m : EmiRow) : string * Z * string :=
  (m_state m, m_year m, m_src m).

(** the key of a population row and of a legislature row in the join of
    line 243 *)
Definition pop_key (p : PopRow) : string * string * string :=
  (p_state p, p_code p, p_year p).
Definition pol_key (l : PolRow) : string * string * string :=
  (l_state l, l_code l, l_year l).

(** the row [merge_eng] makes of a generation row with no emission row *)
Definition unmatched_eng (g : GenRow) : EngRow :=
  {| e_code := g_state g; e_year := g_year g; e_src := g_src g;
     e_gen_mwh := fillna0 (g_gen_mwh g); e_renew := g_renew g;
     e_co2_tons := 0; e_so2_tons := 0; e_nox_tons := 0 |}.

Definition gen_row (st : string) (y : Z) (s : string) (g : option Q) : GenRow :=
  {| g_state := st; g_year := y; g_src := s; g_gen_mwh := g;
     g_renew := renew_of s |}.

Definition emi_row (st : string) (y : Z) (s : string) (c : option Q) : EmiRow :=
  {| m_state := st; m_year := y; m_src := s; m_co2_tons := c;
     m_so2_tons := None; m_nox_tons := None |}.

Definition sample_gen_rows : list GenRow :=
  [ gen_row "AL" 1990 "Coal" (Some 50); gen_row "AL" 1990 "Wind" None ].

Definition sample_emi_rows : list EmiRow :=
  [ emi_row "AL" 1990 "Coal" (Some 100); emi_row "CA" 1990 "Coal" (Some 7) ].


(** the row line 243 makes of a population row with no legislature row *)
Definition unmatched_data (p : PopRow) : DataRow string :=
  {| d_state := p_state p; d_code := p_code p; d_year := p_year p;
     d_pop := p_pop p; d_pol := None |}.

Definition pol_row (st cd yr v : string) : PolRow :=
  {| l_state := st; l_code := cd; l_year := yr; l_pol := v |}.

Definition sample_pop_rows : list PopRow :=
  [ pop_row "Alabama" "AL" "1990" 40; pop_row "Alabama" "AL" "1995" 42 ].

Definition sample_pol_rows : list PolRow :=
  [ pol_row "Alabama" "AL" "1990" "Dem"; pol_row "Alabama" "AL" "2000" "Rep" ].

(** the key of a population row in the join of line 250 *)
Definition data_key (d : DataRow Z) : Z * string := (d_year d, d_code d).


Definition is_digit (c : ascii) : bool :=
  match digit_of c with Some _ => true | None => false end.

(** a label of four decimal digits, as a year is written *)
Definition four_digits (s : string) : bool :=
  match s with
  | String a (String b (String c (String d EmptyString))) =>
      is_digit a && is_digit b && is_digit c && is_digit d
  | _ => false
  end.

(** the sample files, the second census file with a column "base" *)
Definition base_disk : disk :=
  disk_of [ ("data/state_codes.csv", CodesCsv sample_codes);
            ("data/pop_90-99.csv", PopCsv sample_pop_90);
            ("data/pop_00-10.csv",
             PopCsv (pop_file "Unnamed: 0" ["2000"; "base"]
                       [ (Some ".Alabama", [Some 44; Some 2]);
                         (Some ".California", [Some 340; Some 10]) ]));
            ("data/pop_10-19.csv", PopCsv sample_pop_10);
            ("data/leg_90-19.csv", LegCsv sample_leg);
            ("data/generation_annual.csv", GenCsv sample_gen);
            ("data/emission_annual.csv", EmiCsv sample_emi) ].


(** the sample files with a generation file whose two rows of one state
    and year cancel *)
Definition zero_disk : disk :=
  disk_of [ ("data/state_codes.csv", CodesCsv sample_codes);
            ("data/pop_90-99.csv", PopCsv sample_pop_90);
            ("data/pop_00-10.csv", PopCsv sample_pop_00);
            ("data/pop_10-19.csv", PopCsv sample_pop_10);
            ("data/leg_90-19.csv", LegCsv sample_leg);
            ("data/generation_annual.csv",
             GenCsv [ gen_raw 1990 "AL" TOTAL_INDUSTRY "Coal" (Some 5);
                      gen_raw 1990 "AL" TOTAL_INDUSTRY "Pumped Storage"
                              (Some (-5 # 1)) ]);
            ("data/emission_annual.csv", EmiCsv sample_emi) ].


(** ** Lines 257 and 263 in binary64

    The shares of one (year, code) group as the machine computes them:
    [sum_gen_mwh] is the float sum of the group's [gen_mwh], and
    [gen_mwh_pct] the float quotient of each [gen_mwh] by it. *)

Definition sum_f64 (col : list float) : float :=
  fold_left PrimFloat.add col 0%float.

Definition gen_mwh_pct_f64 (gen_mwh : list float) : list float :=
  map (fun g => PrimFloat.div g (sum_f64 gen_mwh)) gen_mwh.

(** a number of a file as the float it is read as: the quotient of two
    whole numbers, exact when both are below 2^53 and the one divides the
    other *)
Definition float_of_Z (z : Z) : float :=
  match z with
  | Z0 => 0%float
  | Zpos _ => PrimFloat.of_uint63 (Uint63.of_Z z)
  | Zneg p => PrimFloat.opp (PrimFloat.of_uint63 (Uint63.of_Z (Zpos p)))
  end.

Definition float_of_Q (q : Q) : float :=
  PrimFloat.div (float_of_Z (Qnum q)) (float_of_Z (Zpos (Qden q))).

(** a group whose generation nearly cancels; every partial sum of the
    three values is a whole number below 2^53, so their sum is exact in
    whatever order it is taken *)
Definition cancelling_gen_mwh : list float :=
  [1000000000000001; -1000000000000000; 2]%float.

(** the sample files with a generation file that holds this group *)
Definition cancel_disk : disk :=
  disk_of [ ("data/state_codes.csv", CodesCsv sample_codes);
            ("data/pop_90-99.csv", PopCsv sample_pop_90);
            ("data/pop_00-10.csv", PopCsv sample_pop_00);
            ("data/pop_10-19.csv", PopCsv sample_pop_10);
            ("data/leg_90-19.csv", LegCsv sample_leg);
            ("data/generation_annual.csv",
             GenCsv [ gen_raw 1990 "AL" TOTAL_INDUSTRY "Coal"
                              (Some 1000000000000001);
                      gen_raw 1990 "AL" TOTAL_INDUSTRY "Pumped Storage"
                              (Some (-1000000000000000 # 1));
                      gen_raw 1990 "AL" TOTAL_INDUSTRY "Wind" (Some 2) ]);
            ("data/emission_annual.csv", EmiCsv sample_emi) ].


(** * Properties *)

(** the branch of a loader on a column that holds no text: the loader
    raises there, and goes on otherwise *)
Ltac case_text_column :=
  match goal with
  | |- context [if ?b then Err AttributeError else _] =>
      destruct b eqn:?; [try discriminate|]
  end.

(** ** Text *)

Lemma prefix_iff (p s : string) :
  prefix p s = true <-> exists rest, s = (p ++ rest)%string.
Proof.
  revert s; induction p as [|c p IH]; intros s.
  - destruct s; simpl; split; eauto.
  - destruct s as [|d s]; simpl.
    + split; [discriminate | intros [rest H]; discriminate].
    + destruct (ascii_dec c d) as [->|Hne].
      * rewrite IH. split; intros [rest H]; exists rest.
        -- now rewrite H.
        -- now injection H.
      * split; [discriminate | intros [rest H]; injection H; congruence].
Qed.

(** [Str.contains] is the substring test. *)
Lemma contains_iff (needle hay : string) :
  Str.contains needle hay = true <-> exists a b, hay = (a ++ needle ++ b)%string.
Proof.
  induction hay as [|c hay IH].
  - cbn [Str.contains]. rewrite orb_false_r, prefix_iff. split.
    + intros [rest H]. exists "", rest. exact H.
    + intros [a [b H]]. destruct a; [exists b; exact H | discriminate].
  - cbn [Str.contains]. rewrite orb_true_iff, prefix_iff, IH. split.
    + intros [[rest H] | [a [b H]]].
      * exists "", rest. exact H.
      * exists (String c a), b. simpl. now rewrite H.
    + intros [a [b H]]. destruct a as [|d a].
      * left. exists b. exact H.
      * right. exists a, b. simpl in H. now injection H.
Qed.

Lemma upper_char_idem (c : ascii) :
  Str.upper_char (Str.upper_char c) = Str.upper_char c.
Proof. destruct c as [[] [] [] [] [] [] [] []]; reflexivity. Qed.

Lemma upper_idem (s : string) : Str.upper (Str.upper s) = Str.upper s.
Proof.
  unfold Str.upper.
  induction s as [|c s IH]; cbn [Str.smap]; [reflexivity|].
  now rewrite upper_char_idem, IH.
Qed.

(** ** load_clean_eng *)

(** C10: a file name with neither "generation" nor "emission" in it makes
    [load_clean_eng] fail, and with the unbound-variable error of line 185
    whenever the file can be read; a name with "generation" in it takes
    the generation branch, whether or not it has "emission" in it too. *)
Theorem load_clean_eng_dispatch (fs : disk) (filename : string) :
  (Str.contains "generation" filename = false ->
   Str.contains "emission" filename = false ->
   is_err (load_clean_eng fs filename) = true /\
   (forall df, fs filename = Some df ->
               load_clean_eng fs filename = Err UnboundLocalError)) /\
  (Str.contains "generation" filename = true ->
   load_clean_eng fs filename = (df <- read_csv fs filename ;; generation_branch df)).
Proof.
  unfold load_clean_eng, read_csv. split.
  - intros Hg He. rewrite Hg, He. split.
    + destruct (fs filename); reflexivity.
    + intros df ->. reflexivity.
  - intros Hg. rewrite Hg. reflexivity.
Qed.

Lemma load_clean_eng_dispatch_witness :
  (is_err (load_clean_eng sample_disk "data/state_codes.csv") = true /\
   load_clean_eng sample_disk "data/state_codes.csv" = Err UnboundLocalError) /\
  load_clean_eng sample_disk "data/generation_emission.csv"
  = Ok (GenClean (clean_generation sample_gen)).
Proof.
  split.
  - destruct (proj1 (load_clean_eng_dispatch sample_disk "data/state_codes.csv")
                eq_refl eq_refl) as [H1 H2].
    split; [exact H1 | exact (H2 (CodesCsv sample_codes) eq_refl)].
  - exact (proj2 (load_clean_eng_dispatch sample_disk "data/generation_emission.csv")
             eq_refl).
Defined.

(** ** Joins *)

Section JoinFacts.

Context {L R : Type}.
Variable on : L -> R -> bool.

Lemma filter_nil_iff {A : Type} (p : A -> bool) (l : list A) :
  filter p l = [] <-> forall x, In x l -> p x = false.
Proof.
  induction l as [|a l IH]; simpl.
  - split; [intros _ x [] | reflexivity].
  - destruct (p a) eqn:Ha.
    + split; [discriminate|]. intros H. specialize (H a (or_introl eq_refl)).
      congruence.
    + rewrite IH. split.
      * intros H x [<-|Hx]; auto.
      * intros H x Hx. apply H. now right.
Qed.

Lemma in_merge_inner (l : L) (r : R) (left : list L) (right : list R) :
  In (l, r) (merge_inner on left right) <->
  In l left /\ In r right /\ on l r = true.
Proof.
  unfold merge_inner. rewrite in_flat_map. split.
  - intros [l' [Hl H]]. apply in_map_iff in H. destruct H as [r' [E Hr]].
    injection E as <- <-. apply filter_In in Hr. tauto.
  - intros [Hl [Hr Ho]]. exists l. split; [exact Hl|].
    apply in_map. apply filter_In. tauto.
Qed.

Lemma in_merge_left (l : L) (o : option R) (left : list L) (right : list R) :
  In (l, o) (merge_left on left right) <->
  In l left /\
  match o with
  | Some r => In r right /\ on l r = true
  | None => forall r, In r right -> on l r = false
  end.
Proof.
  unfold merge_left. rewrite in_flat_map. split.
  - intros [l' [Hl H]]. destruct (filter (on l') right) as [|r0 ms] eqn:E.
    + destruct H as [H|[]]. injection H as <- <-. split; [exact Hl|].
      now apply filter_nil_iff.
    + apply in_map_iff in H. destruct H as [r [H Hr]]. injection H as <- <-.
      split; [exact Hl|]. rewrite <- E in Hr. apply filter_In in Hr. exact Hr.
  - intros [Hl H]. exists l. split; [exact Hl|]. destruct o as [r|].
    + assert (Hr : In r (filter (on l) right)) by (apply filter_In; exact H).
      destruct (filter (on l) right) as [|r0 ms]; [destruct Hr|].
      apply in_map_iff. exists r. split; [reflexivity | exact Hr].
    + apply filter_nil_iff in H. rewrite H. now left.
Qed.

Lemma in_merge_right (o : option L) (r : R) (left : list L) (right : list R) :
  In (o, r) (merge_right on left right) <->
  In r right /\
  match o with
  | Some l => In l left /\ on l r = true
  | None => forall l, In l left -> on l r = false
  end.
Proof.
  unfold merge_right. rewrite in_flat_map. split.
  - intros [r' [Hr H]].
    destruct (filter (fun l => on l r') left) as [|l0 ms] eqn:E.
    + destruct H as [H|[]]. injection H as <- <-. split; [exact Hr|].
      intros l Hl. exact (proj1 (filter_nil_iff _ _) E l Hl).
    + apply in_map_iff in H. destruct H as [l [H Hl]]. injection H as <- <-.
      split; [exact Hr|]. rewrite <- E in Hl. apply filter_In in Hl. exact Hl.
  - intros [Hr H]. exists r. split; [exact Hr|]. destruct o as [l|].
    + assert (Hl : In l (filter (fun l => on l r) left))
        by (apply filter_In; exact H).
      destruct (filter (fun l => on l r) left) as [|l0 ms]; [destruct Hl|].
      apply in_map_iff. exists l. split; [reflexivity | exact Hl].
    + assert (E : filter (fun l => on l r) left = [])
        by (apply filter_nil_iff; exact H).
      rewrite E. now left.
Qed.

End JoinFacts.

(** ** build_eng *)

Lemma drop_totals_filter (t : list EngRow) :
  drop_totals t = filter (fun r => negb (mem_str (e_code r) dropped_states)) t.
Proof.
  unfold drop_totals, mem_str, dropped_states.
  induction t as [|r t IH]; [reflexivity|].
  cbn [filter existsb].
  destruct (String.eqb (e_code r) "US-Total"); cbn [negb orb filter];
    [exact IH|].
  destruct (String.eqb (e_code r) "US-TOTAL"); cbn [negb orb filter];
    [exact IH|].
  destruct (String.eqb (e_code r) "  "); cbn [negb orb filter];
    [exact IH|].
  destruct (String.eqb (e_code r) "DC"); cbn [negb orb filter];
    [exact IH|].
  f_equal. exact IH.
Qed.

Lemma mem_str_iff (c : string) (cols : list string) :
  mem_str c cols = true <-> In c cols.
Proof.
  unfold mem_str. rewrite existsb_exists. split.
  - intros [x [Hx E]]. apply String.eqb_eq in E. now subst.
  - intros H. exists c. split; [exact H | apply String.eqb_refl].
Qed.

Lemma in_drop_totals (r : EngRow) (t : list EngRow) :
  In r (drop_totals t) <-> In r t /\ ~ In (e_code r) dropped_states.
Proof.
  rewrite drop_totals_filter, filter_In, negb_true_iff, <- mem_str_iff.
  destruct (mem_str (e_code r) dropped_states); intuition congruence.
Qed.

(** C6, as the code has it: the table [build_eng] returns is the
    left-joined, zero-filled energy table without the rows whose state is
    "US-Total", "US-TOTAL", the two-space string or "DC"; every other row
    stays, in order. *)
Theorem build_eng_rows (fs : disk) (g : list GenRow) (m : list EmiRow) :
  load_clean_eng fs "data/generation_annual.csv" = Ok (GenClean g) ->
  load_clean_eng fs "data/emission_annual.csv" = Ok (EmiClean m) ->
  build_eng fs
  = Ok (filter (fun r => negb (mem_str (e_code r) dropped_states)) (merge_eng g m)) /\
  forall r, In r (rows_of (build_eng fs)) <->
            In r (merge_eng g m) /\
            e_code r <> "US-Total" /\ e_code r <> "US-TOTAL" /\
            e_code r <> "  " /\ e_code r <> "DC".
Proof.
  intros Hg Hm.
  assert (E : build_eng fs = Ok (drop_totals (merge_eng g m))).
  { unfold build_eng. cbn [nth ENG]. rewrite Hg, Hm. reflexivity. }
  rewrite E. split.
  - now rewrite drop_totals_filter.
  - intros r. cbn [rows_of]. rewrite in_drop_totals.
    unfold dropped_states. cbn [In]. intuition congruence.
Qed.

Lemma build_eng_rows_witness :
  build_eng sample_disk
  = Ok (filter (fun r => negb (mem_str (e_code r) dropped_states))
               (merge_eng (clean_generation sample_gen) (clean_emission sample_emi))) /\
  (In (eng_row "PR" 1995 "Petroleum" 7 14) (rows_of (build_eng sample_disk)) <->
   In (eng_row "PR" 1995 "Petroleum" 7 14)
      (merge_eng (clean_generation sample_gen) (clean_emission sample_emi)) /\
   "PR" <> "US-Total" /\ "PR" <> "US-TOTAL" /\ "PR" <> "  " /\ "PR" <> "DC").
Proof.
  destruct (build_eng_rows sample_disk (clean_generation sample_gen)
              (clean_emission sample_emi) eq_refl eq_refl) as [H1 H2].
  split; [exact H1 | exact (H2 (eng_row "PR" 1995 "Petroleum" 7 14))].
Defined.

(** C6 as stated fails: a state made of one space is blank, and its row is
    in the table [build_eng] returns. *)
Lemma build_eng_keeps_blank_state :
  exists r, In r (rows_of (build_eng sample_disk)) /\
            e_code r = " " /\ Str.is_blank (e_code r) = true.
Proof.
  exists (nth 4 (rows_of (build_eng sample_disk)) (eng_row "" 0 "" 0 0)).
  vm_compute. intuition.
Qed.

(** ** The right join of line 250 *)

Lemma on_year_code_iff (d : DataRow Z) (e : EngRow) :
  on_year_code d e = true <-> d_year d = e_year e /\ d_code d = e_code e.
Proof.
  unfold on_year_code. now rewrite andb_true_iff, Z.eqb_eq, String.eqb_eq.
Qed.

Lemma in_join_eng (j : Joined) (data : list (DataRow Z)) (eng_df : list EngRow) :
  In j (join_eng data eng_df) <->
  In (j_eng j) eng_df /\
  ((exists d, In d data /\ on_year_code d (j_eng j) = true /\
              j_state j = Some (d_state d) /\ j_pop j = Some (d_pop d) /\
              j_pol j = d_pol d) \/
   ((forall d, In d data -> on_year_code d (j_eng j) = false) /\
    j_state j = None /\ j_pop j = None /\ j_pol j = None)).
Proof.
  unfold join_eng. rewrite in_map_iff. split.
  - intros [[o e] [<- H]]. apply in_merge_right in H. destruct H as [He H].
    destruct o as [d|]; cbn.
    + split; [exact He|]. left. exists d. tauto.
    + split; [exact He|]. right. tauto.
  - intros [He [[d [Hd [Ho [Hs [Hp Hl]]]]] | [Hno [Hs [Hp Hl]]]]].
    + exists (Some d, j_eng j). split.
      * destruct j; cbn in *. now subst.
      * apply in_merge_right. tauto.
    + exists (None, j_eng j). split.
      * destruct j; cbn in *. now subst.
      * apply in_merge_right. tauto.
Qed.

Lemma assemble_joined (data : list (DataRow Z)) (eng_df : list EngRow) :
  map joined (assemble data eng_df) = join_eng data eng_df.
Proof.
  unfold assemble. rewrite !map_map. cbn. apply map_id.
Qed.

(** C2: the merge of line 250 is a right join, and the later lines keep
    its rows as they are.  Every row of the energy table is in the
    result: with the state, population and pol of each population row
    that has its (year, code), and once with state, population and pol
    missing when no population row has.  The result has no other row:
    each of its rows is an energy row with the columns of a population
    row of the same (year, code), or an energy row without partner and
    with these columns missing.  So a population row whose (year, code) is
    in no energy row has its key in no row of the result.  An energy row
    is there once for each of its partners, and once when it has none. *)
Theorem join_eng_right_join (data : list (DataRow Z)) (eng_df : list EngRow) :
  map joined (assemble data eng_df) = join_eng data eng_df /\
  (forall e, In e eng_df ->
     exists j, In j (join_eng data eng_df) /\ j_eng j = e) /\
  (forall e d, In e eng_df -> In d data ->
     d_year d = e_year e -> d_code d = e_code e ->
     In {| j_state := Some (d_state d); j_pop := Some (d_pop d);
           j_pol := d_pol d; j_eng := e |}
        (join_eng data eng_df)) /\
  (forall e, In e eng_df ->
     (forall d, In d data -> ~ (d_year d = e_year e /\ d_code d = e_code e)) ->
     In {| j_state := None; j_pop := None; j_pol := None; j_eng := e |}
        (join_eng data eng_df) /\
     forall j, In j (join_eng data eng_df) -> j_eng j = e ->
               j_pop j = None /\ j_pol j = None) /\
  (forall j, In j (join_eng data eng_df) ->
     In (j_eng j) eng_df /\
     ((exists d, In d data /\
                 d_year d = e_year (j_eng j) /\ d_code d = e_code (j_eng j) /\
                 j_state j = Some (d_state d) /\ j_pop j = Some (d_pop d) /\
                 j_pol j = d_pol d) \/
      ((forall d, In d data ->
                  ~ (d_year d = e_year (j_eng j) /\ d_code d = e_code (j_eng j))) /\
       j_state j = None /\ j_pop j = None /\ j_pol j = None))) /\
  (forall d, In d data ->
     (forall e, In e eng_df -> ~ (d_year d = e_year e /\ d_code d = e_code e)) ->
     forall j, In j (join_eng data eng_df) ->
               ~ (d_year d = e_year (j_eng j) /\ d_code d = e_code (j_eng j))) /\
  List.length (join_eng data eng_df)
  = list_sum (map (fun e => Nat.max 1 (List.length
                                         (filter (fun d => on_year_code d e) data)))
                  eng_df).
Proof.
  split; [apply assemble_joined|].
  split; [|split; [|split; [|split; [|split]]]].
  - intros e He.
    destruct (filter (fun d => on_year_code d e) data) as [|d ms] eqn:E.
    + exists {| j_state := None; j_pop := None; j_pol := None; j_eng := e |}.
      split; [|reflexivity]. apply in_join_eng. cbn. split; [exact He|].
      right. repeat split. now apply filter_nil_iff.
    + assert (Hd : In d (filter (fun d => on_year_code d e) data))
        by (rewrite E; now left).
      apply filter_In in Hd.
      exists (joined_of (Some d, e)). split; [|reflexivity].
      apply in_join_eng. cbn. split; [exact He|]. left. exists d. tauto.
  - intros e d He Hd Hy Hc. apply in_join_eng. cbn. split; [exact He|].
    left. exists d. split; [exact Hd|]. split; [|tauto].
    now apply on_year_code_iff.
  - intros e He Hno. split.
    + apply in_join_eng. cbn. split; [assumption|]. right. repeat split.
      intros d Hd. destruct (on_year_code d e) eqn:Ho; [|reflexivity].
      apply on_year_code_iff in Ho. exfalso. eapply Hno; eauto.
    + intros j Hj Ej. apply in_join_eng in Hj.
      destruct Hj as [_ [[d [Hd [Ho _]]] | Hj]]; [|tauto].
      rewrite Ej in Ho. apply on_year_code_iff in Ho. exfalso.
      eapply Hno; eauto.
  - intros j Hj. apply in_join_eng in Hj. destruct Hj as [He Hj].
    split; [exact He|].
    destruct Hj as [[d [Hd [Ho Hcols]]] | [Hno Hcols]].
    + left. exists d. apply on_year_code_iff in Ho. tauto.
    + right. split; [|exact Hcols]. intros d Hd Hk.
      apply on_year_code_iff in Hk. rewrite (Hno d Hd) in Hk. discriminate.
  - intros d Hd Hno j Hj. apply in_join_eng in Hj. destruct Hj as [He _].
    exact (Hno _ He).
  - unfold join_eng, merge_right. rewrite length_map.
    induction eng_df as [|e eng_df IH]; [reflexivity|].
    cbn [flat_map]. rewrite length_app, IH, map_cons.
    unfold list_sum. cbn [fold_right].
    destruct (filter (fun d => on_year_code d e) data) as [|d ms];
      [|rewrite length_map]; cbn [List.length]; lia.
Qed.

Lemma join_eng_right_join_witness :
  In {| j_state := Some "Alabama"; j_pop := Some 40; j_pol := Some "Dem";
        j_eng := eng_row "AL" 1990 "Coal" 50 100 |}
     (join_eng sample_data sample_eng) /\
  In {| j_state := None; j_pop := None; j_pol := None;
        j_eng := eng_row "PR" 1995 "Petroleum" 7 14 |}
     (join_eng sample_data sample_eng) /\
  (forall j, In j (join_eng sample_data sample_eng) ->
             ~ (1990%Z = e_year (j_eng j) /\ "TX" = e_code (j_eng j))).
Proof.
  destruct (join_eng_right_join sample_data sample_eng)
    as [_ [_ [H2 [H3 [_ [H5 _]]]]]].
  split; [|split].
  - apply (H2 (eng_row "AL" 1990 "Coal" 50 100)
              (data_row "Alabama" "AL" 1990 40 (Some "Dem")));
      cbn; auto.
  - apply H3.
    + cbn. auto.
    + intros d [<-|[<-|[<-|[]]]]; cbn; intros [? ?]; discriminate.
  - apply (H5 (data_row "Texas" "TX" 1990 170 (Some "Rep"))).
    + cbn. auto.
    + intros e [<-|[<-|[<-|[]]]]; cbn; intros [? ?]; discriminate.
Defined.

(** ** The per-state forward fill *)

Section UniqueFacts.

Context {K : Type}.
Variable eqb : K -> K -> bool.
Hypothesis eqb_spec : forall x y, eqb x y = true <-> x = y.

Lemma in_unique (x : K) (l : list K) : In x (unique eqb l) <-> In x l.
Proof.
  induction l as [|a l IH]; [reflexivity|]. cbn [unique In].
  rewrite filter_In, IH, negb_true_iff. split.
  - tauto.
  - intros [->|H]; [now left|].
    destruct (eqb a x) eqn:E.
    + left. now apply eqb_spec.
    + right. now split.
Qed.

Lemma NoDup_filter {A : Type} (p : A -> bool) (l : list A) :
  NoDup l -> NoDup (filter p l).
Proof.
  induction 1 as [|a l Ha Hl IH]; cbn; [constructor|].
  destruct (p a); [constructor|]; auto.
  intros H. apply filter_In in H. tauto.
Qed.

Lemma NoDup_unique (l : list K) : NoDup (unique eqb l).
Proof.
  induction l as [|a l IH]; cbn [unique]; constructor.
  - intros H. apply filter_In in H. destruct H as [_ H].
    apply negb_true_iff in H.
    assert (eqb a a = true) by now apply eqb_spec. congruence.
  - now apply NoDup_filter.
Qed.

End UniqueFacts.

Lemma set_pol_same (r : DataRow Z) : set_pol r (d_pol r) = r.
Proof. now destruct r. Qed.

(** the loop body, written with masks, is the one-pass fill of one state *)
Lemma loc_set_ffill (st : string) (prev : option string) (data : list (DataRow Z)) :
  loc_set (map (fun r => String.eqb (d_code r) st) data)
          (ffill prev (loc_get (map (fun r => String.eqb (d_code r) st) data) data))
          data
  = fill_one st prev data.
Proof.
  revert prev; induction data as [|r data IH]; intros prev; [reflexivity|].
  cbn [map loc_get loc_set fill_one].
  destruct (String.eqb (d_code r) st).
  - destruct (d_pol r) as [v|]; cbn [ffill]; now rewrite IH.
  - now rewrite IH.
Qed.

Lemma fill_state_one (data : list (DataRow Z)) (st : string) :
  fill_state data st = fill_one st None data.
Proof. apply loc_set_ffill. Qed.

(** the loop over a list of states, each started from what [seen] holds *)
Lemma fold_fill_ext (cs : list string) (seen seen' : string -> option string)
  (data : list (DataRow Z)) :
  (forall c, In c cs -> seen c = seen' c) ->
  fold_left (fun d st => fill_one st (seen st) d) cs data
  = fold_left (fun d st => fill_one st (seen' st) d) cs data.
Proof.
  revert data; induction cs as [|c cs IH]; intros data H; [reflexivity|].
  cbn [fold_left]. rewrite (H c (or_introl eq_refl)). apply IH.
  intros c' Hc'. apply H. now right.
Qed.

Lemma fold_fill_nil (cs : list string) (seen : string -> option string) :
  fold_left (fun d st => fill_one st (seen st) d) cs [] = [].
Proof. induction cs as [|c cs IH]; [reflexivity | exact IH]. Qed.

Lemma fold_fill_cons (cs : list string) (seen : string -> option string)
  (r : DataRow Z) (data : list (DataRow Z)) :
  NoDup cs ->
  fold_left (fun d st => fill_one st (seen st) d) cs (r :: data)
  = if mem_str (d_code r) cs then
      let v := match d_pol r with Some v => Some v | None => seen (d_code r) end in
      set_pol r v
      :: fold_left (fun d st => fill_one st (remember seen (d_code r) v st) d) cs data
    else r :: fold_left (fun d st => fill_one st (seen st) d) cs data.
Proof.
  intros Hnd; revert seen r data.
  induction Hnd as [|c cs Hc Hnd IH]; intros seen r data; [reflexivity|].
  cbn [fold_left fill_one mem_str existsb].
  destruct (String.eqb (d_code r) c) eqn:E.
  - apply String.eqb_eq in E. subst c. cbn [orb]. cbv zeta.
    rewrite IH. cbn [set_pol d_code].
    replace (mem_str (d_code r) cs) with false.
    2:{ symmetry. destruct (mem_str (d_code r) cs) eqn:M; [|reflexivity].
        apply mem_str_iff in M. contradiction. }
    f_equal. unfold remember at 2. rewrite String.eqb_refl.
    apply fold_fill_ext. intros c' Hc'. unfold remember.
    destruct (String.eqb c' (d_code r)) eqn:E'; [|reflexivity].
    apply String.eqb_eq in E'. subst c'. contradiction.
  - cbn [orb]. rewrite IH. unfold mem_str.
    destruct (existsb (String.eqb (d_code r)) cs); cbv zeta.
    + assert (Hc' : forall v, remember seen (d_code r) v c = seen c).
      { intros v. unfold remember. now rewrite String.eqb_sym, E. }
      now rewrite Hc'.
    + reflexivity.
Qed.

Lemma fill_in_order_ext (seen seen' : string -> option string)
  (data : list (DataRow Z)) :
  (forall c, seen c = seen' c) ->
  fill_in_order seen data = fill_in_order seen' data.
Proof.
  revert seen seen'; induction data as [|r data IH]; intros seen seen' H;
    [reflexivity|].
  cbn [fill_in_order]. destruct (d_pol r) as [v|].
  - f_equal. apply IH. intros c. unfold remember. now rewrite H.
  - rewrite H. f_equal. now apply IH.
Qed.

Lemma remember_same (seen : string -> option string) (st : string) :
  forall c, remember seen st (seen st) c = seen c.
Proof.
  intros c. unfold remember. destruct (String.eqb c st) eqn:E; [|reflexivity].
  apply String.eqb_eq in E. now subst.
Qed.

(** the loop over the states is the single pass in row order *)
Lemma fold_fill_in_order (cs : list string) (seen : string -> option string)
  (data : list (DataRow Z)) :
  NoDup cs ->
  (forall r, In r data -> In (d_code r) cs) ->
  fold_left (fun d st => fill_one st (seen st) d) cs data = fill_in_order seen data.
Proof.
  intros Hnd; revert seen; induction data as [|r data IH]; intros seen Hin.
  - apply fold_fill_nil.
  - rewrite fold_fill_cons by exact Hnd.
    replace (mem_str (d_code r) cs) with true
      by (symmetry; apply mem_str_iff, Hin; now left).
    cbv zeta. cbn [fill_in_order]. destruct (d_pol r) as [v|] eqn:E.
    + rewrite <- E at 1. rewrite set_pol_same. f_equal.
      apply IH. intros r' Hr'. apply Hin. now right.
    + f_equal. rewrite IH by (intros r' Hr'; apply Hin; now right).
      apply fill_in_order_ext, remember_same.
Qed.

Lemma ffill_per_state_in_order (data : list (DataRow Z)) :
  ffill_per_state data = fill_in_order (fun _ => None) data.
Proof.
  unfold ffill_per_state.
  rewrite <- (fold_fill_in_order (unique String.eqb (map d_code data))).
  - assert (H : forall cs d,
               fold_left fill_state cs d
               = fold_left (fun d st => fill_one st None d) cs d).
    { induction cs as [|c cs IH]; intros d; [reflexivity|].
      cbn [fold_left]. rewrite fill_state_one. apply IH. }
    apply H.
  - apply NoDup_unique, String.eqb_eq.
  - intros r Hr. apply in_unique; [apply String.eqb_eq|]. now apply in_map.
Qed.

Lemma fill_in_order_nth (seen : string -> option string)
  (data : list (DataRow Z)) (i : nat) :
  nth_error (fill_in_order seen data) i
  = option_map
      (fun r => match d_pol r with
                | Some _ => r
                | None => set_pol r (last_pol (seen (d_code r)) (d_code r)
                                              (firstn i data))
                end)
      (nth_error data i).
Proof.
  revert seen i; induction data as [|r data IH]; intros seen i.
  - now destruct i.
  - destruct i as [|i].
    + cbn [fill_in_order]. destruct (d_pol r) eqn:E; cbn; now rewrite E.
    + assert (Hstep : forall seen', 
                (forall c, seen' c
                           = if String.eqb (d_code r) c
                             then match d_pol r with
                                  | Some v => Some v
                                  | None => seen c
                                  end
                             else seen c) ->
                nth_error (fill_in_order seen' data) i
                = option_map
                    (fun r' => match d_pol r' with
                               | Some _ => r'
                               | None =>
                                   set_pol r' (last_pol (seen (d_code r')) (d_code r')
                                                        (firstn (S i) (r :: data)))
                               end)
                    (nth_error data i)).
      { intros seen' Hs. rewrite IH. destruct (nth_error data i) as [r'|];
          [|reflexivity].
        cbn [option_map firstn]. unfold last_pol at 2. cbn [fold_left].
        fold (last_pol (if String.eqb (d_code r) (d_code r')
                        then match d_pol r with
                             | Some v => Some v
                             | None => seen (d_code r')
                             end
                        else seen (d_code r')) (d_code r') (firstn i data)).
        now rewrite Hs. }
      cbn [fill_in_order nth_error]. destruct (d_pol r) as [v|] eqn:E.
      * cbn [nth_error]. apply Hstep. intros c. unfold remember.
        now rewrite String.eqb_sym.
      * cbn [nth_error]. apply Hstep. intros c.
        now destruct (String.eqb (d_code r) c).
Qed.

(** C3: row by row, the per-state fill keeps a [pol] that is present and
    replaces a missing one by the most recent non-missing [pol] of the
    earlier rows of the same state, which is missing again when there is
    none; on the three Alabama rows the 1994 value becomes "Republican". *)
Theorem ffill_per_state_rows :
  (forall (data : list (DataRow Z)) (i : nat),
     nth_error (ffill_per_state data) i
     = option_map
         (fun r => match d_pol r with
                   | Some _ => r
                   | None => set_pol r (last_pol None (d_code r) (firstn i data))
                   end)
         (nth_error data i)) /\
  map (fun r => (d_year r, d_pol r)) (ffill_per_state legislature_scenario)
  = [ (1992%Z, Some "Republican"); (1994%Z, Some "Republican");
      (1996%Z, Some "Democrat") ].
Proof.
  split.
  - intros data i. rewrite ffill_per_state_in_order. apply fill_in_order_nth.
  - reflexivity.
Qed.

Lemma fill_in_order_idem (seen : string -> option string)
  (data : list (DataRow Z)) :
  fill_in_order seen (fill_in_order seen data) = fill_in_order seen data.
Proof.
  revert seen; induction data as [|r data IH]; intros seen; [reflexivity|].
  cbn [fill_in_order]. destruct (d_pol r) as [v|] eqn:E.
  - cbn [fill_in_order]. rewrite E. now rewrite IH.
  - cbn [fill_in_order set_pol d_pol d_code].
    destruct (seen (d_code r)) as [w|] eqn:S.
    + f_equal. rewrite <- (IH seen) at 2. apply fill_in_order_ext.
      intros c. rewrite <- S. apply remember_same.
    + cbn [set_pol d_state d_code d_year d_pop]. now rewrite IH.
Qed.

(** C9: the per-state fill applied twice gives what it gives applied
    once. *)
Theorem ffill_per_state_idempotent (data : list (DataRow Z)) :
  ffill_per_state (ffill_per_state data) = ffill_per_state data.
Proof.
  rewrite !ffill_per_state_in_order. apply fill_in_order_idem.
Qed.

(** ** The assembled table *)

Lemma assemble_per_capita (data : list (DataRow Z)) (eng_df : list EngRow)
  (r : FullRow) :
  In r (assemble data eng_df) ->
  In (joined r) (join_eng data eng_df) /\ sh_row (shares r) = per_capita (joined r).
Proof.
  unfold assemble. rewrite !map_map. intros H. apply in_map_iff in H.
  destruct H as [j [<- Hj]]. cbn. tauto.
Qed.

(** what [build_full] returns, when it returns *)
Lemma build_full_cases (fs : disk) :
  rows_of (build_full fs) = [] \/
  exists eng_df pop pol data,
    build_eng fs = Ok eng_df /\ build_pop fs POPS = Ok pop /\
    load_clean_pol fs LEG = Ok pol /\
    astype_int (merge_pop_pol pop pol) = Ok data /\
    build_full fs = Ok (assemble (ffill_per_state data) eng_df).
Proof.
  unfold build_full.
  destruct (build_eng fs) as [eng_df|]; [|now left].
  destruct (build_pop fs POPS) as [pop|]; [|now left].
  destruct (load_clean_pol fs LEG) as [pol|]; [|now left].
  cbn [bind].
  destruct (astype_int (merge_pop_pol pop pol)) as [data|] eqn:E; [|now left].
  right. exists eng_df, pop, pol, data. cbn [bind]. tauto.
Qed.

Lemma in_build_full (fs : disk) (r : FullRow) :
  In r (rows_of (build_full fs)) ->
  exists eng_df pop pol data,
    build_eng fs = Ok eng_df /\ build_pop fs POPS = Ok pop /\
    load_clean_pol fs LEG = Ok pol /\
    astype_int (merge_pop_pol pop pol) = Ok data /\
    rows_of (build_full fs) = assemble (ffill_per_state data) eng_df /\
    In r (assemble (ffill_per_state data) eng_df).
Proof.
  intros H. destruct (build_full_cases fs) as [E | [e [p [l [d [H1 [H2 [H3 [H4 H5]]]]]]]]].
  - rewrite E in H. destruct H.
  - exists e, p, l, d. rewrite H5 in H |- *. cbn [rows_of] in *. tauto.
Qed.

Lemma Qeq_bool_pos (p : Q) : 0 < p -> Qeq_bool p 0 = false.
Proof.
  intros H. destruct (Qeq_bool p 0) eqn:E; [|reflexivity].
  apply Qeq_bool_iff in E. rewrite E in H. now apply Qlt_irrefl in H.
Qed.

(** C7: in a row of the returned table whose population is present and
    positive, [co2_pp] is [co2_tons] over the population and [mwh_pp] is
    [gen_mwh] over the population; where the population is missing,
    [co2_pp] is missing. *)
Theorem build_full_per_capita (fs : disk) (r : FullRow) :
  In r (rows_of (build_full fs)) ->
  (forall p, pop r = Some p -> 0 < p ->
             co2_pp r = Fin (co2_tons r / p) /\ mwh_pp r = Fin (gen_mwh r / p)) /\
  (pop r = None -> co2_pp r = NaN).
Proof.
  intros H. apply in_build_full in H.
  destruct H as [e [p0 [l [d [_ [_ [_ [_ [_ H]]]]]]]]].
  apply assemble_per_capita in H. destruct H as [_ H].
  unfold co2_pp, mwh_pp, co2_tons, gen_mwh, pop. rewrite H.
  unfold joined. rewrite H. cbn [per_capita pc_row pc_co2_pp pc_mwh_pp]. split.
  - intros p Hp Hpos. rewrite Hp. cbn [of_cell fdiv].
    now rewrite (Qeq_bool_pos p Hpos).
  - intros Hp. rewrite Hp. reflexivity.
Qed.

Lemma build_full_per_capita_witness :
  exists r, In r (rows_of (build_full sample_disk)) /\
            co2_pp r = Fin (100 / 40) /\ mwh_pp r = Fin (50 / 40).
Proof.
  eexists. split; [vm_compute; left; reflexivity|].
  match goal with
  | |- co2_pp ?r = _ /\ _ =>
      refine (proj1 (build_full_per_capita sample_disk r _) 40 eq_refl eq_refl)
  end.
  vm_compute. left. reflexivity.
Defined.

(** ** Sorting and grouping *)

Section SortFacts.

Context {K : Type}.
Variable leb : K -> K -> bool.

Lemma insert_perm (x : K) (l : list K) : Permutation (insert leb x l) (x :: l).
Proof.
  induction l as [|y l IH]; cbn [insert]; [reflexivity|].
  destruct (leb x y); [reflexivity|].
  rewrite IH. apply perm_swap.
Qed.

Lemma sort_perm (l : list K) : Permutation (sort leb l) l.
Proof.
  induction l as [|x l IH]; cbn [sort]; [reflexivity|].
  rewrite insert_perm. now constructor.
Qed.

Lemma in_sort (x : K) (l : list K) : In x (sort leb l) <-> In x l.
Proof.
  split; apply Permutation_in; [|symmetry]; apply sort_perm.
Qed.

(** On a list where [leb] is total and transitive, the head of the
    sorted list is [leb] to every element. *)
Lemma sort_head (l : list K) (h : K) (t : list K) :
  (forall x y, In x l -> In y l -> leb x y = true \/ leb y x = true) ->
  (forall x y z, In x l -> In y l -> In z l ->
                 leb x y = true -> leb y z = true -> leb x z = true) ->
  sort leb l = h :: t ->
  forall x, In x l -> leb h x = true.
Proof.
  revert h t; induction l as [|a l IH]; intros h t Htot Htr E x Hx;
    [destruct Hx|].
  cbn [sort] in E.
  assert (Hrefl : leb a a = true)
    by (destruct (Htot a a (or_introl eq_refl) (or_introl eq_refl)); assumption).
  destruct (sort leb l) as [|h' t'] eqn:Es.
  - assert (l = []) as ->.
    { pose proof (sort_perm l) as P. rewrite Es in P.
      now apply Permutation_nil in P. }
    cbn in E. injection E as <- <-. destruct Hx as [<-|[]]. exact Hrefl.
  - assert (Hh' : In h' l).
    { apply in_sort. rewrite Es. now left. }
    assert (IH' : forall y, In y l -> leb h' y = true).
    { apply (IH h' t'); auto.
      - intros u v Hu Hv. apply Htot; now right.
      - intros u v w Hu Hv Hw. apply Htr; now right. }
    cbn [insert] in E. destruct (leb a h') eqn:El.
    + injection E as <- <-. destruct Hx as [<-|Hx]; [exact Hrefl|].
      apply (Htr a h' x); auto; try (now left); try (now right).
    + injection E as <- _. destruct Hx as [<-|Hx]; [|now apply IH'].
      destruct (Htot a h' (or_introl eq_refl) (or_intror Hh')); congruence.
Qed.

End SortFacts.

Section LookupFacts.

Context {K V : Type}.
Variable eqb : K -> K -> bool.
Hypothesis eqb_spec : forall x y, eqb x y = true <-> x = y.

Lemma lookup_keys (f : K -> V) (k : K) (keys : list K) :
  In k keys -> lookup eqb k (map (fun k' => (k', f k')) keys) = Some (f k).
Proof.
  induction keys as [|k' keys IH]; intros H; [destruct H|].
  cbn [map lookup]. destruct (eqb k' k) eqn:E.
  - apply eqb_spec in E. now subst.
  - destruct H as [->|H]; [|now apply IH].
    assert (eqb k k = true) by now apply eqb_spec. congruence.
Qed.

End LookupFacts.

Lemma key_eqb_iff (a b : Z * string) : key_eqb a b = true <-> a = b.
Proof.
  destruct a as [y c], b as [y' c']. unfold key_eqb. cbn [fst snd].
  rewrite andb_true_iff, Z.eqb_eq, String.eqb_eq. split.
  - now intros [-> ->].
  - intros H. now injection H.
Qed.

(** a group of [groupby], looked up by its key *)
Lemma lookup_groupby {A K V : Type} (eqb leb : K -> K -> bool)
  (key : A -> K) (f : list A -> V) (df : list A) (x : A) :
  (forall a b, eqb a b = true <-> a = b) ->
  In x df ->
  lookup eqb (key x) (map (fun g => (fst g, f (snd g))) (groupby eqb leb key df))
  = Some (f (filter (fun r => eqb (key r) (key x)) df)).
Proof.
  intros Heq Hx. unfold groupby. rewrite map_map. cbn [fst snd].
  apply (lookup_keys eqb Heq (fun k => f (filter (fun r => eqb (key r) k) df))).
  apply in_sort, in_unique; [exact Heq|]. now apply in_map.
Qed.

(** ** Sums *)

Lemma fsum_Fin {A : Type} (g : A -> Q) (l : list A) :
  fsum (map (fun r => Fin (g r)) l) = Fin (qsum (map g l)).
Proof.
  unfold fsum, qsum.
  assert (F : filter (fun x => negb (isna x)) (map (fun r => Fin (g r)) l)
              = map (fun r => Fin (g r)) l).
  { induction l as [|a l IH]; cbn; [reflexivity | now rewrite IH]. }
  rewrite F. clear F. generalize 0 as a. induction l as [|x l IH]; intros a;
    [reflexivity|].
  cbn [map fold_left fadd]. apply IH.
Qed.

Lemma filter_map_comm {A B : Type} (p : B -> bool) (f : A -> B) (l : list A) :
  filter p (map f l) = map f (filter (fun x => p (f x)) l).
Proof.
  induction l as [|a l IH]; cbn; [reflexivity|].
  destruct (p (f a)); cbn; now rewrite IH.
Qed.

(** the shares of the rows of one (year, code) group, in the table of
    lines 250 to 274 *)
Lemma assemble_group (data : list (DataRow Z)) (eng_df : list EngRow)
  (k : Z * string) :
  let pc := map per_capita (join_eng data eng_df) in
  let grp := filter (fun x => key_eqb (year_code x) k) pc in
  let s := qsum (map (fun x => e_gen_mwh (j_eng (pc_row x))) grp) in
  forall r, In r (filter (fun r => key_eqb (year r, code r) k)
                         (assemble data eng_df)) ->
            sum_gen_mwh r = Fin s /\
            gen_mwh_pct r = fdiv (Fin (gen_mwh r)) (Fin s).
Proof.
  intros pc grp s r Hr. apply filter_In in Hr. destruct Hr as [Hr Hk].
  unfold assemble in Hr. fold pc in Hr.
  apply in_map_iff in Hr. destruct Hr as [sh [<- Hsh]].
  apply in_map_iff in Hsh. destruct Hsh as [x [<- Hx]].
  unfold sum_gen_mwh, gen_mwh_pct, gen_mwh, year, code, joined in *.
  cbn [shares with_rank with_shares sh_row sh_sum_gen_mwh sh_gen_mwh_pct] in *.
  apply key_eqb_iff in Hk. fold (year_code x) in Hk.
  unfold sum_by_year_code.
  rewrite (lookup_groupby key_eqb key_leb year_code
             (fun g => (fsum (map (fun r => Fin (e_gen_mwh (j_eng (pc_row r)))) g),
                        fsum (map pc_mwh_pp g))) pc x key_eqb_iff Hx).
  cbn [fst snd]. rewrite fsum_Fin, Hk. fold grp. fold s. tauto.
Qed.

(** C8, as the code has it.  In the returned table, take the rows of one
    (year, code).  They all carry the same [sum_gen_mwh], the sum of
    their [gen_mwh], which is never missing, and the [gen_mwh_pct] of each
    is its [gen_mwh] divided by that sum. *)
Theorem build_full_shares (fs : disk) (r0 : FullRow) :
  In r0 (rows_of (build_full fs)) ->
  let group := filter (fun r => key_eqb (year r, code r) (year r0, code r0))
                      (rows_of (build_full fs)) in
  sum_gen_mwh r0 = fsum (map (fun r => Fin (gen_mwh r)) group) /\
  sum_gen_mwh r0 <> NaN /\
  forall r, In r group ->
            sum_gen_mwh r = sum_gen_mwh r0 /\
            gen_mwh_pct r = fdiv (Fin (gen_mwh r)) (sum_gen_mwh r0).
Proof.
  intros H0 group.
  destruct (in_build_full fs r0 H0) as [e [p [l [d [_ [_ [_ [_ [E H]]]]]]]]].
  subst group. rewrite E.
  set (k := (year r0, code r0)).
  set (T := assemble (ffill_per_state d) e) in *.
  pose proof (assemble_group (ffill_per_state d) e k) as G. cbv zeta in G.
  fold T in G.
  set (s := qsum _) in G.
  assert (H0' : In r0 (filter (fun r => key_eqb (year r, code r) k) T)).
  { apply filter_In. split; [exact H|]. now apply key_eqb_iff. }
  assert (Esum : qsum (map gen_mwh (filter (fun r => key_eqb (year r, code r) k) T))
                 = s).
  { subst s T. unfold assemble. rewrite !filter_map_comm, !map_map.
    reflexivity. }
  destruct (G r0 H0') as [S0 _]. rewrite S0, fsum_Fin, Esum.
  split; [reflexivity|]. split; [discriminate|].
  intros r Hr. destruct (G r Hr) as [S1 P1]. now rewrite S1, P1.
Qed.

Lemma build_full_shares_witness :
  exists r0,
    In r0 (rows_of (build_full sample_disk)) /\
    sum_gen_mwh r0
    = fsum (map (fun r => Fin (gen_mwh r))
                (filter (fun r => key_eqb (year r, code r) (year r0, code r0))
                        (rows_of (build_full sample_disk)))).
Proof.
  eexists. split; [vm_compute; left; reflexivity|].
  match goal with
  | |- sum_gen_mwh ?r0 = _ =>
      refine (proj1 (build_full_shares sample_disk r0 _))
  end.
  vm_compute. left. reflexivity.
Defined.

(** C8 as stated fails on the floats of the machine.  With a generation
    file whose rows for Alabama in 1990 have the values 10^15 + 1, -10^15
    and 2, the returned table has these three rows for (1990, AL), with
    the sum 3, neither zero nor missing.  In binary64 the three values and
    their sum are exact, the three shares are the quotients by 3, each
    rounded, and they add up to more than 1.03. *)
Lemma gen_mwh_pct_sum_above_one :
  let group := filter (fun r => key_eqb (year r, code r) (1990%Z, "AL"))
                      (rows_of (build_full cancel_disk)) in
  group = rows_of (build_full cancel_disk) /\
  map gen_mwh group = [1000000000000001; -1000000000000000 # 1; 2] /\
  map sum_gen_mwh group = [Fin 3; Fin 3; Fin 3] /\
  map float_of_Q (map gen_mwh group) = cancelling_gen_mwh /\
  sum_f64 cancelling_gen_mwh = 3%float /\
  gen_mwh_pct_f64 cancelling_gen_mwh
  = [333333333333333.6875; -333333333333333.3125; 0x1.5555555555555p-1]%float /\
  PrimFloat.ltb 1.03125 (sum_f64 (gen_mwh_pct_f64 cancelling_gen_mwh)) = true.
Proof.
  cbv zeta. do 6 (refine (conj _ _); [vm_compute; reflexivity|]).
  vm_compute. reflexivity.
Qed.

(** ** The ranking of the sources *)

Section RankFacts.

Context {K : Type}.
Variable eqb : K -> K -> bool.
Hypothesis eqb_spec : forall x y, eqb x y = true <-> x = y.

Lemma lookup_numbered_inv (a : nat) (ks : list K) (k : K) (v : Z) :
  lookup eqb k (numbered a ks) = Some v ->
  exists i, nth_error ks i = Some k /\ v = Z.of_nat (a + i).
Proof.
  revert a; induction ks as [|k' ks IH]; intros a H; [discriminate|].
  unfold numbered in H. cbn [List.length seq map combine lookup] in H.
  destruct (eqb k' k) eqn:E.
  - apply eqb_spec in E. subst k'. injection H as <-.
    exists 0%nat. split; [reflexivity | now rewrite Nat.add_0_r].
  - apply IH in H. destruct H as [i [Hi ->]]. exists (S i).
    split; [exact Hi | f_equal; lia].
Qed.

Lemma lookup_numbered (a : nat) (ks : list K) (k : K) (i : nat) :
  NoDup ks -> nth_error ks i = Some k ->
  lookup eqb k (numbered a ks) = Some (Z.of_nat (a + i)).
Proof.
  intros Hnd; revert a i; induction Hnd as [|k' ks Hk' Hnd IH]; intros a i H.
  - now destruct i.
  - unfold numbered. cbn [List.length seq map combine lookup].
    destruct i as [|i].
    + injection H as ->.
      assert (E : eqb k k = true) by now apply eqb_spec.
      rewrite E, Nat.add_0_r. reflexivity.
    + cbn [nth_error] in H. destruct (eqb k' k) eqn:E.
      * apply eqb_spec in E. subst k'. apply nth_error_In in H. contradiction.
      * fold (numbered (S a) ks). rewrite (IH (S a) i H). f_equal. f_equal. lia.
Qed.

End RankFacts.

Lemma fleb_total (x y : fnum) :
  isna x = false -> isna y = false -> fleb x y = true \/ fleb y x = true.
Proof.
  destruct x as [a| | |], y as [b| | |]; cbn; intros Hx Hy;
    try discriminate; auto.
  destruct (Qlt_le_dec b a) as [H|H].
  - right. apply Qle_bool_iff. now apply Qlt_le_weak.
  - left. now apply Qle_bool_iff.
Qed.

Lemma fleb_trans (x y z : fnum) :
  isna x = false -> isna y = false -> isna z = false ->
  fleb x y = true -> fleb y z = true -> fleb x z = true.
Proof.
  destruct x as [a| | |], y as [b| | |], z as [c| | |]; cbn;
    intros Hx Hy Hz H1 H2; try discriminate; auto.
  apply Qle_bool_iff in H1, H2. apply Qle_bool_iff. now apply Qle_trans with b.
Qed.

Lemma filter_split_perm {A : Type} (p : A -> bool) (l : list A) :
  Permutation (filter (fun a => negb (p a)) l ++ filter p l) l.
Proof.
  induction l as [|a l IH]; cbn; [constructor|].
  destruct (p a); cbn.
  - rewrite <- Permutation_middle. now constructor.
  - now constructor.
Qed.

Lemma sort_values_desc_perm (tbl : list (string * fnum)) :
  Permutation (sort_values_desc tbl) tbl.
Proof.
  unfold sort_values_desc. rewrite sort_perm.
  apply (filter_split_perm (fun a => isna (snd a))).
Qed.

(** the ratio line 269 computes for a source *)
Lemma co2_per_mwh_entry (data : list Shares) (e : string * fnum) :
  In e (co2_per_mwh data) ->
  In (fst e) (map src_of data) /\
  snd e = fdiv (fsum (map (fun r => Fin (e_co2_tons (j_eng (pc_row (sh_row r)))))
                          (filter (fun r => String.eqb (src_of r) (fst e)) data)))
               (fsum (map (fun r => Fin (e_gen_mwh (j_eng (pc_row (sh_row r)))))
                          (filter (fun r => String.eqb (src_of r) (fst e)) data))).
Proof.
  unfold co2_per_mwh, groupby. rewrite map_map. cbn [fst snd].
  intros H. apply in_map_iff in H. destruct H as [k [<- Hk]]. cbn [fst snd].
  split; [|reflexivity].
  apply in_sort in Hk. apply in_unique in Hk; [exact Hk | apply String.eqb_eq].
Qed.

Lemma co2_per_mwh_keys (data : list Shares) :
  map fst (co2_per_mwh data)
  = sort String.leb (unique String.eqb (map src_of data)).
Proof.
  unfold co2_per_mwh, groupby. rewrite !map_map. cbn [fst]. apply map_id.
Qed.

Lemma rank_sources_numbered (data : list Shares) :
  rank_sources data = numbered 1 (map fst (sort_values_desc (co2_per_mwh data))).
Proof.
  unfold rank_sources, numbered. now rewrite length_map.
Qed.

Lemma ranked_keys_perm (data : list Shares) :
  Permutation (map fst (sort_values_desc (co2_per_mwh data)))
              (unique String.eqb (map src_of data)).
Proof.
  rewrite sort_values_desc_perm, co2_per_mwh_keys. apply sort_perm.
Qed.

(** the first row of the sorted table has a ratio, and the highest, as soon
    as some source has a ratio *)
Lemma ranked_head (data : list Shares) (e : string * fnum) :
  In e (co2_per_mwh data) -> isna (snd e) = false ->
  exists h t,
    sort_values_desc (co2_per_mwh data) = h :: t /\
    In h (co2_per_mwh data) /\
    isna (snd h) = false /\ fleb (snd e) (snd h) = true.
Proof.
  intros He Hna. unfold sort_values_desc.
  set (tbl := co2_per_mwh data) in *.
  set (nn := filter (fun a => negb (isna (snd a))) tbl).
  set (geb := fun a b : string * fnum => fleb (snd b) (snd a)).
  assert (Hnn : forall x, In x nn -> In x tbl /\ isna (snd x) = false).
  { intros x Hx. apply filter_In in Hx. now rewrite negb_true_iff in Hx. }
  assert (He' : In e nn).
  { apply filter_In. now rewrite Hna. }
  destruct (sort geb nn) as [|h t] eqn:Es.
  - apply (in_sort geb) in He'. rewrite Es in He'. destruct He'.
  - exists h, (t ++ filter (fun a => isna (snd a)) tbl).
    assert (Hh : In h nn) by (apply (in_sort geb); rewrite Es; now left).
    split; [reflexivity|]. destruct (Hnn h Hh) as [Hh1 Hh2].
    split; [exact Hh1|]. split; [exact Hh2|].
    apply (sort_head geb nn h t); auto.
    + intros x y Hx Hy. unfold geb.
      destruct (fleb_total (snd x) (snd y)); auto; now apply Hnn.
    + intros x y z Hx Hy Hz H1 H2. unfold geb in *.
      apply (fleb_trans (snd z) (snd y) (snd x)); auto; now apply Hnn.
Qed.

(** the ranking, on the frame it is computed from and merged into *)
Lemma rank_table (data : list Shares) :
  let table := map (with_rank (rank_sources data)) data in
  (forall r, In r table ->
     exists i, rank r = Some (Z.of_nat (1 + i)) /\
               nth_error (map fst (sort_values_desc (co2_per_mwh data))) i
               = Some (src r)) /\
  (forall i s, nth_error (map fst (sort_values_desc (co2_per_mwh data))) i = Some s ->
     exists r, In r table /\ src r = s /\ rank r = Some (Z.of_nat (1 + i))) /\
  (forall s, co2_mwh table s
     = fdiv (fsum (map (fun r => Fin (e_co2_tons (j_eng (pc_row (sh_row r)))))
                       (filter (fun r => String.eqb (src_of r) s) data)))
            (fsum (map (fun r => Fin (e_gen_mwh (j_eng (pc_row (sh_row r)))))
                       (filter (fun r => String.eqb (src_of r) s) data)))) /\
  n_sources table
  = Z.of_nat (List.length (map fst (sort_values_desc (co2_per_mwh data)))) /\
  NoDup (map fst (sort_values_desc (co2_per_mwh data))).
Proof.
  intros table.
  set (ks := map fst (sort_values_desc (co2_per_mwh data))).
  pose proof (ranked_keys_perm data) as P. fold ks in P.
  assert (Hnd : NoDup ks).
  { apply (Permutation_NoDup (Permutation_sym P)).
    apply NoDup_unique, String.eqb_eq. }
  assert (Hin : forall s, In s ks <-> In s (map src_of data)).
  { intros s.
    rewrite <- (in_unique String.eqb String.eqb_eq s (map src_of data)). split.
    - apply Permutation_in, P.
    - apply Permutation_in. now symmetry. }
  assert (Hrank : forall x, rank (with_rank (rank_sources data) x)
                            = lookup String.eqb (src_of x) (numbered 1 ks)).
  { intros x. cbn [rank with_rank]. now rewrite rank_sources_numbered. }
  repeat split.
  - intros r Hr. apply in_map_iff in Hr. destruct Hr as [x [<- Hx]].
    assert (Hs : In (src_of x) ks) by (apply Hin; now apply in_map).
    apply In_nth_error in Hs. destruct Hs as [i Hi]. exists i.
    rewrite Hrank. split; [|exact Hi].
    now apply (lookup_numbered String.eqb String.eqb_eq).
  - intros i s Hi.
    assert (Hs : In s (map src_of data)) by (apply Hin; eapply nth_error_In; eauto).
    apply in_map_iff in Hs. destruct Hs as [x [<- Hx]].
    exists (with_rank (rank_sources data) x). split; [now apply in_map|].
    split; [reflexivity|]. rewrite Hrank.
    now apply (lookup_numbered String.eqb String.eqb_eq).
  - intros s. unfold co2_mwh, table. rewrite !filter_map_comm, !map_map.
    reflexivity.
  - unfold n_sources, table. rewrite map_map.
    change (fun x => src (with_rank (rank_sources data) x)) with src_of.
    f_equal. symmetry. now apply Permutation_length.
  - exact Hnd.
Qed.

Lemma co2_per_mwh_has (data : list Shares) (x : Shares) :
  In x data -> exists v, In (src_of x, v) (co2_per_mwh data).
Proof.
  intros Hx. unfold co2_per_mwh, groupby. rewrite map_map. cbn [fst snd].
  eexists. apply in_map_iff. exists (src_of x). split; [reflexivity|].
  apply in_sort, in_unique; [apply String.eqb_eq|]. now apply in_map.
Qed.

Lemma build_full_table (fs : disk) :
  exists data, rows_of (build_full fs) = map (with_rank (rank_sources data)) data.
Proof.
  destruct (build_full_cases fs) as [E | [e [p [l [d [_ [_ [_ [_ E]]]]]]]]].
  - exists []. exact E.
  - rewrite E. cbn [rows_of]. unfold assemble. eexists. reflexivity.
Qed.

(** C4: in the returned table every row has a rank between 1 and the
    number N of distinct sources; two rows have the same rank exactly when
    they have the same source; every rank from 1 to N is the rank of some
    row; and the source of rank 1 has a ratio of summed [co2_tons] to
    summed [gen_mwh] that is defined and at least that of every source
    whose ratio is defined, as soon as one is. *)
Theorem build_full_rank (fs : disk) :
  (forall r, In r (rows_of (build_full fs)) ->
     exists k, rank r = Some k /\
               (1 <= k <= n_sources (rows_of (build_full fs)))%Z) /\
  (forall r r', In r (rows_of (build_full fs)) ->
     In r' (rows_of (build_full fs)) ->
     (rank r = rank r' <-> src r = src r')) /\
  (forall k, (1 <= k <= n_sources (rows_of (build_full fs)))%Z ->
     exists r, In r (rows_of (build_full fs)) /\ rank r = Some k) /\
  (forall r r', In r (rows_of (build_full fs)) -> rank r = Some 1%Z ->
     In r' (rows_of (build_full fs)) ->
     isna (co2_mwh (rows_of (build_full fs)) (src r')) = false ->
     isna (co2_mwh (rows_of (build_full fs)) (src r)) = false /\
     fleb (co2_mwh (rows_of (build_full fs)) (src r'))
          (co2_mwh (rows_of (build_full fs)) (src r)) = true).
Proof.
  destruct (build_full_table fs) as [data E]. rewrite E.
  destruct (rank_table data) as [A [B [C [N Hnd]]]].
  set (table := map (with_rank (rank_sources data)) data) in *.
  set (ks := map fst (sort_values_desc (co2_per_mwh data))) in *.
  split; [|split; [|split]].
  - intros r Hr. destruct (A r Hr) as [i [Hk Hi]]. eexists. split; [exact Hk|].
    rewrite N. assert (i < List.length ks)%nat by (apply nth_error_Some; congruence).
    lia.
  - intros r r' Hr Hr'. destruct (A r Hr) as [i [Hk Hi]].
    destruct (A r' Hr') as [i' [Hk' Hi']]. rewrite Hk, Hk'. split.
    + intros H. injection H as H. assert (i = i') by lia. subst i'. congruence.
    + intros H. rewrite H in Hi.
      assert (i = i').
      { apply (proj1 (NoDup_nth_error ks) Hnd).
        - apply nth_error_Some. congruence.
        - congruence. }
      now subst.
  - intros k Hk. rewrite N in Hk.
    destruct (nth_error ks (Z.to_nat (k - 1))) as [s|] eqn:Hs.
    + destruct (B _ _ Hs) as [r [Hr [_ Hrk]]]. exists r. split; [exact Hr|].
      rewrite Hrk. f_equal. lia.
    + apply nth_error_None in Hs. lia.
  - intros r r' Hr Hk Hr' Hna.
    destruct (A r Hr) as [i [Hk' Hi]]. rewrite Hk in Hk'. injection Hk' as Hk'.
    assert (i = 0)%nat by lia. subst i.
    pose proof Hr' as Hx. apply in_map_iff in Hx. destruct Hx as [x [Ex Hx]].
    destruct (co2_per_mwh_has data x Hx) as [v Hv].
    assert (Hsrc : src r' = src_of x) by (now rewrite <- Ex).
    destruct (co2_per_mwh_entry data _ Hv) as [_ Ev]. cbn [fst snd] in Ev.
    rewrite <- Hsrc, <- C in Ev. fold table in Ev.
    assert (Hv' : isna (snd (src_of x, v)) = false)
      by (cbn [snd]; now rewrite Ev).
    destruct (ranked_head data _ Hv Hv') as [h [t [Es [Hh [Hhna Hle]]]]].
    cbn [snd] in Hle.
    assert (Eh : fst h = src r).
    { unfold ks in Hi. rewrite Es in Hi. cbn in Hi. congruence. }
    destruct (co2_per_mwh_entry data _ Hh) as [_ Eh'].
    rewrite Eh, <- C in Eh'. fold table in Eh'.
    rewrite <- Eh', <- Ev. tauto.
Qed.

Lemma build_full_rank_witness :
  exists r r',
    In r (rows_of (build_full sample_disk)) /\
    In r' (rows_of (build_full sample_disk)) /\
    rank r = Some 1%Z /\ src r = "Coal" /\ src r' = "Petroleum" /\
    fleb (co2_mwh (rows_of (build_full sample_disk)) (src r'))
         (co2_mwh (rows_of (build_full sample_disk)) (src r)) = true.
Proof.
  eexists. eexists.
  split; [vm_compute; left; reflexivity|].
  split; [vm_compute; do 3 right; left; reflexivity|].
  split; [reflexivity|]. split; [reflexivity|]. split; [reflexivity|].
  match goal with
  | |- fleb (co2_mwh _ (src ?r')) (co2_mwh _ (src ?r)) = true =>
      refine (proj2 (proj2 (proj2 (proj2 (build_full_rank sample_disk)))
                       r r' _ eq_refl _ eq_refl))
  end.
  - vm_compute. left. reflexivity.
  - vm_compute. do 3 right. left. reflexivity.
Defined.

(** ** The codes of the returned table *)




Lemma build_pop_codes (fs : disk) (files : list string) (pop : list PopRow)
  (p : PopRow) :
  build_pop fs files = Ok pop -> In p pop ->
  exists c, In c (rows_of (load_codes fs CODE)) /\
            cd_code c = p_code p /\ cd_state c = p_state p.
Proof.
  unfold build_pop. destruct (load_codes fs CODE) as [letters|]; [|discriminate].
  cbn [bind rows_of]. destruct files as [|file0 files']; [discriminate|].
  destruct (load_clean_pop fs file0) as [w0|]; [|discriminate]. cbn [bind].
  destruct (merge_pops fs w0 files') as [w|]; [|discriminate]. cbn [bind].
  destruct (negb (String.eqb (w_key w) "state")); [discriminate|].
  intros H Hp. injection H as <-. unfold melt_pop in Hp.
  apply in_flat_map in Hp. destruct Hp as [jc [_ Hp]].
  apply in_map_iff in Hp. destruct Hp as [[c row] [<- Hr]].
  apply in_merge_inner in Hr. exists c. cbn. tauto.
Qed.





(** ** build_pop *)

Lemma merge_rows_states (a b : list (string * list Q)) (st : string) :
  In st (map fst (merge_rows a b)) <-> In st (map fst a) /\ In st (map fst b).
Proof.
  unfold merge_rows. rewrite map_map. cbn [fst]. rewrite in_map_iff. split.
  - intros [[l r] [<- H]]. apply in_merge_inner in H.
    destruct H as [Hl [Hr E]]. cbn [fst] in *. apply String.eqb_eq in E.
    split; [now apply in_map|]. rewrite E. now apply in_map.
  - intros [Ha Hb]. apply in_map_iff in Ha, Hb.
    destruct Ha as [l [<- Hl]], Hb as [r [E Hr]].
    exists (l, r). split; [reflexivity|]. apply in_merge_inner.
    cbn [fst]. rewrite E. now rewrite String.eqb_refl.
Qed.

Lemma in_combine_seq {A : Type} (c : A) (cols : list A) (a : nat) :
  In c cols -> exists j, In (j, c) (combine (seq a (List.length cols)) cols).
Proof.
  revert a; induction cols as [|c' cols IH]; intros a H; [destruct H|].
  cbn [List.length seq combine]. destruct H as [->|H].
  - exists a. now left.
  - destruct (IH (S a) H) as [j Hj]. exists j. now right.
Qed.

(** a state is in the melted table when a year column is left and the
    state is in the frame that is melted *)
Lemma melt_pop_states (cols : list string)
  (rows : list (CodeRow * (string * list Q))) (s : string) :
  In s (map p_state (melt_pop cols rows)) <->
  (exists c, In c cols /\ is_year_col c = true) /\
  In s (map (fun r => cd_state (fst r)) rows).
Proof.
  unfold melt_pop. rewrite in_map_iff. split.
  - intros [p [<- Hp]]. apply in_flat_map in Hp. destruct Hp as [[j c] [Hjc Hp]].
    apply filter_In in Hjc. destruct Hjc as [Hjc Hy]. cbn [snd] in Hy.
    apply in_combine_r in Hjc. split; [now exists c|].
    apply in_map_iff in Hp. destruct Hp as [r [<- Hr]]. cbn [p_state].
    apply in_map_iff. now exists r.
  - intros [[c [Hc Hy]] Hs]. apply in_map_iff in Hs. destruct Hs as [r [<- Hr]].
    destruct (in_combine_seq c cols 0 Hc) as [j Hj].
    eexists. split; [|apply in_flat_map; exists (j, c); split].
    2:{ apply filter_In. split; [exact Hj | exact Hy]. }
    2:{ apply in_map_iff. exists r. split; [reflexivity | exact Hr]. }
    reflexivity.
Qed.

(** every state name [load_clean_pop] keeps starts with a dot *)
Lemma load_clean_pop_states (fs : disk) (filename : string) (w : Wide)
  (st : string) :
  load_clean_pop fs filename = Ok w -> In st (map fst (w_rows w)) ->
  Str.startswith "." st = true.
Proof.
  unfold load_clean_pop, read_csv.
  destruct (fs filename) as [[|df| | |]|]; cbn [bind]; try discriminate.
  destruct (negb (no_hyphen (Str.lower (pf_first df)))).
  - destruct (filter no_hyphen (map Str.lower (pf_cols df))); discriminate.
  - case_text_column.
    intros H. injection H as <-. cbn [w_rows]. intros Hst.
    apply in_map_iff in Hst. destruct Hst as [[st' qs] [<- Hin]].
    apply in_flat_map in Hin. destruct Hin as [r [_ Hin]].
    destruct (fst r) as [s0|]; [|destruct Hin].
    destruct (cells_at (snd r) _); [|destruct Hin].
    destruct (Str.startswith "." s0) eqn:E; [|destruct Hin].
    destruct Hin as [Hin|[]]. injection Hin as <- _. exact E.
Qed.

Lemma joined_letters_states (letters : list CodeRow)
  (rows : list (string * list Q)) (s : string) :
  In s (map (fun r => cd_state (fst r))
            (merge_inner (fun l r => String.eqb (cd_state l) (fst r)) letters
               (map (fun r => (Str.strip PUNCTUATION (fst r), snd r)) rows))) <->
  In s (map cd_state letters) /\
  exists raw, In raw (map fst rows) /\ Str.strip PUNCTUATION raw = s.
Proof.
  rewrite in_map_iff. split.
  - intros [[l r] [<- H]]. apply in_merge_inner in H. destruct H as [Hl [Hr E]].
    cbn [fst] in *. apply String.eqb_eq in E. split; [now apply in_map|].
    apply in_map_iff in Hr. destruct Hr as [r0 [<- Hr0]]. cbn [fst] in E.
    exists (fst r0). split; [now apply in_map | now symmetry].
  - intros [Hl [raw [Hraw <-]]]. apply in_map_iff in Hl, Hraw.
    destruct Hl as [l [El Hl]], Hraw as [r0 [<- Hr0]].
    exists (l, (Str.strip PUNCTUATION (fst r0), snd r0)). split; [exact El|].
    apply in_merge_inner. split; [exact Hl|]. split.
    + apply in_map_iff. now exists r0.
    + cbn [fst]. rewrite El. apply String.eqb_refl.
Qed.

(** what a merge that succeeds returns *)
Lemma merge_on_state_ok (a b w : Wide) :
  merge_on_state a b = Ok w ->
  w_key a = "state" /\ w_key b = "state" /\ w_key w = "state" /\
  w_cols w = merge_cols (w_cols a) (w_cols b) /\
  w_rows w = merge_rows (w_rows a) (w_rows b).
Proof.
  unfold merge_on_state.
  destruct (String.eqb (w_key a) "state") eqn:Ea; [|discriminate].
  destruct (String.eqb (w_key b) "state") eqn:Eb; [|discriminate].
  cbn [andb]. destruct (_ || _); [discriminate|].
  intros H. injection H as <-. cbn.
  apply String.eqb_eq in Ea, Eb. tauto.
Qed.

(** C5, as the code has it.  Take three cleaned tables whose two merges
    succeed: each is keyed by [state], and the suffixes of a merge make
    no two columns of one side share a name.  Then [build_pop] returns
    rows for a state name exactly when the name is in the code table and
    is, with the punctuation stripped, a name that the three cleaned
    tables all have, provided that a value column with a name of at most
    four characters is left after the two merges have suffixed the column
    names the tables share; without such a column it returns no row.
    When a merge raises, [build_pop] raises the same error.  On the three
    files of the scenario it returns the six rows of CA. *)
Theorem build_pop_states :
  (forall (fs : disk) (f1 f2 f3 : string) (letters : list CodeRow)
          (w1 w2 w3 w12 w : Wide) (s : string),
     load_codes fs CODE = Ok letters ->
     load_clean_pop fs f1 = Ok w1 ->
     load_clean_pop fs f2 = Ok w2 ->
     load_clean_pop fs f3 = Ok w3 ->
     merge_on_state w1 w2 = Ok w12 ->
     merge_on_state w12 w3 = Ok w ->
     (In s (map p_state (rows_of (build_pop fs [f1; f2; f3]))) <->
      (exists raw, In raw (map fst (w_rows w1)) /\ In raw (map fst (w_rows w2)) /\
                   In raw (map fst (w_rows w3)) /\
                   Str.strip PUNCTUATION raw = s) /\
      In s (map cd_state letters) /\
      (exists c, In c (merge_cols (merge_cols (w_cols w1) (w_cols w2)) (w_cols w3)) /\
                 is_year_col c = true))) /\
  (forall (fs : disk) (f1 f2 f3 : string) (letters : list CodeRow)
          (w1 w2 w3 : Wide) (e : error),
     load_codes fs CODE = Ok letters ->
     load_clean_pop fs f1 = Ok w1 ->
     load_clean_pop fs f2 = Ok w2 ->
     load_clean_pop fs f3 = Ok w3 ->
     (merge_on_state w1 w2 = Err e \/
      exists w12, merge_on_state w1 w2 = Ok w12 /\ merge_on_state w12 w3 = Err e) ->
     build_pop fs [f1; f2; f3] = Err e) /\
  build_pop scenario_disk POPS
  = Ok [ pop_row "CA" "CA" "1990" 29; pop_row "CA" "CA" "1995" 31;
         pop_row "CA" "CA" "2000" 33; pop_row "CA" "CA" "2005" 35;
         pop_row "CA" "CA" "2010" 37; pop_row "CA" "CA" "2015" 39 ].
Proof.
  split; [|split; [|reflexivity]].
  - intros fs f1 f2 f3 letters w1 w2 w3 w12 w s Hl H1 H2 H3 M1 M2.
    unfold build_pop. rewrite Hl. cbn [bind]. rewrite H1. cbn [bind merge_pops].
    rewrite H2. cbn [bind]. rewrite M1. cbn [bind]. rewrite H3. cbn [bind].
    rewrite M2. cbn [bind].
    apply merge_on_state_ok in M1, M2.
    destruct M1 as [_ [_ [_ [C12 R12]]]], M2 as [_ [_ [K [C R]]]].
    rewrite K, C, R, C12, R12.
    cbn [String.eqb Ascii.eqb Bool.eqb negb rows_of].
    rewrite melt_pop_states, joined_letters_states.
    split.
    + intros [Hc [Hs [raw [Hraw E]]]]. apply merge_rows_states in Hraw.
      destruct Hraw as [Hraw R3]. apply merge_rows_states in Hraw.
      destruct Hraw as [R1 R2]. split; [exists raw; tauto | tauto].
    + intros [[raw [R1 [R2 [R3 E]]]] [Hs Hc]]. split; [exact Hc|].
      split; [exact Hs|]. exists raw. split; [|exact E].
      apply merge_rows_states. split; [|exact R3].
      apply merge_rows_states. tauto.
  - intros fs f1 f2 f3 letters w1 w2 w3 e Hl H1 H2 H3 M.
    unfold build_pop. rewrite Hl. cbn [bind]. rewrite H1. cbn [bind merge_pops].
    rewrite H2. cbn [bind]. destruct M as [M | [w12 [M1 M2]]].
    + rewrite M. reflexivity.
    + rewrite M1. cbn [bind]. rewrite H3. cbn [bind]. rewrite M2. reflexivity.
Qed.

Lemma build_pop_states_witness :
  In "CA" (map p_state (rows_of (build_pop scenario_disk POPS))).
Proof.
  refine (proj2 (proj1 build_pop_states scenario_disk
                   "data/pop_90-99.csv" "data/pop_00-10.csv" "data/pop_10-19.csv"
                   _ _ _ _ _ _ "CA"
                   eq_refl eq_refl eq_refl eq_refl eq_refl eq_refl) _).
  split; [|split].
  - exists ".CA". vm_compute. intuition.
  - vm_compute. auto.
  - exists "1990". vm_compute. auto.
Defined.

(** C5 as stated fails: here ".CA" is a row of each of the three cleaned
    tables and "CA" is in the code table, yet no row is returned, because
    no year column is left: the column "2010" of the first and the third
    file becomes "2010_x" and "2010_y", and "census" is too long. *)
Lemma build_pop_no_year_column :
  (forall f, In f POPS ->
     exists w, load_clean_pop collide_disk f = Ok w /\
               In ".CA" (map fst (w_rows w))) /\
  Str.strip PUNCTUATION ".CA" = "CA" /\
  In "CA" (map cd_state (rows_of (load_codes collide_disk CODE))) /\
  build_pop collide_disk POPS = Ok [].
Proof.
  split; [|split; [reflexivity | split; [vm_compute; auto | reflexivity]]].
  intros f [<-|[<-|[<-|[]]]]; eexists; (split; [reflexivity | vm_compute; auto]).
Qed.

(** * Further properties of the loaders and of the assembly *)

(** ** Text *)

Lemma lstrip_first (chars s : string) :
  match first_char (Str.lstrip chars s) with
  | Some c => Str.mem_char c chars = false
  | None => True
  end.
Proof.
  induction s as [|c s IH]; cbn [Str.lstrip first_char]; [exact I|].
  destruct (Str.mem_char c chars) eqn:E; [exact IH|]. cbn [first_char]. exact E.
Qed.

Lemma rstrip_last (chars s : string) :
  match last_char (Str.rstrip chars s) with
  | Some c => Str.mem_char c chars = false
  | None => True
  end.
Proof.
  induction s as [|c s IH]; cbn [Str.rstrip last_char]; [exact I|].
  destruct (Str.rstrip chars s) as [|d r] eqn:E.
  - destruct (Str.mem_char c chars) eqn:M; cbn [last_char]; [exact I | exact M].
  - cbn [last_char]. exact IH.
Qed.

Lemma rstrip_first (chars : string) (c : ascii) (s : string) :
  Str.mem_char c chars = false ->
  first_char (Str.rstrip chars (String c s)) = Some c.
Proof.
  intros M. cbn [Str.rstrip]. destruct (Str.rstrip chars s); [|reflexivity].
  now rewrite M.
Qed.

Lemma strip_trimmed (chars s : string) : trimmed chars (Str.strip chars s) = true.
Proof.
  unfold trimmed, Str.strip. apply andb_true_iff. split.
  - pose proof (lstrip_first chars s) as H.
    destruct (Str.lstrip chars s) as [|c r]; [reflexivity|].
    cbn [first_char] in H. rewrite (rstrip_first chars c r H). now rewrite H.
  - pose proof (rstrip_last chars (Str.lstrip chars s)) as H.
    destruct (last_char (Str.rstrip chars (Str.lstrip chars s)));
      [now rewrite H | reflexivity].
Qed.

Lemma length_append (a b : string) :
  String.length (a ++ b) = (String.length a + String.length b)%nat.
Proof. induction a as [|c a IH]; cbn; [reflexivity | now rewrite IH]. Qed.

Lemma replace_absent (old new s : string) :
  Str.contains old s = false -> Str.replace old new s = s.
Proof.
  unfold Str.replace. induction s as [|c s IH]; intros H; [reflexivity|].
  cbn [Str.contains] in H. apply orb_false_iff in H. destruct H as [Hp Hc].
  cbn [Str.replace_from]. rewrite Hp. now rewrite IH.
Qed.

(** ** load_codes *)

Lemma code_row_eta (c : CodeRow) :
  Str.upper (cd_code c) = cd_code c ->
  {| cd_state := cd_state c; cd_code := Str.upper (cd_code c) |} = c.
Proof. destruct c as [s k]. cbn. now intros ->. Qed.

Lemma disk_of_head (f : string) (c : csv) (rest : list (string * csv)) :
  disk_of ((f, c) :: rest) f = Some c.
Proof. cbn. now rewrite String.eqb_refl. Qed.

(** X1: a table [load_codes] returns has the state names of the file, row
    for row, and codes that upper-casing leaves alone; loading a file that
    holds such a table gives the table back. *)
Theorem load_codes_table (fs : disk) (filename : string) (letters : list CodeRow) :
  load_codes fs filename = Ok letters ->
  (exists raw, fs filename = Some (CodesCsv raw) /\
               map cd_state letters = map cd_state raw) /\
  (forall c, In c letters -> Str.upper (cd_code c) = cd_code c) /\
  load_codes (disk_of [(filename, CodesCsv letters)]) filename = Ok letters.
Proof.
  unfold load_codes at 1, read_csv.
  destruct (fs filename) as [[raw| | | |]|]; cbn [bind]; try discriminate.
  intros H. injection H as <-.
  assert (Hup : forall c,
             In c (map (fun r => {| cd_state := cd_state r;
                                    cd_code := Str.upper (cd_code r) |}) raw) ->
             Str.upper (cd_code c) = cd_code c).
  { intros c Hc. apply in_map_iff in Hc. destruct Hc as [r [<- _]].
    cbn. apply upper_idem. }
  split; [|split].
  - exists raw. split; [reflexivity|]. rewrite map_map. reflexivity.
  - exact Hup.
  - unfold load_codes, read_csv. rewrite disk_of_head. cbn [bind]. f_equal.
    rewrite <- (map_id (map _ raw)) at 2. apply map_ext_in.
    intros c Hc. apply code_row_eta. now apply Hup.
Qed.

Lemma load_codes_table_witness :
  load_codes (disk_of [(CODE, CodesCsv
                          [ {| cd_state := "Alabama"; cd_code := "AL" |};
                            {| cd_state := "California"; cd_code := "CA" |} ])])
             CODE
  = Ok [ {| cd_state := "Alabama"; cd_code := "AL" |};
         {| cd_state := "California"; cd_code := "CA" |} ].
Proof.
  exact (proj2 (proj2 (load_codes_table sample_disk CODE _ eq_refl))).
Defined.

(** ** load_clean_pop *)

Lemma cells_at_length (cells : list (option Q)) (js : list nat) (qs : list Q) :
  cells_at cells js = Some qs -> List.length qs = List.length js.
Proof.
  revert qs; induction js as [|j js IH]; intros qs H.
  - injection H as <-. reflexivity.
  - cbn [cells_at] in H. destruct (cell_at cells j); [|discriminate].
    destruct (cells_at cells js) as [qs'|]; [|discriminate].
    injection H as <-. cbn. now rewrite (IH qs').
Qed.

Lemma positions_length (p : string -> bool) (cols : list string) :
  List.length (positions p cols) = List.length (filter p cols).
Proof.
  unfold positions. rewrite length_map. generalize 0%nat as a.
  induction cols as [|c cols IH]; intros a; [reflexivity|].
  cbn [List.length seq combine filter snd]. destruct (p c); cbn [List.length];
    now rewrite IH.
Qed.

Lemma lower_char_idem (c : ascii) :
  Str.lower_char (Str.lower_char c) = Str.lower_char c.
Proof. destruct c as [[] [] [] [] [] [] [] []]; reflexivity. Qed.

Lemma lower_idem (s : string) : Str.lower (Str.lower s) = Str.lower s.
Proof.
  unfold Str.lower.
  induction s as [|c s IH]; cbn [Str.smap]; [reflexivity|].
  now rewrite lower_char_idem, IH.
Qed.

(** X2: in a table [load_clean_pop] returns, no column name has a hyphen
    or an upper-case letter, every row starts with a dot and has one cell
    per value column. *)
Theorem load_clean_pop_shape (fs : disk) (filename : string) (w : Wide) :
  load_clean_pop fs filename = Ok w ->
  Str.contains "-" (w_key w) = false /\
  (forall c, In c (w_cols w) -> Str.contains "-" c = false /\ Str.lower c = c) /\
  (forall row, In row (w_rows w) ->
     Str.startswith "." (fst row) = true /\
     List.length (snd row) = List.length (w_cols w)).
Proof.
  unfold load_clean_pop, read_csv.
  destruct (fs filename) as [[|df| | |]|]; cbn [bind]; try discriminate.
  destruct (negb (no_hyphen (Str.lower (pf_first df)))) eqn:Hh.
  - destruct (filter no_hyphen (map Str.lower (pf_cols df))); discriminate.
  - case_text_column.
    intros H. injection H as <-. cbn [w_key w_cols w_rows].
    apply negb_false_iff in Hh. unfold no_hyphen in Hh.
    apply negb_true_iff in Hh. split; [|split].
    + destruct (Str.contains "unnamed" (Str.lower (pf_first df)));
        [destruct (String.eqb (Str.lower (pf_first df)) "unnamed: 0")
        |destruct (String.eqb (Str.lower (pf_first df)) "geography")];
        (exact Hh || reflexivity).
    + intros c Hc. apply filter_In in Hc. destruct Hc as [Hc Hn].
      unfold no_hyphen in Hn. apply negb_true_iff in Hn. split; [exact Hn|].
      apply in_map_iff in Hc. destruct Hc as [c0 [<- _]]. apply lower_idem.
    + intros [st qs] Hin. apply in_flat_map in Hin. destruct Hin as [r [_ Hin]].
      destruct (fst r) as [s0|]; [|destruct Hin].
      destruct (cells_at (snd r) _) as [qs'|] eqn:Ec; [|destruct Hin].
      destruct (Str.startswith "." s0) eqn:E; [|destruct Hin].
      destruct Hin as [Hin|[]]. injection Hin as <- <-. cbn [fst snd].
      split; [exact E|]. rewrite (cells_at_length _ _ _ Ec).
      apply positions_length.
Qed.

Lemma load_clean_pop_shape_witness :
  Str.startswith "." ".Alabama" = true /\
  List.length [40; 42] = List.length ["1990"; "1995"].
Proof.
  destruct (load_clean_pop_shape sample_disk "data/pop_90-99.csv" _ eq_refl)
    as [_ [_ H]].
  exact (H (".Alabama", [40; 42]) (or_introl eq_refl)).
Defined.

Lemma load_clean_pop_inv (fs : disk) (filename : string) (w : Wide) :
  load_clean_pop fs filename = Ok w ->
  exists df, fs filename = Some (PopCsv df) /\
             no_hyphen (Str.lower (pf_first df)) = true /\
             w_key w =
               (let first := Str.lower (pf_first df) in
                if Str.contains "unnamed" first
                then (if String.eqb first "unnamed: 0" then "state" else first)
                else (if String.eqb first "geography" then "state" else first)) /\
             w_cols w = filter no_hyphen (map Str.lower (pf_cols df)).
Proof.
  unfold load_clean_pop, read_csv.
  destruct (fs filename) as [[|df| | |]|]; cbn [bind]; try discriminate.
  destruct (negb (no_hyphen (Str.lower (pf_first df)))) eqn:Hh.
  - destruct (filter no_hyphen (map Str.lower (pf_cols df))); discriminate.
  - case_text_column.
    intros H. injection H as <-. exists df. cbn [w_key w_cols].
    apply negb_false_iff in Hh. tauto.
Qed.

(** X3: the table [load_clean_pop] returns is keyed by [state] exactly
    when the first column of the file is called, whatever the case of the
    letters, "Unnamed: 0", "Geography" or "State"; any other first column
    keeps its name. *)
Theorem load_clean_pop_key (fs : disk) (filename : string) (df : PopFile)
  (w : Wide) :
  fs filename = Some (PopCsv df) ->
  load_clean_pop fs filename = Ok w ->
  (w_key w = "state" <-> In (Str.lower (pf_first df)) state_column_names) /\
  (~ In (Str.lower (pf_first df)) state_column_names ->
   w_key w = Str.lower (pf_first df)).
Proof.
  intros Hf H. apply load_clean_pop_inv in H.
  destruct H as [df' [Hf' [_ [Hk _]]]]. rewrite Hf in Hf'. injection Hf' as <-.
  cbv zeta in Hk. rewrite Hk. clear Hk. unfold state_column_names. cbn [In].
  set (first := Str.lower (pf_first df)).
  destruct (Str.contains "unnamed" first) eqn:Eu.
  - destruct (String.eqb first "unnamed: 0") eqn:E0.
    + apply String.eqb_eq in E0. split; [split; auto|]. intros N. exfalso. auto.
    + apply String.eqb_neq in E0. split; [|reflexivity]. split.
      * intros E. rewrite E in Eu. discriminate Eu.
      * intros [E|[E|[E|[]]]]; try congruence; rewrite <- E in Eu;
          discriminate Eu.
  - destruct (String.eqb first "geography") eqn:Eg.
    + apply String.eqb_eq in Eg. split; [split; auto|]. intros N. exfalso. auto.
    + apply String.eqb_neq in Eg. split; [|reflexivity]. split.
      * intros E. auto.
      * intros [E|[E|[E|[]]]]; try congruence. rewrite <- E in Eu.
        discriminate Eu.
Qed.

Lemma load_clean_pop_key_witness :
  "state" = "state" <-> In (Str.lower "Geography") state_column_names.
Proof.
  exact (proj1 (load_clean_pop_key sample_disk "data/pop_10-19.csv"
                  sample_pop_10 _ eq_refl eq_refl)).
Defined.

(** ** build_pop *)

Lemma merge_pops_ok (fs : disk) (files : list string) (w w' : Wide) :
  merge_pops fs w files = Ok w' ->
  (files = [] /\ w' = w) \/
  (w_key w = "state" /\ w_key w' = "state" /\
   forall f, In f files ->
             exists wf, load_clean_pop fs f = Ok wf /\ w_key wf = "state").
Proof.
  revert w; induction files as [|f files IH]; intros w H.
  - left. injection H as <-. auto.
  - right. cbn [merge_pops] in H.
    destruct (load_clean_pop fs f) as [wf|] eqn:Ef; [|discriminate].
    cbn [bind] in H.
    destruct (merge_on_state w wf) as [wm|] eqn:Em; [|discriminate].
    cbn [bind] in H. apply merge_on_state_ok in Em.
    destruct Em as [Ka [Kb [Km _]]].
    destruct (IH wm H) as [[-> ->] | [_ [K' Hall]]].
    + split; [exact Ka|]. split; [exact Km|].
      intros f' [<-|[]]. now exists wf.
    + split; [exact Ka|]. split; [exact K'|].
      intros f' [<-|Hf']; [now exists wf | now apply Hall].
Qed.

(** a side that shares no column with the other takes no suffix, and the
    check of the merge finds nothing *)
Lemma suffix_dups_disjoint (sfx : string) (others seen cols : list string) :
  (forall c, In c cols -> mem_str c others = false) ->
  suffix_dups sfx others seen seen cols = false.
Proof.
  revert seen; induction cols as [|c cols IH]; intros seen H; [reflexivity|].
  cbn [suffix_dups]. cbv zeta. unfold suffixed at 1 2.
  rewrite (H c (or_introl eq_refl)), andb_negb_r. cbn [orb].
  apply IH. intros c' Hc'. apply H. now right.
Qed.

Lemma suffixed_disjoint (sfx : string) (others cols : list string) :
  (forall c, In c cols -> mem_str c others = false) ->
  map (suffixed sfx others) cols = cols.
Proof.
  intros H. rewrite <- (map_id cols) at 2. apply map_ext_in.
  intros c Hc. unfold suffixed. now rewrite (H c Hc).
Qed.

Lemma mem_str_false (c : string) (cols : list string) :
  ~ In c cols -> mem_str c cols = false.
Proof.
  intros H. destruct (mem_str c cols) eqn:E; [|reflexivity].
  apply mem_str_iff in E. contradiction.
Qed.

Lemma merge_on_state_disjoint (a b : Wide) :
  w_key a = "state" -> w_key b = "state" ->
  (forall c, In c (w_cols a) -> ~ In c (w_cols b)) ->
  merge_on_state a b
  = Ok {| w_key := "state"; w_cols := w_cols a ++ w_cols b;
          w_rows := merge_rows (w_rows a) (w_rows b) |}.
Proof.
  intros Ka Kb D. unfold merge_on_state. rewrite Ka, Kb.
  cbn [String.eqb Ascii.eqb Bool.eqb andb].
  assert (Da : forall c, In c (w_cols a) -> mem_str c (w_cols b) = false).
  { intros c Hc. apply mem_str_false. now apply D. }
  assert (Db : forall c, In c (w_cols b) -> mem_str c (w_cols a) = false).
  { intros c Hc. apply mem_str_false. intros Hc'. exact (D c Hc' Hc). }
  rewrite !suffix_dups_disjoint by assumption. cbn [orb].
  unfold merge_cols. now rewrite !suffixed_disjoint by assumption.
Qed.

Lemma NoDup_app_disjoint {A : Type} (a b : list A) (c : A) :
  NoDup (a ++ b) -> In c a -> ~ In c b.
Proof.
  induction a as [|x a IH]; intros H Hc; [destruct Hc|].
  cbn in H. inversion H as [|x' l Hx Hnd]; subst.
  destruct Hc as [->|Hc]; [|now apply IH].
  intros Hb. apply Hx. apply in_or_app. now right.
Qed.

(** tables that share no column merge, whatever their number *)
Lemma merge_pops_disjoint (fs : disk) (files : list string) (ws : list Wide) :
  Forall2 (fun f wf => load_clean_pop fs f = Ok wf /\ w_key wf = "state") files ws ->
  forall w, w_key w = "state" ->
            NoDup (w_cols w ++ List.concat (map w_cols ws)) ->
            exists w', merge_pops fs w files = Ok w' /\ w_key w' = "state".
Proof.
  induction 1 as [|f wf files ws [Ef Kf] _ IH]; intros w K Hnd.
  - now exists w.
  - cbn [merge_pops]. rewrite Ef. cbn [bind].
    cbn [map List.concat] in Hnd.
    rewrite merge_on_state_disjoint; [|exact K|exact Kf|].
    + cbn [bind]. apply IH; [reflexivity|]. cbn [w_cols].
      now rewrite <- app_assoc.
    + intros c Hc Hc'. apply (NoDup_app_disjoint _ _ c Hnd Hc).
      apply in_or_app. now left.
Qed.

(** X4: when [build_pop] returns a table, the code file has loaded, the
    list of files is not empty and every file of the list has cleaned to
    a table keyed by [state]: a missing file or a first column of another
    name anywhere in the list makes it fail.  These conditions are enough
    when no two value columns of the cleaned tables share a name, for
    then no merge has a column to rename. *)
Theorem build_pop_ok (fs : disk) (files : list string) :
  ((exists pop, build_pop fs files = Ok pop) ->
   (exists letters, load_codes fs CODE = Ok letters) /\
   files <> [] /\
   (forall f, In f files ->
              exists w, load_clean_pop fs f = Ok w /\ w_key w = "state")) /\
  (forall letters ws,
     load_codes fs CODE = Ok letters ->
     files <> [] ->
     Forall2 (fun f w => load_clean_pop fs f = Ok w /\ w_key w = "state") files ws ->
     NoDup (List.concat (map w_cols ws)) ->
     exists pop, build_pop fs files = Ok pop).
Proof.
  unfold build_pop. split.
  - intros [pop H].
    destruct (load_codes fs CODE) as [letters|]; [|discriminate].
    cbn [bind] in H. split; [now exists letters|].
    destruct files as [|file0 files']; [discriminate|]. split; [discriminate|].
    destruct (load_clean_pop fs file0) as [w0|] eqn:E0; [|discriminate].
    cbn [bind] in H.
    destruct (merge_pops fs w0 files') as [w|] eqn:Em; [|discriminate].
    cbn [bind] in H.
    destruct (String.eqb (w_key w) "state") eqn:K; [|discriminate].
    apply String.eqb_eq in K.
    destruct (merge_pops_ok fs files' w0 w Em) as [[-> ->] | [K0 [_ Hall]]].
    + intros f [<-|[]]. now exists w0.
    + intros f [<-|Hf]; [now exists w0 | now apply Hall].
  - intros letters ws -> Hne Hall Hnd. cbn [bind].
    destruct Hall as [|file0 w0 files' ws' [E0 K0] Hall]; [contradiction|].
    rewrite E0. cbn [bind].
    destruct (merge_pops_disjoint fs files' ws' Hall w0 K0 Hnd) as [w [Em K]].
    rewrite Em. cbn [bind]. rewrite K. cbn. eexists. reflexivity.
Qed.

Lemma build_pop_ok_witness :
  exists pop, build_pop sample_disk POPS = Ok pop.
Proof.
  refine (proj2 (build_pop_ok sample_disk POPS) _ [_; _; _] eq_refl _ _ _).
  - discriminate.
  - repeat constructor; reflexivity.
  - vm_compute. repeat constructor; cbn; intuition discriminate.
Defined.

Lemma in_melt_pop (cols : list string)
  (rows : list (CodeRow * (string * list Q))) (p : PopRow) :
  In p (melt_pop cols rows) ->
  In (p_year p) cols /\ is_year_col (p_year p) = true /\
  exists r, In r rows /\ p_state p = cd_state (fst r) /\
            p_code p = cd_code (fst r).
Proof.
  unfold melt_pop. intros Hp. apply in_flat_map in Hp.
  destruct Hp as [[j c] [Hjc Hp]]. apply filter_In in Hjc.
  destruct Hjc as [Hjc Hy]. apply in_combine_r in Hjc.
  apply in_map_iff in Hp. destruct Hp as [r [<- Hr]]. cbn.
  split; [exact Hjc|]. split; [exact Hy|]. now exists r.
Qed.

(** X5: a row [build_pop] returns has a state name and a code that stand
    together in a row of the loaded code table, a state name that neither
    starts nor ends with a character of [PUNCTUATION], and a year label of
    at most four characters. *)
Theorem build_pop_rows (fs : disk) (files : list string) (p : PopRow) :
  In p (rows_of (build_pop fs files)) ->
  (exists c, In c (rows_of (load_codes fs CODE)) /\
             cd_state c = p_state p /\ cd_code c = p_code p) /\
  trimmed PUNCTUATION (p_state p) = true /\
  (String.length (p_year p) <= 4)%nat.
Proof.
  unfold build_pop. destruct (load_codes fs CODE) as [letters|]; [|intros []].
  cbn [bind rows_of]. destruct files as [|file0 files']; [intros []|].
  destruct (load_clean_pop fs file0) as [w0|]; [|intros []]. cbn [bind].
  destruct (merge_pops fs w0 files') as [w|]; [|intros []]. cbn [bind].
  destruct (negb (String.eqb (w_key w) "state")); [intros []|].
  cbn [rows_of]. intros Hp. apply in_melt_pop in Hp.
  destruct Hp as [_ [Hy [[c row] [Hr [Es Ec]]]]]. cbn [fst] in Es, Ec.
  apply in_merge_inner in Hr. destruct Hr as [Hc [Hrow E]].
  cbn [fst] in E. apply String.eqb_eq in E.
  split; [exists c; auto|]. split.
  - apply in_map_iff in Hrow. destruct Hrow as [r0 [<- _]]. cbn [fst] in E.
    rewrite Es, E. apply strip_trimmed.
  - unfold is_year_col in Hy. now apply Nat.leb_le.
Qed.

Lemma build_pop_rows_witness :
  (exists c, In c (rows_of (load_codes sample_disk CODE)) /\
             cd_state c = "Alabama" /\ cd_code c = "AL") /\
  trimmed PUNCTUATION "Alabama" = true /\
  (String.length "1990" <= 4)%nat.
Proof.
  refine (build_pop_rows sample_disk POPS (pop_row "Alabama" "AL" "1990" 40) _).
  vm_compute. left. reflexivity.
Defined.

Lemma merge_cols_long (a b : list string) :
  (forall x, In x a -> (3 <= String.length x)%nat) ->
  (forall x, In x b -> (3 <= String.length x)%nat) ->
  forall x, In x (merge_cols a b) -> (3 <= String.length x)%nat.
Proof.
  intros Ha Hb x Hx. unfold merge_cols in Hx. apply in_app_or in Hx.
  destruct Hx as [Hx|Hx]; apply in_map_iff in Hx; destruct Hx as [y [<- Hy]];
    unfold suffixed; destruct (mem_str y _);
    try rewrite length_append; auto;
    [specialize (Ha y Hy) | specialize (Hb y Hy)]; lia.
Qed.

(** a year column of a merge is a column of exactly one of the two frames *)
Lemma merge_cols_year (a b : list string) (c : string) :
  (forall x, In x a -> (3 <= String.length x)%nat) ->
  (forall x, In x b -> (3 <= String.length x)%nat) ->
  is_year_col c = true ->
  (In c (merge_cols a b) <-> xorb (mem_str c a) (mem_str c b) = true).
Proof.
  intros Ha Hb Hy. unfold is_year_col in Hy. apply Nat.leb_le in Hy.
  unfold merge_cols. rewrite in_app_iff, !in_map_iff. split.
  - intros [[x [E Hx]] | [x [E Hx]]]; unfold suffixed in E;
      destruct (mem_str x _) eqn:M.
    + rewrite <- E, length_append in Hy. specialize (Ha x Hx). cbn in Hy. lia.
    + subst x. rewrite M. now rewrite (proj2 (mem_str_iff c a) Hx).
    + rewrite <- E, length_append in Hy. specialize (Hb x Hx). cbn in Hy. lia.
    + subst x. rewrite M. now rewrite (proj2 (mem_str_iff c b) Hx).
  - destruct (mem_str c a) eqn:Ma, (mem_str c b) eqn:Mb; cbn; try discriminate;
      intros _.
    + left. exists c. unfold suffixed. rewrite Mb. split; [reflexivity|].
      now apply mem_str_iff.
    + right. exists c. unfold suffixed. rewrite Ma. split; [reflexivity|].
      now apply mem_str_iff.
Qed.

Lemma mem_str_merge_cols (a b : list string) (c : string) :
  (forall x, In x a -> (3 <= String.length x)%nat) ->
  (forall x, In x b -> (3 <= String.length x)%nat) ->
  is_year_col c = true ->
  mem_str c (merge_cols a b) = xorb (mem_str c a) (mem_str c b).
Proof.
  intros Ha Hb Hy. pose proof (merge_cols_year a b c Ha Hb Hy) as H.
  rewrite <- mem_str_iff in H.
  destruct (mem_str c (merge_cols a b)), (xorb (mem_str c a) (mem_str c b));
    intuition congruence.
Qed.

(** X6: with three files whose column names have three characters or
    more, the year of a row [build_pop] returns is a column of one of the
    three cleaned tables or of all three; a year that two of them share,
    and only two, is in no row. *)
Theorem build_pop_year_parity (fs : disk) (f1 f2 f3 : string)
  (w1 w2 w3 : Wide) (p : PopRow) :
  load_clean_pop fs f1 = Ok w1 ->
  load_clean_pop fs f2 = Ok w2 ->
  load_clean_pop fs f3 = Ok w3 ->
  (forall c, In c (w_cols w1 ++ w_cols w2 ++ w_cols w3) ->
             (3 <= String.length c)%nat) ->
  In p (rows_of (build_pop fs [f1; f2; f3])) ->
  xorb (xorb (mem_str (p_year p) (w_cols w1)) (mem_str (p_year p) (w_cols w2)))
       (mem_str (p_year p) (w_cols w3)) = true.
Proof.
  intros H1 H2 H3 Hlen. unfold build_pop.
  destruct (load_codes fs CODE) as [letters|]; [|intros []].
  cbn [bind]. rewrite H1. cbn [bind merge_pops]. rewrite H2. cbn [bind].
  destruct (merge_on_state w1 w2) as [w12|] eqn:E12; [|intros []].
  cbn [bind]. rewrite H3. cbn [bind].
  destruct (merge_on_state w12 w3) as [w|] eqn:E; [|intros []]. cbn [bind].
  destruct (negb (String.eqb (w_key w) "state")); [intros []|].
  cbn [rows_of]. intros Hp. apply in_melt_pop in Hp. destruct Hp as [Hc [Hy _]].
  apply merge_on_state_ok in E12, E.
  destruct E12 as [_ [_ [_ [C12 _]]]], E as [_ [_ [_ [C _]]]].
  rewrite C, C12 in Hc.
  assert (L1 : forall x, In x (w_cols w1) -> (3 <= String.length x)%nat)
    by (intros x Hx; apply Hlen; apply in_or_app; now left).
  assert (L2 : forall x, In x (w_cols w2) -> (3 <= String.length x)%nat)
    by (intros x Hx; apply Hlen; apply in_or_app; right; apply in_or_app;
        now left).
  assert (L3 : forall x, In x (w_cols w3) -> (3 <= String.length x)%nat)
    by (intros x Hx; apply Hlen; apply in_or_app; right; apply in_or_app;
        now right).
  assert (L12 : forall x, In x (merge_cols (w_cols w1) (w_cols w2)) ->
                          (3 <= String.length x)%nat)
    by (now apply merge_cols_long).
  apply (proj1 (merge_cols_year _ _ _ L12 L3 Hy)) in Hc.
  now rewrite (mem_str_merge_cols _ _ _ L1 L2 Hy) in Hc.
Qed.

Lemma build_pop_year_parity_witness :
  xorb (xorb (mem_str "1990" ["1990"; "1995"]) (mem_str "1990" ["2000"; "census"]))
       (mem_str "1990" ["2010"]) = true.
Proof.
  refine (build_pop_year_parity sample_disk
            "data/pop_90-99.csv" "data/pop_00-10.csv" "data/pop_10-19.csv"
            _ _ _ (pop_row "Alabama" "AL" "1990" 40)
            eq_refl eq_refl eq_refl _ _).
  - intros c Hc. cbn in Hc.
    repeat (destruct Hc as [<-|Hc]; [cbn; lia|]). destruct Hc.
  - vm_compute. left. reflexivity.
Defined.

(** ** load_clean_pol *)





(** ** load_clean_eng and build_eng *)

Lemma canonical_src_fixed (s : string) :
  Str.contains "Hydroelectric Conventional" s = false ->
  Str.contains "Wood and Wood Derived Fuels" s = false ->
  Str.contains "Solar Thermal and Photovoltaic" s = false ->
  canonical_src s = s.
Proof.
  intros H1 H2 H3. unfold canonical_src.
  rewrite (replace_absent _ _ s H1), (replace_absent _ _ s H2).
  now apply replace_absent.
Qed.

(** X8: the cleaned generation table has a row for each row of the file
    of the whole power industry whose source is not "Total", and for no
    other; the state is upper-cased, the renewable flag is that of the
    source as the file names it, and a source name that holds none of the
    three long names is kept as it is. *)
Theorem clean_generation_rows (df : list GenRaw) :
  (forall g, In g (clean_generation df) <->
     exists r, In r df /\
               gr_type_of_producer r = TOTAL_INDUSTRY /\
               gr_energy_source r <> "Total" /\
               g = {| g_state := Str.upper (gr_state r);
                      g_year := gr_year r;
                      g_src := canonical_src (gr_energy_source r);
                      g_gen_mwh := gr_generation r;
                      g_renew := renew_of (gr_energy_source r) |}) /\
  (forall r, In r df ->
     gr_type_of_producer r = TOTAL_INDUSTRY ->
     gr_energy_source r <> "Total" ->
     Str.contains "Hydroelectric Conventional" (gr_energy_source r) = false ->
     Str.contains "Wood and Wood Derived Fuels" (gr_energy_source r) = false ->
     Str.contains "Solar Thermal and Photovoltaic" (gr_energy_source r) = false ->
     exists g, In g (clean_generation df) /\
               g_src g = gr_energy_source r /\ g_year g = gr_year r /\
               g_state g = Str.upper (gr_state r)).
Proof.
  assert (A : forall g, In g (clean_generation df) <->
     exists r, In r df /\
               gr_type_of_producer r = TOTAL_INDUSTRY /\
               gr_energy_source r <> "Total" /\
               g = {| g_state := Str.upper (gr_state r);
                      g_year := gr_year r;
                      g_src := canonical_src (gr_energy_source r);
                      g_gen_mwh := gr_generation r;
                      g_renew := renew_of (gr_energy_source r) |}).
  { intros g. unfold clean_generation. rewrite in_map_iff. split.
    - intros [r [<- Hr]]. apply filter_In in Hr. destruct Hr as [Hr Hp].
      apply filter_In in Hr. destruct Hr as [Hr Hs].
      apply String.eqb_eq in Hp. apply negb_true_iff, String.eqb_neq in Hs.
      exists r. tauto.
    - intros [r [Hr [Hp [Hs ->]]]]. exists r. split; [reflexivity|].
      apply filter_In. split.
      + apply filter_In. split; [exact Hr|].
        now apply negb_true_iff, String.eqb_neq.
      + now apply String.eqb_eq. }
  split; [exact A|].
  intros r Hr Hp Hs H1 H2 H3. eexists. split.
  - apply A. exists r. split; [exact Hr|]. split; [exact Hp|].
    split; [exact Hs | reflexivity].
  - cbn. split; [now apply canonical_src_fixed | tauto].
Qed.

Lemma clean_generation_rows_witness :
  exists g, In g (clean_generation sample_gen) /\
            g_src g = "Coal" /\ g_year g = 1990%Z /\ g_state g = Str.upper "al".
Proof.
  refine (proj2 (clean_generation_rows sample_gen)
            (gen_raw 1990 "al" TOTAL_INDUSTRY "Coal" (Some 50))
            _ eq_refl _ eq_refl eq_refl eq_refl).
  - cbn. auto.
  - discriminate.
Defined.

(** X9: [build_eng] returns a table exactly when the generation file and
    the emission file are both on the disk, each with its own columns. *)
Theorem build_eng_ok_iff (fs : disk) :
  (exists eng_df, build_eng fs = Ok eng_df) <->
  (exists g m, fs "data/generation_annual.csv" = Some (GenCsv g) /\
               fs "data/emission_annual.csv" = Some (EmiCsv m)).
Proof.
  unfold build_eng, load_clean_eng, read_csv. cbn [nth ENG].
  change (Str.contains "generation" "data/generation_annual.csv") with true.
  change (Str.contains "generation" "data/emission_annual.csv") with false.
  change (Str.contains "emission" "data/emission_annual.csv") with true.
  split.
  - intros [eng_df H].
    destruct (fs "data/generation_annual.csv") as [[| | |g|]|]; try discriminate.
    destruct (fs "data/emission_annual.csv") as [[| | | |m]|]; try discriminate.
    now exists g, m.
  - intros [g [m [-> ->]]]. cbn. eexists. reflexivity.
Qed.

Lemma build_eng_ok_iff_witness :
  exists eng_df, build_eng sample_disk = Ok eng_df.
Proof.
  apply (proj2 (build_eng_ok_iff sample_disk)).
  exists sample_gen, sample_emi. split; reflexivity.
Defined.

(** ** Joins that keep the rows of one side *)

Section KeepRows.

Context {L R : Type}.
Variable on : L -> R -> bool.

Lemma merge_left_length (left : list L) (right : list R) :
  (List.length left <= List.length (merge_left on left right))%nat.
Proof.
  unfold merge_left. induction left as [|l left IH]; [apply le_n|].
  cbn [flat_map]. rewrite length_app.
  set (n := List.length (flat_map _ left)) in *.
  destruct (filter (on l) right); cbn [List.length map]; lia.
Qed.

Lemma merge_right_length (left : list L) (right : list R) :
  (List.length right <= List.length (merge_right on left right))%nat.
Proof.
  unfold merge_right. induction right as [|r right IH]; [apply le_n|].
  cbn [flat_map]. rewrite length_app.
  set (n := List.length (flat_map _ right)) in *.
  destruct (filter (fun l => on l r) left); cbn [List.length map]; lia.
Qed.

(** when a left row has at most one partner, the left join has the left
    rows, one for one *)
Lemma merge_left_fst (left : list L) (right : list R) :
  (forall l, In l left -> (List.length (filter (on l) right) <= 1)%nat) ->
  map fst (merge_left on left right) = left.
Proof.
  unfold merge_left. induction left as [|l left IH]; intros H; [reflexivity|].
  cbn [flat_map]. rewrite map_app, IH by (intros l' Hl'; apply H; now right).
  specialize (H l (or_introl eq_refl)).
  destruct (filter (on l) right) as [|r [|r' ms]]; cbn in H |- *;
    [reflexivity | reflexivity | lia].
Qed.

Lemma merge_right_snd (left : list L) (right : list R) :
  (forall r, In r right ->
             (List.length (filter (fun l => on l r) left) <= 1)%nat) ->
  map snd (merge_right on left right) = right.
Proof.
  unfold merge_right. induction right as [|r right IH]; intros H; [reflexivity|].
  cbn [flat_map]. rewrite map_app, IH by (intros r' Hr'; apply H; now right).
  specialize (H r (or_introl eq_refl)).
  destruct (filter (fun l => on l r) left) as [|l [|l' ms]]; cbn in H |- *;
    [reflexivity | reflexivity | lia].
Qed.

End KeepRows.

(** rows with distinct keys: at most one of them has a given key *)
Lemma filter_key_unique {A K : Type} (k : A -> K) (p : A -> bool) (a : K)
  (l : list A) :
  NoDup (map k l) ->
  (forall y, In y l -> p y = true -> k y = a) ->
  (List.length (filter p l) <= 1)%nat.
Proof.
  induction l as [|y l IH]; intros Hnd Hp; [cbn; lia|].
  cbn [map] in Hnd. apply NoDup_cons_iff in Hnd. destruct Hnd as [Hy Hnd].
  cbn [filter]. destruct (p y) eqn:E.
  - assert (N : filter p l = []).
    { apply filter_nil_iff. intros y' Hy'. destruct (p y') eqn:E'; [|reflexivity].
      exfalso. apply Hy.
      rewrite (Hp y (or_introl eq_refl) E), <- (Hp y' (or_intror Hy') E').
      now apply in_map. }
    rewrite N. cbn. lia.
  - apply IH; [exact Hnd|]. intros y' Hy'. apply Hp. now right.
Qed.

Lemma same_state_year_src_iff (g : GenRow) (m : EmiRow) :
  same_state_year_src g m = true <-> emi_key m = gen_key g.
Proof.
  unfold same_state_year_src, emi_key, gen_key.
  rewrite !andb_true_iff, !String.eqb_eq, Z.eqb_eq. split.
  - intros [[-> ->] ->]. reflexivity.
  - intros H. injection H as -> -> ->. auto.
Qed.

(** X10: the left join of line 214 drops no generation row: a generation
    row with no emission row of its (state, year, src) gives one row with
    the three emissions 0; the merged table is at least as long as the
    generation table, and when no two emission rows share a key it has
    the generation rows one for one, in order. *)
Theorem merge_eng_left_join (eng_df : list GenRow) (df : list EmiRow) :
  (List.length eng_df <= List.length (merge_eng eng_df df))%nat /\
  (forall g, In g eng_df ->
     (forall m, In m df -> emi_key m <> gen_key g) ->
     In (unmatched_eng g) (merge_eng eng_df df)) /\
  (NoDup (map emi_key df) ->
   map (fun e => (e_code e, e_year e, e_src e, e_gen_mwh e, e_renew e))
       (merge_eng eng_df df)
   = map (fun g => (g_state g, g_year g, g_src g, fillna0 (g_gen_mwh g),
                    g_renew g)) eng_df).
Proof.
  split; [|split].
  - unfold merge_eng. rewrite length_map. apply merge_left_length.
  - intros g Hg Hno. unfold merge_eng. apply in_map_iff.
    exists (g, None). split; [reflexivity|]. apply in_merge_left.
    split; [exact Hg|]. intros m Hm.
    destruct (same_state_year_src g m) eqn:E; [|reflexivity].
    apply same_state_year_src_iff in E. exfalso. exact (Hno m Hm E).
  - intros Hnd. unfold merge_eng. rewrite map_map. cbn.
    rewrite <- (merge_left_fst same_state_year_src eng_df df) at 2.
    + now rewrite map_map.
    + intros g _. apply (filter_key_unique emi_key _ (gen_key g)); [exact Hnd|].
      intros m _ E. now apply same_state_year_src_iff.
Qed.

Lemma merge_eng_left_join_witness :
  In (unmatched_eng (gen_row "AL" 1990 "Wind" None))
     (merge_eng sample_gen_rows sample_emi_rows) /\
  map (fun e => (e_code e, e_year e, e_src e, e_gen_mwh e, e_renew e))
      (merge_eng sample_gen_rows sample_emi_rows)
  = map (fun g => (g_state g, g_year g, g_src g, fillna0 (g_gen_mwh g),
                   g_renew g)) sample_gen_rows.
Proof.
  destruct (merge_eng_left_join sample_gen_rows sample_emi_rows) as [_ [H1 H2]].
  split.
  - apply H1; [cbn; auto|].
    intros m [<-|[<-|[]]]; discriminate.
  - apply H2. repeat constructor; cbn; intuition discriminate.
Defined.

Lemma same_state_code_year_iff (p : PopRow) (l : PolRow) :
  same_state_code_year p l = true <-> pol_key l = pop_key p.
Proof.
  unfold same_state_code_year, pol_key, pop_key.
  rewrite !andb_true_iff, !String.eqb_eq. split.
  - intros [[-> ->] ->]. reflexivity.
  - intros H. injection H as -> -> ->. auto.
Qed.

(** X11: the left join of line 243 drops no population row: a population
    row with no legislature row of its (state, code, year) gives one row
    with [pol] missing; the result is at least as long as the population
    table, and when no two legislature rows share a key it has the
    population rows one for one, in order. *)
Theorem merge_pop_pol_left_join (pop : list PopRow) (pol : list PolRow) :
  (List.length pop <= List.length (merge_pop_pol pop pol))%nat /\
  (forall p, In p pop ->
     (forall l, In l pol -> pol_key l <> pop_key p) ->
     In (unmatched_data p) (merge_pop_pol pop pol)) /\
  (NoDup (map pol_key pol) ->
   map (fun d => (d_state d, d_code d, d_year d, d_pop d)) (merge_pop_pol pop pol)
   = map (fun p => (p_state p, p_code p, p_year p, p_pop p)) pop).
Proof.
  split; [|split].
  - unfold merge_pop_pol. rewrite length_map. apply merge_left_length.
  - intros p Hp Hno. unfold merge_pop_pol. apply in_map_iff.
    exists (p, None). split; [reflexivity|]. apply in_merge_left.
    split; [exact Hp|]. intros l Hl.
    destruct (same_state_code_year p l) eqn:E; [|reflexivity].
    apply same_state_code_year_iff in E. exfalso. exact (Hno l Hl E).
  - intros Hnd. unfold merge_pop_pol. rewrite map_map. cbn.
    rewrite <- (merge_left_fst same_state_code_year pop pol) at 2.
    + now rewrite map_map.
    + intros p _. apply (filter_key_unique pol_key _ (pop_key p)); [exact Hnd|].
      intros l _ E. now apply same_state_code_year_iff.
Qed.

Lemma merge_pop_pol_left_join_witness :
  In (unmatched_data (pop_row "Alabama" "AL" "1995" 42))
     (merge_pop_pol sample_pop_rows sample_pol_rows) /\
  map (fun d => (d_state d, d_code d, d_year d, d_pop d))
      (merge_pop_pol sample_pop_rows sample_pol_rows)
  = map (fun p => (p_state p, p_code p, p_year p, p_pop p)) sample_pop_rows.
Proof.
  destruct (merge_pop_pol_left_join sample_pop_rows sample_pol_rows)
    as [_ [H1 H2]].
  split.
  - apply H1; [cbn; auto|].
    intros l [<-|[<-|[]]]; discriminate.
  - apply H2. repeat constructor; cbn; intuition discriminate.
Defined.

(** ** The rows of the returned table *)

Lemma join_eng_energy (data : list (DataRow Z)) (eng_df : list EngRow) :
  map j_eng (join_eng data eng_df) = map snd (merge_right on_year_code data eng_df).
Proof.
  unfold join_eng. rewrite map_map. apply map_ext.
  intros [[d|] e]; reflexivity.
Qed.

(** X12: the table assembled from line 250 on has at least the rows of
    the energy table, and when no two population rows share a (year,
    code) it has exactly the energy rows, one for one and in order; the
    table [build_full] returns is never shorter than the one [build_eng]
    returns. *)
Theorem assemble_energy_rows (data : list (DataRow Z)) (eng_df : list EngRow) :
  (List.length eng_df <= List.length (assemble data eng_df))%nat /\
  (NoDup (map data_key data) ->
   map (fun r => j_eng (joined r)) (assemble data eng_df) = eng_df) /\
  (forall fs table,
     build_eng fs = Ok eng_df -> build_full fs = Ok table ->
     (List.length eng_df <= List.length table)%nat).
Proof.
  assert (A : forall d, (List.length eng_df <= List.length (assemble d eng_df))%nat).
  { intros d. rewrite <- (length_map joined), assemble_joined.
    unfold join_eng. rewrite length_map. apply merge_right_length. }
  split; [apply A|]. split.
  - intros Hnd. rewrite <- (map_map joined j_eng), assemble_joined, join_eng_energy.
    apply merge_right_snd. intros e _.
    apply (filter_key_unique data_key _ (e_year e, e_code e)); [exact Hnd|].
    intros d _ E. apply on_year_code_iff in E. unfold data_key.
    destruct E as [-> ->]. reflexivity.
  - intros fs table He Hf. unfold build_full in Hf.
    rewrite He in Hf. cbn [bind] in Hf.
    destruct (build_pop fs POPS) as [pop|]; [|discriminate]. cbn [bind] in Hf.
    destruct (load_clean_pol fs LEG) as [pol|]; [|discriminate].
    cbn [bind] in Hf.
    destruct (astype_int (merge_pop_pol pop pol)) as [d|]; [|discriminate].
    cbn [bind] in Hf. injection Hf as <-. apply A.
Qed.

Lemma assemble_energy_rows_witness :
  map (fun r => j_eng (joined r)) (assemble sample_data sample_eng) = sample_eng /\
  (List.length (rows_of (build_eng sample_disk))
   <= List.length (rows_of (build_full sample_disk)))%nat.
Proof.
  destruct (assemble_energy_rows sample_data sample_eng) as [_ [H _]].
  split.
  - apply H. repeat constructor; cbn; intuition discriminate.
  - exact (proj2 (proj2 (assemble_energy_rows sample_data
                           (rows_of (build_eng sample_disk))))
             sample_disk (rows_of (build_full sample_disk)) eq_refl eq_refl).
Defined.

(** ** The cast of the year, line 244 *)

Lemma merge_left_keeps {L R : Type} (on : L -> R -> bool) (l : L)
  (left : list L) (right : list R) :
  In l left -> exists o, In (l, o) (merge_left on left right).
Proof.
  intros Hl. destruct (filter (on l) right) as [|r ms] eqn:E.
  - exists None. apply in_merge_left. split; [exact Hl|].
    now apply filter_nil_iff.
  - exists (Some r). apply in_merge_left. split; [exact Hl|].
    apply filter_In. rewrite E. now left.
Qed.

Lemma astype_int_err (data : list (DataRow string)) :
  (exists d, In d data /\ parse_int (d_year d) = None) ->
  astype_int data = Err ValueError.
Proof.
  induction data as [|r data IH]; intros [d [Hd Hp]]; [destruct Hd|].
  cbn [astype_int]. destruct (parse_int (d_year r)) eqn:E; [|reflexivity].
  destruct Hd as [->|Hd]; [congruence|].
  rewrite IH by (now exists d). reflexivity.
Qed.

Lemma astype_int_ok (data : list (DataRow string)) :
  (forall d, In d data -> parse_int (d_year d) <> None) ->
  exists data', astype_int data = Ok data'.
Proof.
  induction data as [|r data IH]; intros H; [now eexists|].
  cbn [astype_int]. destruct (parse_int (d_year r)) eqn:E.
  - destruct IH as [rest ->]; [intros d Hd; apply H; now right|].
    cbn [bind]. now eexists.
  - exfalso. exact (H r (or_introl eq_refl) E).
Qed.

Lemma merge_pop_pol_years (pop : list PopRow) (pol : list PolRow) (y : string) :
  In y (map d_year (merge_pop_pol pop pol)) <-> In y (map p_year pop).
Proof.
  unfold merge_pop_pol. rewrite map_map. cbn [d_year]. rewrite !in_map_iff. split.
  - intros [[p o] [<- H]]. apply in_merge_left in H. exists p. tauto.
  - intros [p [<- Hp]].
    destruct (merge_left_keeps same_state_code_year p pop pol Hp) as [o Ho].
    now exists (p, o).
Qed.

(** X13: when [build_full] returns a table, [build_eng], [build_pop] and
    [load_clean_pol] have returned theirs and every year label of the
    population table reads as an integer; when the three succeed and a
    label does not, [build_full] fails with the ValueError of the cast. *)
Theorem build_full_year_cast (fs : disk) :
  (forall table,
     build_full fs = Ok table ->
     exists eng_df pop pol,
       build_eng fs = Ok eng_df /\ build_pop fs POPS = Ok pop /\
       load_clean_pol fs LEG = Ok pol /\
       forall p, In p pop -> parse_int (p_year p) <> None) /\
  (forall eng_df pop pol p,
     build_eng fs = Ok eng_df -> build_pop fs POPS = Ok pop ->
     load_clean_pol fs LEG = Ok pol ->
     In p pop -> parse_int (p_year p) = None ->
     build_full fs = Err ValueError).
Proof.
  assert (B : forall eng_df pop pol p,
     build_eng fs = Ok eng_df -> build_pop fs POPS = Ok pop ->
     load_clean_pol fs LEG = Ok pol ->
     In p pop -> parse_int (p_year p) = None ->
     build_full fs = Err ValueError).
  { intros e pop pol p He Hp Hl Hin Hy. unfold build_full.
    rewrite He, Hp, Hl. cbn [bind]. rewrite astype_int_err; [reflexivity|].
    assert (Hd : In (p_year p) (map d_year (merge_pop_pol pop pol)))
      by (apply merge_pop_pol_years; now apply in_map).
    apply in_map_iff in Hd. destruct Hd as [d [E Hd]]. exists d.
    split; [exact Hd | congruence]. }
  split; [|exact B].
  intros table H.
  destruct (build_eng fs) as [e|] eqn:He;
    [|unfold build_full in H; rewrite He in H; discriminate H].
  destruct (build_pop fs POPS) as [pop|] eqn:Hp;
    [|unfold build_full in H; rewrite He, Hp in H; discriminate H].
  destruct (load_clean_pol fs LEG) as [pol|] eqn:Hl;
    [|unfold build_full in H; rewrite He, Hp, Hl in H; discriminate H].
  exists e, pop, pol. repeat split. intros p Hin Hy.
  rewrite (B e pop pol p eq_refl eq_refl eq_refl Hin Hy) in H. discriminate H.
Qed.

Lemma build_full_year_cast_witness :
  build_full base_disk = Err ValueError.
Proof.
  refine (proj2 (build_full_year_cast base_disk) _ _ _
            (pop_row "Alabama" "AL" "base" 2) eq_refl eq_refl eq_refl _ eq_refl).
  vm_compute. do 6 right. left. reflexivity.
Defined.

Lemma digit_char_facts (c : ascii) (d : Z) :
  digit_of c = Some d ->
  Str.mem_char c int_space = false /\ Ascii.eqb c "_"%char = false /\
  c <> "+"%char /\ c <> "-"%char.
Proof.
  destruct c as [[] [] [] [] [] [] [] []]; intros H; vm_compute in H;
    try discriminate H; repeat split; discriminate.
Qed.

Lemma rstrip_id (chars s : string) :
  match last_char s with
  | Some c => Str.mem_char c chars = false
  | None => True
  end ->
  Str.rstrip chars s = s.
Proof.
  induction s as [|c s IH]; [reflexivity|]. intros H.
  cbn [Str.rstrip]. destruct s as [|d s].
  - cbn [last_char] in H. cbn [Str.rstrip]. now rewrite H.
  - rewrite IH by exact H. reflexivity.
Qed.

Lemma parse_int_unsigned (s0 : string) (c : ascii) (s : string) :
  Str.strip int_space s0 = String c s ->
  c <> "+"%char -> c <> "-"%char ->
  parse_int s0 = parse_digits 0 false (String c s).
Proof.
  intros E Hp Hm. unfold parse_int. rewrite E.
  destruct c as [[] [] [] [] [] [] [] []]; try reflexivity;
    exfalso; (now apply Hp) || (now apply Hm).
Qed.

Lemma parse_digits_digit (acc : Z) (b : bool) (c : ascii) (d : Z) (s : string) :
  digit_of c = Some d ->
  parse_digits acc b (String c s) = parse_digits (10 * acc + d) true s.
Proof.
  intros H. destruct (digit_char_facts c d H) as [_ [E _]].
  cbn [parse_digits]. now rewrite E, H.
Qed.

Lemma parse_int_four (c1 c2 c3 c4 : ascii) (d1 d2 d3 d4 : Z) :
  digit_of c1 = Some d1 -> digit_of c2 = Some d2 ->
  digit_of c3 = Some d3 -> digit_of c4 = Some d4 ->
  parse_int (String c1 (String c2 (String c3 (String c4 EmptyString))))
  = Some (1000 * d1 + 100 * d2 + 10 * d3 + d4)%Z.
Proof.
  intros H1 H2 H3 H4.
  destruct (digit_char_facts c1 d1 H1) as [M1 [_ [P1 N1]]].
  destruct (digit_char_facts c4 d4 H4) as [M4 _].
  rewrite (parse_int_unsigned _ c1 (String c2 (String c3 (String c4 EmptyString))));
    auto.
  - rewrite (parse_digits_digit _ _ c1 d1), (parse_digits_digit _ _ c2 d2),
      (parse_digits_digit _ _ c3 d3), (parse_digits_digit _ _ c4 d4) by assumption.
    cbn [parse_digits]. f_equal. lia.
  - unfold Str.strip. cbn [Str.lstrip]. rewrite M1. apply rstrip_id.
    cbn [last_char]. exact M4.
Qed.

Lemma four_digits_parse (s : string) :
  four_digits s = true -> parse_int s <> None.
Proof.
  destruct s as [|c1 [|c2 [|c3 [|c4 [|c5 s]]]]]; try discriminate.
  cbn [four_digits]. unfold is_digit.
  destruct (digit_of c1) as [d1|] eqn:H1; [|discriminate].
  destruct (digit_of c2) as [d2|] eqn:H2; [|discriminate].
  destruct (digit_of c3) as [d3|] eqn:H3; [|discriminate].
  destruct (digit_of c4) as [d4|] eqn:H4; [|discriminate].
  intros _. now rewrite (parse_int_four c1 c2 c3 c4 d1 d2 d3 d4).
Qed.

(** X14: a label of four digits reads as the number it writes, so the
    cast of line 244 succeeds on a table whose year labels all have four
    digits: it returns the rows in their order, the year of each the
    number its label writes and the other columns as they were. *)
Theorem astype_int_four_digits :
  (forall c1 c2 c3 c4 d1 d2 d3 d4,
     digit_of c1 = Some d1 -> digit_of c2 = Some d2 ->
     digit_of c3 = Some d3 -> digit_of c4 = Some d4 ->
     parse_int (String c1 (String c2 (String c3 (String c4 EmptyString))))
     = Some (1000 * d1 + 100 * d2 + 10 * d3 + d4)%Z) /\
  (forall data,
     (forall d, In d data -> four_digits (d_year d) = true) ->
     exists data',
       astype_int data = Ok data' /\
       map (fun d => Some (d_year d)) data'
       = map (fun d => parse_int (d_year d)) data /\
       map (fun d => (d_state d, d_code d, d_pop d, d_pol d)) data'
       = map (fun d => (d_state d, d_code d, d_pop d, d_pol d)) data).
Proof.
  split; [exact parse_int_four|].
  induction data as [|r data IH]; intros H.
  - exists []. repeat split.
  - destruct IH as [rest [E [Hy Hc]]]; [intros d Hd; apply H; now right|].
    pose proof (four_digits_parse (d_year r) (H r (or_introl eq_refl))) as Hp.
    cbn [astype_int]. destruct (parse_int (d_year r)) as [y|] eqn:Ey;
      [|now contradiction Hp].
    rewrite E. cbn [bind]. eexists. split; [reflexivity|].
    cbn [map d_state d_code d_year d_pop d_pol]. rewrite Hy, Hc, Ey.
    split; reflexivity.
Qed.

Lemma astype_int_four_digits_witness :
  parse_int "1990" = Some 1990%Z /\
  exists data',
    astype_int [ {| d_state := "Alabama"; d_code := "AL"; d_year := "1990";
                    d_pop := 40; d_pol := Some "Dem" |} ] = Ok data' /\
    map (fun d => Some (d_year d)) data' = [parse_int "1990"].
Proof.
  split.
  - exact (proj1 astype_int_four_digits "1"%char "9"%char "9"%char "0"%char
             1%Z 9%Z 9%Z 0%Z eq_refl eq_refl eq_refl eq_refl).
  - destruct (proj2 astype_int_four_digits
                [ {| d_state := "Alabama"; d_code := "AL"; d_year := "1990";
                     d_pop := 40; d_pol := Some "Dem" |} ])
      as [data' [E [Hy _]]].
    + intros d [<-|[]]. reflexivity.
    + exists data'. split; [exact E | exact Hy].
Defined.

(** ** What the forward fill keeps *)

Lemma fill_in_order_frame (seen : string -> option string)
  (data : list (DataRow Z)) :
  map (fun r => set_pol r None) (fill_in_order seen data)
  = map (fun r => set_pol r None) data.
Proof.
  revert seen; induction data as [|r data IH]; intros seen; [reflexivity|].
  cbn [fill_in_order]. destruct (d_pol r); cbn [map]; now rewrite IH.
Qed.

Lemma last_pol_none (init : option string) (st : string)
  (before : list (DataRow Z)) :
  last_pol init st before = None <->
  init = None /\
  forall r, In r before -> d_code r = st -> d_pol r = None.
Proof.
  unfold last_pol. revert init; induction before as [|r before IH]; intros init.
  - cbn. split; [intros ->; split; [reflexivity | intros r []] | tauto].
  - cbn [fold_left]. rewrite IH. destruct (String.eqb (d_code r) st) eqn:E.
    + apply String.eqb_eq in E. destruct (d_pol r) as [v|] eqn:Ep.
      * split; [intros [H _]; discriminate H|].
        intros [_ H]. specialize (H r (or_introl eq_refl) E). congruence.
      * split.
        -- intros [-> H]. split; [reflexivity|].
           intros r' [<-|Hr'] Hc; [exact Ep | now apply H].
        -- intros [-> H]. split; [reflexivity|]. intros r' Hr'. apply H. now right.
    + apply String.eqb_neq in E. split.
      * intros [-> H]. split; [reflexivity|].
        intros r' [<-|Hr'] Hc; [contradiction | now apply H].
      * intros [-> H]. split; [reflexivity|]. intros r' Hr'. apply H. now right.
Qed.

Lemma firstn_snoc {A : Type} (l : list A) (i : nat) (x : A) :
  nth_error l i = Some x -> firstn (S i) l = firstn i l ++ [x].
Proof.
  revert i; induction l as [|a l IH]; intros i H; [now destruct i|].
  destruct i as [|i].
  - injection H as ->. reflexivity.
  - cbn [nth_error] in H. cbn [firstn app]. f_equal. now apply IH.
Qed.

(** X15: the per-state fill changes nothing but missing [pol] values: the
    rows keep their number, their order and every other column, and a row
    that has a [pol] keeps it.  After the fill the [pol] of a row is
    missing exactly when it was missing in that row and in every earlier
    row of the same state. *)
Theorem ffill_per_state_frame (data : list (DataRow Z)) :
  map (fun r => set_pol r None) (ffill_per_state data)
  = map (fun r => set_pol r None) data /\
  (forall i r, nth_error data i = Some r -> d_pol r <> None ->
               nth_error (ffill_per_state data) i = Some r) /\
  (forall i r', nth_error (ffill_per_state data) i = Some r' ->
     (d_pol r' = None <->
      forall r, In r (firstn (S i) data) -> d_code r = d_code r' ->
                d_pol r = None)).
Proof.
  rewrite ffill_per_state_in_order. split; [apply fill_in_order_frame|]. split.
  - intros i r Hi Hp. rewrite fill_in_order_nth, Hi. cbn [option_map].
    destruct (d_pol r); [reflexivity | contradiction].
  - intros i r' Hi. rewrite fill_in_order_nth in Hi.
    destruct (nth_error data i) as [r|] eqn:Ei; [|discriminate].
    cbn [option_map] in Hi. rewrite (firstn_snoc data i r Ei).
    destruct (d_pol r) as [v|] eqn:Ep.
    + injection Hi as <-. rewrite Ep. split; [discriminate|].
      intros H. rewrite <- Ep. apply H; [|reflexivity].
      apply in_or_app. right. now left.
    + injection Hi as <-. cbn [set_pol d_pol d_code].
      rewrite last_pol_none. split.
      * intros [_ H] r0 Hr0 Hc. apply in_app_or in Hr0.
        destruct Hr0 as [Hr0|[<-|[]]]; [now apply H | exact Ep].
      * intros H. split; [reflexivity|]. intros r0 Hr0 Hc. apply H; [|exact Hc].
        apply in_or_app. now left.
Qed.

Lemma ffill_per_state_frame_witness :
  nth_error (ffill_per_state legislature_scenario) 2
  = Some (data_row "Alabama" "AL" 1996 42 (Some "Democrat")).
Proof.
  refine (proj1 (proj2 (ffill_per_state_frame legislature_scenario)) 2%nat _
            eq_refl _).
  discriminate.
Defined.

(** ** The per-capita shares *)

Lemma assemble_group_pp (data : list (DataRow Z)) (eng_df : list EngRow)
  (k : Z * string) :
  let pc := map per_capita (join_eng data eng_df) in
  let grp := filter (fun x => key_eqb (year_code x) k) pc in
  filter (fun r => key_eqb (year r, code r) k) (assemble data eng_df)
  = map (fun x => with_rank (rank_sources (map (with_shares (sum_by_year_code pc)) pc))
                    (with_shares (sum_by_year_code pc) x)) grp /\
  forall x, In x grp ->
            sh_sum_mwh_pp (with_shares (sum_by_year_code pc) x)
            = fsum (map pc_mwh_pp grp) /\
            sh_mwh_pp_pct (with_shares (sum_by_year_code pc) x)
            = fdiv (pc_mwh_pp x) (fsum (map pc_mwh_pp grp)).
Proof.
  intros pc grp. split.
  - unfold assemble. fold pc. rewrite map_map, filter_map_comm. reflexivity.
  - intros x Hx. apply filter_In in Hx. destruct Hx as [Hx Hk].
    apply key_eqb_iff in Hk.
    cbn [with_shares sh_sum_mwh_pp sh_mwh_pp_pct]. unfold sum_by_year_code.
    rewrite (lookup_groupby key_eqb key_leb year_code
               (fun g => (fsum (map (fun r => Fin (e_gen_mwh (j_eng (pc_row r)))) g),
                          fsum (map pc_mwh_pp g))) pc x key_eqb_iff Hx).
    cbn [fst snd]. rewrite Hk. fold grp. tauto.
Qed.

(** a sum that skips the missing values, of missing values only *)
Lemma fsum_all_missing (l : list fnum) :
  (forall x, In x l -> x = NaN) -> fsum l = Fin 0.
Proof.
  intros H. unfold fsum.
  assert (E : filter (fun x => negb (isna x)) l = []).
  { apply filter_nil_iff. intros x Hx. now rewrite (H x Hx). }
  now rewrite E.
Qed.

(** X16: in the returned table the [sum_mwh_pp] of a row is the sum of
    the [mwh_pp] of the rows of its (year, code), the missing ones left
    out, and its [mwh_pp_pct] is its [mwh_pp] divided by that sum.  A row
    without population has a missing [mwh_pp] and a missing
    [mwh_pp_pct]; when no row of the group has a population, the sum is
    0. *)
Theorem build_full_mwh_pp_shares (fs : disk) (r0 : FullRow) :
  In r0 (rows_of (build_full fs)) ->
  let group := filter (fun r => key_eqb (year r, code r) (year r0, code r0))
                      (rows_of (build_full fs)) in
  sum_mwh_pp r0 = fsum (map mwh_pp group) /\
  mwh_pp_pct r0 = fdiv (mwh_pp r0) (sum_mwh_pp r0) /\
  (pop r0 = None -> mwh_pp r0 = NaN /\ mwh_pp_pct r0 = NaN) /\
  ((forall r, In r group -> pop r = None) -> sum_mwh_pp r0 = Fin 0).
Proof.
  intros H0 group.
  destruct (in_build_full fs r0 H0) as [e [p0 [l [d [_ [_ [_ [_ [E H]]]]]]]]].
  subst group. rewrite E. clear E H0.
  set (D := ffill_per_state d) in *.
  set (k := (year r0, code r0)).
  destruct (assemble_group_pp D e k) as [G Hg]. cbv zeta in G, Hg.
  set (pc := map per_capita (join_eng D e)) in *.
  set (S := sum_by_year_code pc) in *.
  set (W := fun x => with_rank (rank_sources (map (with_shares S) pc))
                       (with_shares S x)) in *.
  set (grp := filter (fun x => key_eqb (year_code x) k) pc) in *.
  assert (H0 : exists x0, In x0 grp /\ r0 = W x0).
  { assert (Hin : In r0 (filter (fun r => key_eqb (year r, code r) k)
                                (assemble D e))).
    { apply filter_In. split; [exact H | now apply key_eqb_iff]. }
    rewrite G in Hin. apply in_map_iff in Hin. destruct Hin as [x0 [<- Hx0]].
    now exists x0. }
  destruct H0 as [x0 [Hx0 ->]].
  assert (Hpc : forall x, In x grp -> exists j, x = per_capita j).
  { intros x Hx. apply filter_In in Hx. destruct Hx as [Hx _].
    apply in_map_iff in Hx. destruct Hx as [j [<- _]]. now exists j. }
  assert (Hsum : sum_mwh_pp (W x0)
                 = fsum (map mwh_pp (filter (fun r => key_eqb (year r, code r) k)
                                            (assemble D e)))).
  { rewrite G, map_map. unfold sum_mwh_pp, W. cbn [shares with_rank].
    rewrite (proj1 (Hg x0 Hx0)). reflexivity. }
  assert (Hpct : mwh_pp_pct (W x0) = fdiv (mwh_pp (W x0)) (sum_mwh_pp (W x0))).
  { unfold mwh_pp_pct, mwh_pp, sum_mwh_pp, W. cbn [shares with_rank].
    rewrite (proj1 (Hg x0 Hx0)), (proj2 (Hg x0 Hx0)). reflexivity. }
  split; [exact Hsum|]. split; [exact Hpct|]. split.
  - intros Hp.
    assert (Hm : mwh_pp (W x0) = NaN).
    { destruct (Hpc x0 Hx0) as [j ->]. unfold pop, mwh_pp, joined, W in *.
      cbn [shares with_rank with_shares sh_row pc_row per_capita pc_mwh_pp] in *.
      now rewrite Hp. }
    split; [exact Hm|]. now rewrite Hpct, Hm.
  - intros Hnone. rewrite Hsum. apply fsum_all_missing.
    intros x Hx. apply in_map_iff in Hx. destruct Hx as [r [<- Hr]].
    pose proof (Hnone r Hr) as Hp. rewrite G in Hr. apply in_map_iff in Hr.
    destruct Hr as [x1 [<- Hx1]]. destruct (Hpc x1 Hx1) as [j ->].
    unfold pop, mwh_pp, joined, W in *.
    cbn [shares with_rank with_shares sh_row pc_row per_capita pc_mwh_pp] in *.
    now rewrite Hp.
Qed.

Lemma build_full_mwh_pp_shares_witness :
  exists r0,
    In r0 (rows_of (build_full sample_disk)) /\
    src r0 = "Petroleum" /\
    mwh_pp r0 = NaN /\ mwh_pp_pct r0 = NaN /\ sum_mwh_pp r0 = Fin 0.
Proof.
  eexists. split; [vm_compute; do 3 right; left; reflexivity|].
  split; [reflexivity|].
  match goal with
  | |- mwh_pp ?r0 = _ /\ _ =>
      destruct (build_full_mwh_pp_shares sample_disk r0) as [_ [_ [H1 H2]]];
        [vm_compute; do 3 right; left; reflexivity|]
  end.
  destruct (H1 eq_refl) as [Hm Hp]. split; [exact Hm|]. split; [exact Hp|].
  apply H2. intros r Hr. apply filter_In in Hr. destruct Hr as [Hr Hk].
  vm_compute in Hr.
  repeat (destruct Hr as [<-|Hr]; [first [discriminate Hk | reflexivity]|]).
  destruct Hr.
Defined.

(** ** The order of the ranking *)

Section SortedFacts.

Context {K : Type}.
Variable leb : K -> K -> bool.
Variable dom : K -> Prop.
Hypothesis leb_total : forall x y, dom x -> dom y -> leb x y = true \/ leb y x = true.
Hypothesis leb_trans : forall x y z, dom x -> dom y -> dom z ->
  leb x y = true -> leb y z = true -> leb x z = true.

Lemma insert_sorted (x : K) (l : list K) :
  dom x -> Forall dom l ->
  StronglySorted (fun a b => leb a b = true) l ->
  StronglySorted (fun a b => leb a b = true) (insert leb x l).
Proof.
  intros Hx Hd Hs. induction Hs as [|y l Hs IH Hy]; cbn [insert].
  - constructor; constructor.
  - apply Forall_cons_iff in Hd. destruct Hd as [Hdy Hd].
    destruct (leb x y) eqn:E.
    + constructor; [now constructor|]. constructor; [exact E|].
      rewrite Forall_forall in Hy, Hd |- *. intros z Hz.
      apply (leb_trans x y z); auto.
    + constructor; [now apply IH|].
      rewrite Forall_forall in Hy |- *. intros z Hz.
      apply (Permutation_in _ (insert_perm leb x l)) in Hz.
      destruct Hz as [<-|Hz]; [|now apply Hy].
      destruct (leb_total x y Hx Hdy); congruence.
Qed.

Lemma sort_sorted (l : list K) :
  Forall dom l -> StronglySorted (fun a b => leb a b = true) (sort leb l).
Proof.
  induction l as [|x l IH]; intros Hd; cbn [sort]; [constructor|].
  apply Forall_cons_iff in Hd. destruct Hd as [Hx Hd].
  apply insert_sorted; auto.
  rewrite Forall_forall in Hd |- *. intros y Hy. apply Hd.
  now apply (in_sort leb).
Qed.

Lemma sorted_nth (R : K -> K -> Prop) (l : list K) (i j : nat) (x y : K) :
  StronglySorted R l -> (i < j)%nat ->
  nth_error l i = Some x -> nth_error l j = Some y -> R x y.
Proof.
  intros Hs; revert i j; induction Hs as [|a l Hs IH Ha]; intros i j Hij Hi Hj.
  - now destruct i.
  - destruct j as [|j]; [lia|]. cbn [nth_error] in Hj. destruct i as [|i].
    + injection Hi as <-. rewrite Forall_forall in Ha. apply Ha.
      now apply nth_error_In in Hj.
    + cbn [nth_error] in Hi. apply (IH i j); auto. lia.
Qed.

End SortedFacts.

(** X17: the ranks follow the ratio: a source ranked before a source with
    a defined ratio of summed [co2_tons] to summed [gen_mwh] has a defined
    ratio too, and one that is not smaller; the sources without a ratio
    come last. *)
Theorem build_full_rank_order (fs : disk) (r r' : FullRow) (k k' : Z) :
  In r (rows_of (build_full fs)) -> In r' (rows_of (build_full fs)) ->
  rank r = Some k -> rank r' = Some k' -> (k < k')%Z ->
  isna (co2_mwh (rows_of (build_full fs)) (src r')) = false ->
  isna (co2_mwh (rows_of (build_full fs)) (src r)) = false /\
  fleb (co2_mwh (rows_of (build_full fs)) (src r'))
       (co2_mwh (rows_of (build_full fs)) (src r)) = true.
Proof.
  destruct (build_full_table fs) as [data E]. rewrite E.
  destruct (rank_table data) as [A [_ [C _]]].
  set (table := map (with_rank (rank_sources data)) data) in *.
  intros Hr Hr' Hk Hk' Hlt Hna.
  destruct (A r Hr) as [i [Ei Hi]]. destruct (A r' Hr') as [i' [Ei' Hi']].
  rewrite Hk in Ei. rewrite Hk' in Ei'. injection Ei as ->. injection Ei' as ->.
  assert (Hii : (i < i')%nat) by lia. clear Hlt Hk Hk'.
  rewrite nth_error_map in Hi, Hi'.
  set (tbl := co2_per_mwh data) in *.
  destruct (nth_error (sort_values_desc tbl) i) as [e|] eqn:Fi; [|discriminate].
  destruct (nth_error (sort_values_desc tbl) i') as [e'|] eqn:Fi'; [|discriminate].
  cbn [option_map] in Hi, Hi'. injection Hi as Hi. injection Hi' as Hi'.
  assert (Hval : forall x, In x (sort_values_desc tbl) ->
                           snd x = co2_mwh table (fst x)).
  { intros x Hx. apply (Permutation_in _ (sort_values_desc_perm tbl)) in Hx.
    destruct (co2_per_mwh_entry data x Hx) as [_ Hv]. now rewrite C. }
  assert (He' : snd e' = co2_mwh table (src r')).
  { rewrite <- Hi'. apply Hval. eapply nth_error_In; eauto. }
  assert (He : snd e = co2_mwh table (src r)).
  { rewrite <- Hi. apply Hval. eapply nth_error_In; eauto. }
  rewrite <- He, <- He'. rewrite <- He' in Hna.
  unfold sort_values_desc in Fi, Fi'.
  set (geb := fun a b : string * fnum => fleb (snd b) (snd a)) in *.
  set (nn := filter (fun a => negb (isna (snd a))) tbl) in *.
  assert (Hlen : (i' < List.length (sort geb nn))%nat).
  { destruct (Nat.lt_ge_cases i' (List.length (sort geb nn))) as [L|L];
      [exact L|].
    rewrite nth_error_app2 in Fi' by exact L. apply nth_error_In in Fi'.
    apply filter_In in Fi'. destruct Fi' as [_ Fi']. congruence. }
  rewrite nth_error_app1 in Fi' by exact Hlen.
  rewrite nth_error_app1 in Fi by lia.
  assert (Hdom : Forall (fun a => isna (snd a) = false) nn).
  { apply Forall_forall. intros x Hx. apply filter_In in Hx.
    now rewrite negb_true_iff in Hx. }
  split.
  - apply nth_error_In in Fi. apply (proj1 (in_sort geb e nn)) in Fi.
    rewrite Forall_forall in Hdom. now apply Hdom.
  - apply (sorted_nth (fun a b => geb a b = true) (sort geb nn) i i' e e');
      auto.
    apply (sort_sorted geb (fun a => isna (snd a) = false)); auto.
    + intros x y Hx Hy. unfold geb.
      destruct (fleb_total (snd x) (snd y)); auto.
    + intros x y z Hx Hy Hz H1 H2. unfold geb in *.
      now apply (fleb_trans (snd z) (snd y) (snd x)).
Qed.

Lemma build_full_rank_order_witness :
  exists r r',
    In r (rows_of (build_full sample_disk)) /\
    In r' (rows_of (build_full sample_disk)) /\
    src r = "Petroleum" /\ src r' = "Hydroelectric" /\
    fleb (co2_mwh (rows_of (build_full sample_disk)) (src r'))
         (co2_mwh (rows_of (build_full sample_disk)) (src r)) = true.
Proof.
  eexists. eexists.
  split; [vm_compute; do 3 right; left; reflexivity|].
  split; [vm_compute; right; left; reflexivity|].
  split; [reflexivity|]. split; [reflexivity|].
  match goal with
  | |- fleb (co2_mwh _ (src ?r')) (co2_mwh _ (src ?r)) = true =>
      refine (proj2 (build_full_rank_order sample_disk r r' 2 3
                       _ _ eq_refl eq_refl eq_refl eq_refl))
  end.
  - vm_compute. do 3 right. left. reflexivity.
  - vm_compute. right. left. reflexivity.
Defined.

(** ** Shares of a group without generation *)

(** X18: in the returned table, when the [sum_gen_mwh] of a row is zero
    its [gen_mwh_pct] is no number: it is missing when the row's own
    [gen_mwh] is zero, and infinite, with the sign of [gen_mwh],
    otherwise. *)
Theorem build_full_zero_sum (fs : disk) (r : FullRow) (s : Q) :
  In r (rows_of (build_full fs)) ->
  sum_gen_mwh r = Fin s -> s == 0 ->
  gen_mwh_pct r = (if Qeq_bool (gen_mwh r) 0 then NaN
                   else if Q_ltb 0 (gen_mwh r) then PInf else NInf).
Proof.
  intros H Hs Hz.
  destruct (in_build_full fs r H) as [e [p [l [d [_ [_ [_ [_ [_ Hin]]]]]]]]].
  pose proof (assemble_group (ffill_per_state d) e (year r, code r)) as G.
  cbv zeta in G.
  assert (Hg : In r (filter (fun r' => key_eqb (year r', code r') (year r, code r))
                            (assemble (ffill_per_state d) e))).
  { apply filter_In. split; [exact Hin | now apply key_eqb_iff]. }
  destruct (G r Hg) as [G1 G2]. rewrite G2. rewrite Hs in G1.
  rewrite <- G1. cbn [fdiv].
  assert (E : Qeq_bool s 0 = true) by now apply Qeq_bool_iff.
  now rewrite E.
Qed.

Lemma build_full_zero_sum_witness :
  exists r, In r (rows_of (build_full zero_disk)) /\ gen_mwh_pct r = PInf.
Proof.
  eexists. split; [vm_compute; left; reflexivity|].
  match goal with
  | |- gen_mwh_pct ?r = _ =>
      refine (build_full_zero_sum zero_disk r (0 + 5 + (-5 # 1)) _ eq_refl eq_refl)
  end.
  vm_compute. left. reflexivity.
Defined.

(** ** The other ways through load_clean_eng *)

(** [load_clean_eng] reads the file before it looks at the name, so
    a file that is not there gives the error of the read whatever the
    name; a name with "emission" and without "generation" in it takes the
    emission branch; and each branch fails on the file of the other, which
    lacks its producer column. *)
Theorem load_clean_eng_branches (fs : disk) (filename : string) :
  (fs filename = None -> load_clean_eng fs filename = Err FileNotFoundError) /\
  (Str.contains "generation" filename = false ->
   Str.contains "emission" filename = true ->
   load_clean_eng fs filename = (df <- read_csv fs filename ;; emission_branch df)) /\
  (forall rows, Str.contains "generation" filename = true ->
                fs filename = Some (EmiCsv rows) ->
                load_clean_eng fs filename = Err KeyError) /\
  (forall rows, Str.contains "generation" filename = false ->
                Str.contains "emission" filename = true ->
                fs filename = Some (GenCsv rows) ->
                load_clean_eng fs filename = Err KeyError).
Proof.
  unfold load_clean_eng, read_csv. repeat split.
  - intros ->. reflexivity.
  - intros Hg He. now rewrite Hg, He.
  - intros rows Hg ->. cbn [bind]. now rewrite Hg.
  - intros rows Hg He ->. cbn [bind]. now rewrite Hg, He.
Qed.

Lemma load_clean_eng_branches_witness :
  load_clean_eng sample_disk "data/none.csv" = Err FileNotFoundError /\
  load_clean_eng sample_disk "data/emission_annual.csv"
  = Ok (EmiClean (clean_emission sample_emi)) /\
  load_clean_eng (disk_of [("generation.csv", EmiCsv sample_emi)]) "generation.csv"
  = Err KeyError.
Proof.
  split; [|split].
  - exact (proj1 (load_clean_eng_branches sample_disk "data/none.csv") eq_refl).
  - exact (proj1 (proj2 (load_clean_eng_branches sample_disk
                           "data/emission_annual.csv")) eq_refl eq_refl).
  - exact (proj1 (proj2 (proj2 (load_clean_eng_branches
                                  (disk_of [("generation.csv", EmiCsv sample_emi)])
                                  "generation.csv")))
             sample_emi eq_refl eq_refl).
Defined.

(** ** The population side of the returned table *)

Lemma astype_int_names (data : list (DataRow string)) (data' : list (DataRow Z)) :
  astype_int data = Ok data' ->
  map (fun d => (d_state d, d_code d)) data'
  = map (fun d => (d_state d, d_code d)) data.
Proof.
  revert data'; induction data as [|r data IH]; intros data' H.
  - injection H as <-. reflexivity.
  - cbn [astype_int] in H. destruct (parse_int (d_year r)); [|discriminate].
    destruct (astype_int data) as [rest|]; [|discriminate].
    cbn [bind] in H. injection H as <-. cbn [map d_state d_code].
    now rewrite (IH rest).
Qed.

Lemma fill_in_order_names (seen : string -> option string)
  (data : list (DataRow Z)) :
  map (fun d => (d_state d, d_code d)) (fill_in_order seen data)
  = map (fun d => (d_state d, d_code d)) data.
Proof.
  revert seen; induction data as [|r data IH]; intros seen; [reflexivity|].
  cbn [fill_in_order]. destruct (d_pol r); cbn [map set_pol d_state d_code];
    now rewrite IH.
Qed.

(** X19: in a row of the returned table the state name and the population
    are present together or missing together, and [pol] is missing when
    they are; when they are present, the state name and the code of the
    row stand together in a row of the loaded code table. *)
Theorem build_full_population_side (fs : disk) (r : FullRow) :
  In r (rows_of (build_full fs)) ->
  (state r = None <-> pop r = None) /\
  (pop r = None -> pol r = None) /\
  (forall s, state r = Some s ->
     exists c, In c (rows_of (load_codes fs CODE)) /\
               cd_state c = s /\ cd_code c = code r).
Proof.
  intros H. apply in_build_full in H.
  destruct H as [e [p [l [d [_ [Hp [_ [Hd [_ H]]]]]]]]].
  apply assemble_per_capita in H. destruct H as [H _].
  apply in_join_eng in H. destruct H as [_ H].
  unfold state, pop, pol, code.
  destruct H as [[row [Hrow [Ho [Hs [Hpop Hpol]]]]] | [_ [Hs [Hpop Hpol]]]].
  - rewrite Hs, Hpop. split; [split; discriminate|]. split; [discriminate|].
    intros s E. injection E as <-.
    apply on_year_code_iff in Ho. destruct Ho as [_ Hc]. rewrite <- Hc.
    assert (Hn : In (d_state row, d_code row)
                    (map (fun x => (p_state x, p_code x)) p)).
    { assert (Hn : In (d_state row, d_code row)
                      (map (fun x => (d_state x, d_code x)) (merge_pop_pol p l))).
      { rewrite <- (astype_int_names _ _ Hd).
        rewrite <- (fill_in_order_names (fun _ => None)).
        rewrite <- ffill_per_state_in_order.
        apply in_map_iff. now exists row. }
      unfold merge_pop_pol in Hn. rewrite map_map in Hn. cbn in Hn.
      apply in_map_iff in Hn. destruct Hn as [[x o] [E Hx]].
      apply in_merge_left in Hx. apply in_map_iff. exists x. tauto. }
    apply in_map_iff in Hn. destruct Hn as [x [E Hx]]. injection E as E1 E2.
    destruct (build_pop_codes fs POPS p x Hp Hx) as [c [Hc1 [Hc2 Hc3]]].
    exists c. split; [exact Hc1|]. split; congruence.
  - rewrite Hs, Hpop, Hpol. split; [tauto|]. split; [reflexivity|].
    intros s E. discriminate E.
Qed.

Lemma build_full_population_side_witness :
  exists r, In r (rows_of (build_full sample_disk)) /\
            exists c, In c (rows_of (load_codes sample_disk CODE)) /\
                      cd_state c = "Alabama" /\ cd_code c = code r.
Proof.
  eexists. split; [vm_compute; left; reflexivity|].
  match goal with
  | |- exists c, _ /\ _ /\ cd_code c = code ?r =>
      refine (proj2 (proj2 (build_full_population_side sample_disk r _))
                "Alabama" eq_refl)
  end.
  vm_compute. left. reflexivity.
Defined.

(** ** The rows load_clean_pop keeps *)

Lemma cells_at_some (cells : list (option Q)) (js : list nat) :
  (exists qs, cells_at cells js = Some qs) <->
  forall j, In j js -> cell_at cells j <> None.
Proof.
  induction js as [|j js IH]; cbn [cells_at].
  - split; [intros _ j [] | intros _; now eexists].
  - split.
    + intros [qs H]. destruct (cell_at cells j) as [q|] eqn:E; [|discriminate].
      destruct (cells_at cells js) as [qs'|] eqn:E'; [|discriminate].
      intros j' [<-|Hj']; [congruence|].
      apply (proj1 IH); [now eexists | exact Hj'].
    + intros H. destruct (cell_at cells j) as [q|] eqn:E.
      * destruct (proj2 IH) as [qs' ->]; [intros j' Hj'; apply H; now right|].
        now eexists.
      * exfalso. exact (H j (or_introl eq_refl) E).
Qed.

Lemma positions_bound (p : string -> bool) (cols : list string) (j : nat) :
  In j (positions p cols) -> (j < List.length cols)%nat.
Proof.
  unfold positions. intros H. apply in_map_iff in H.
  destruct H as [[j' c] [<- H]]. apply filter_In in H. destruct H as [H _].
  apply in_combine_l in H. apply in_seq in H. cbn [fst]. lia.
Qed.

(** X20: [load_clean_pop] keeps the rows of the file that start with a dot
    and have no missing cell in any column of the file, the columns with a
    hyphen included although they are not kept; it keeps no other row. *)
Theorem load_clean_pop_rows (fs : disk) (filename : string) (df : PopFile)
  (w : Wide) (st : string) :
  fs filename = Some (PopCsv df) ->
  load_clean_pop fs filename = Ok w ->
  (In st (map fst (w_rows w)) <->
   exists cells,
     In (Some st, cells) (pf_rows df) /\
     Str.startswith "." st = true /\
     forall j, (j < List.length (pf_cols df))%nat -> cell_at cells j <> None).
Proof.
  intros Hf. unfold load_clean_pop, read_csv. rewrite Hf. cbn [bind].
  destruct (negb (no_hyphen (Str.lower (pf_first df)))).
  - destruct (filter no_hyphen (map Str.lower (pf_cols df))); discriminate.
  - case_text_column.
    intros H. injection H as <-. cbn [w_rows]. rewrite length_map.
    set (n := List.length (pf_cols df)).
    set (js := positions no_hyphen (map Str.lower (pf_cols df))).
    assert (Hjs : forall j, In j js -> (j < n)%nat).
    { intros j Hj. apply positions_bound in Hj. now rewrite length_map in Hj. }
    rewrite in_map_iff. split.
    + intros [[st' qs] [E Hin]]. cbn [fst] in E. subst st'.
      apply in_flat_map in Hin. destruct Hin as [[o cells] [Hr Hin]].
      apply filter_In in Hr. destruct Hr as [Hr Hfull]. cbn [fst snd] in *.
      destruct o as [s0|]; [|destruct Hin].
      destruct (cells_at cells (seq 0 n)) as [all|] eqn:Ea; [|discriminate].
      destruct (cells_at cells js) as [qs'|]; [|destruct Hin].
      destruct (Str.startswith "." s0) eqn:Es; [|destruct Hin].
      destruct Hin as [Hin|[]]. injection Hin as -> _.
      exists cells. split; [exact Hr|]. split; [exact Es|].
      intros j Hj. apply (proj1 (cells_at_some cells (seq 0 n))).
      * exists all. exact Ea.
      * apply in_seq. lia.
    + intros [cells [Hr [Es Hall]]].
      destruct (proj2 (cells_at_some cells (seq 0 n))) as [all Ea].
      { intros j Hj. apply Hall. apply in_seq in Hj. lia. }
      destruct (proj2 (cells_at_some cells js)) as [qs Eq].
      { intros j Hj. apply Hall. now apply Hjs. }
      exists (st, qs). split; [reflexivity|]. apply in_flat_map.
      exists (Some st, cells). split.
      * apply filter_In. split; [exact Hr|]. cbn [fst snd]. now rewrite Ea.
      * cbn [fst snd]. rewrite Eq, Es. now left.
Qed.

Lemma load_clean_pop_rows_witness :
  ~ In ".Texas"
       (map fst (w_rows {| w_key := "state"; w_cols := ["1990"; "1995"];
                           w_rows := [ (".Alabama", [40; 42]);
                                       (".California", [300; 310]) ] |})) /\
  In ".Alabama"
     (map fst (w_rows {| w_key := "state"; w_cols := ["1990"; "1995"];
                         w_rows := [ (".Alabama", [40; 42]);
                                     (".California", [300; 310]) ] |})).
Proof.
  split.
  - intros H.
    apply (proj1 (load_clean_pop_rows sample_disk "data/pop_90-99.csv"
                    sample_pop_90 _ ".Texas" eq_refl eq_refl)) in H.
    destruct H as [cells [Hin [_ Hall]]]. cbn in Hin.
    destruct Hin as [Hin|[Hin|[Hin|[Hin|[Hin|[]]]]]]; try discriminate Hin.
    injection Hin as <-. exact (Hall 1%nat ltac:(cbn; lia) eq_refl).
  - apply (proj2 (load_clean_pop_rows sample_disk "data/pop_90-99.csv"
                    sample_pop_90 _ ".Alabama" eq_refl eq_refl)).
    exists [Some 40; Some 42; Some 2]. split; [cbn; auto|].
    split; [reflexivity|]. intros j Hj. cbn in Hj.
    destruct j as [|[|[|j]]]; cbn; try discriminate. lia.
Defined.
